(** * SIGEM local store (APIdb.js): shallow embedding and verified properties

    The store of [APIdb.js] is a Dexie/IndexedDB database with four tables
    ([users], [usersMeta], [orders], [ordersMeta]).  The records it keeps
    are plain JavaScript objects, so the embedding starts with a small
    model of JavaScript values and of the coercions the code relies on
    ([String], [Number], [parseInt], truthiness), then gives the store as
    explicit state threaded through an error monad, and finally the
    operations of the file, each under the name it has in the source. *)

From Stdlib Require Import ZArith QArith Qabs String Ascii List Lia.
From stdpp Require Import gmap strings list fin_maps sorting.

Set Warnings "-register-all".
#[local] Set Default Proof Using "Type".

Close Scope Q_scope.
#[local] Open Scope string_scope.
#[local] Open Scope Z_scope.

(* ================================================================== *)
(** ** JavaScript values *)
(* ================================================================== *)

(** Numbers are the rationals: every number the store reads or writes is
    either an integer (codes, status values, versions, epoch
    milliseconds, seconds) or a decimal with two digits ([hs_reales]).
    [VNaN] is the one non-finite number the code can compute (a
    difference with an invalid date); the infinities are not values of
    this type.  A numeric coercion returns [option Q], [None] standing
    for [NaN]. *)
Inductive jsval :=
| VUndef
| VNull
| VBool (b : bool)
| VNum (q : Q)
| VNaN
| VStr (s : string)
| VArr (l : list jsval)
| VObj (m : gmap string jsval).

Abbreviation obj := (gmap string jsval).

Definition VInt (z : Z) : jsval := VNum (inject_Z z).

(** [v] tested in a condition ([if (v)], [!v], [v || w], [v && w]). *)
Definition truthy (v : jsval) : bool :=
  match v with
  | VUndef | VNull | VNaN => false
  | VBool b => b
  | VNum q => negb (Qeq_bool q 0)
  | VStr s => negb (String.eqb s "")
  | VArr _ | VObj _ => true
  end.

(** [v || w] *)
Definition js_or (v w : jsval) : jsval := if truthy v then v else w.

(** [v ?? w] *)
Definition nullish (v : jsval) : bool :=
  match v with VUndef | VNull => true | _ => false end.
Definition js_coalesce (v w : jsval) : jsval := if nullish v then w else v.

(** Property read with optional chaining, [v?.k] (also [v.k] when [v] is
    known to be an object): [undefined] on anything that has no own
    property [k]. *)
Definition oget (k : string) (v : jsval) : jsval :=
  match v with
  | VObj m => default VUndef (m !! k)
  | _ => VUndef
  end.

(** Thrown values.  The source throws [new Error(message)] everywhere;
    [TypeError] is what the engine throws on a property read of [null]
    or [undefined], [DataError] what IndexedDB throws on a record whose
    key path holds no valid key, and [StorageFault] stands for a write
    the storage engine rejects (quota, I/O).  [NotModelled] is thrown
    by no code: the model stops with it at the one place where the code
    goes on to a store the model has no value for, the put of a meta
    record under a version that is a valid key without being an
    integer. *)
Inductive exn :=
| Error (msg : string)
| TypeError
| DataError
| StorageFault
| NotModelled.

Inductive result (A : Type) :=
| Ok (a : A)
| Throw (e : exn).
Arguments Ok {A} a.
Arguments Throw {A} e.

(** Plain property read [v.k]: throws on [null] and [undefined]. *)
Definition pget (k : string) (v : jsval) : result jsval :=
  if nullish v then Throw TypeError else Ok (oget k v).

(* ------------------------------------------------------------------ *)
(** *** Characters, trimming, decimal digits *)

(** A string of the model is the UTF-8 encoding of the JavaScript
    string it stands for, which is taken to be well formed (no lone
    surrogate).  The white space that [trim] and [parseInt] skip is the
    [WhiteSpace] and [LineTerminator] of ECMAScript: six ASCII
    characters, U+00A0 on two bytes, and on three bytes U+1680, U+2000
    to U+200A, U+2028, U+2029, U+202F, U+205F, U+3000 and U+FEFF. *)
Definition is_space (c : ascii) : bool :=
  let n := nat_of_ascii c in
  ((n =? 32) || ((9 <=? n) && (n <=? 13)))%nat.

Definition is_space2 (c1 c2 : ascii) : bool :=
  ((nat_of_ascii c1 =? 194) && (nat_of_ascii c2 =? 160))%nat.

Definition is_space3 (c1 c2 c3 : ascii) : bool :=
  let a := nat_of_ascii c1 in
  let b := nat_of_ascii c2 in
  let c := nat_of_ascii c3 in
  (((a =? 225) && (b =? 154) && (c =? 128))
   || ((a =? 226) && (b =? 128)
       && (((128 <=? c) && (c <=? 138)) || (c =? 168) || (c =? 169) || (c =? 175)))
   || ((a =? 226) && (b =? 129) && (c =? 159))
   || ((a =? 227) && (b =? 128) && (c =? 128))
   || ((a =? 239) && (b =? 187) && (c =? 191)))%nat.

(** The white space at the head of [l] taken off.  With [back], [l] is
    a string read from its end, and the bytes of a character come in
    the opposite order. *)
Fixpoint skip_spaces (back : bool) (l : list ascii) : list ascii :=
  match l with
  | [] => []
  | c1 :: tl1 =>
      if is_space c1 then skip_spaces back tl1
      else
        match tl1 with
        | c2 :: tl2 =>
            if (if back then is_space2 c2 c1 else is_space2 c1 c2)
            then skip_spaces back tl2
            else
              match tl2 with
              | c3 :: tl3 =>
                  if (if back then is_space3 c3 c2 c1 else is_space3 c1 c2 c3)
                  then skip_spaces back tl3
                  else l
              | [] => l
              end
        | [] => l
        end
  end.

Definition trim_left (l : list ascii) : list ascii := skip_spaces false l.

Definition trim_chars (l : list ascii) : list ascii :=
  rev (skip_spaces true (rev (trim_left l))).

(** [s.trim()] *)
Definition trim (s : string) : string :=
  string_of_list_ascii (trim_chars (list_ascii_of_string s)).

(** A character of one byte. *)
Definition is_plain (c : ascii) : bool := (nat_of_ascii c <? 128)%nat.

Definition is_digit (c : ascii) : bool :=
  let n := nat_of_ascii c in ((48 <=? n) && (n <=? 57))%nat.

Definition digit_val (c : ascii) : Z := Z.of_nat (nat_of_ascii c) - 48.

Definition digit_char (d : Z) : ascii := ascii_of_nat (Z.to_nat (48 + d)).

(** The longest run of decimal digits at the head of [l], and the rest. *)
Fixpoint span_digits (l : list ascii) : list ascii * list ascii :=
  match l with
  | c :: tl =>
      if is_digit c
      then let '(ds, rest) := span_digits tl in (c :: ds, rest)
      else ([], l)
  | [] => ([], [])
  end.

Definition digits_value (ds : list ascii) : Z :=
  fold_left (fun acc c => 10 * acc + digit_val c) ds 0.

(** [parseInt(s, 10)]: leading white space, an optional sign, then the
    longest run of digits; [None] is [NaN].  The engine returns the
    double nearest to the integer read; the integer is kept here, which
    is the same number up to 2^53. *)
Definition parseInt10 (s : string) : option Z :=
  let l := trim_left (list_ascii_of_string s) in
  let '(neg, l) :=
    match l with
    | "-"%char :: tl => (true, tl)
    | "+"%char :: tl => (false, tl)
    | _ => (false, l)
    end in
  match fst (span_digits l) with
  | [] => None
  | ds => Some (if neg then - digits_value ds else digits_value ds)
  end.

(* ------------------------------------------------------------------ *)
(** *** Printing numbers *)

(** Decimal digits of [n >= 0], most significant first, put in front of
    [acc].  [fuel] bounds the number of digits after the first. *)
Fixpoint digits_of (fuel : nat) (n : Z) (acc : list ascii) : list ascii :=
  let acc' := digit_char (n mod 10) :: acc in
  match fuel with
  | O => acc'
  | S f => if n <? 10 then acc' else digits_of f (n / 10) acc'
  end.

Definition nat_digits (n : Z) : list ascii :=
  digits_of (Z.to_nat (Z.log2 n)) n [].

Definition chars_of_Z (z : Z) : list ascii :=
  if z <? 0 then "-"%char :: nat_digits (- z) else nat_digits z.

Definition string_of_Z (z : Z) : string := string_of_list_ascii (chars_of_Z z).

(** Up to [fuel] digits of the fraction [r / d] (with [0 <= r < d]). *)
Fixpoint frac_digits (fuel : nat) (r d : Z) : list ascii :=
  match fuel with
  | O => []
  | S f =>
      if r =? 0 then []
      else digit_char (10 * r / d) :: frac_digits f ((10 * r) mod d) d
  end.

(** [String(q)] in positional notation, with at most twenty fraction
    digits.  It is what the engine prints for an integer below 10^21 in
    magnitude and for a decimal of magnitude at least 10^-6 that a
    double holds with the digits it is written with; beyond, the engine
    rounds or switches to exponent notation, which is not followed
    here. *)
Definition chars_of_Q (q : Q) : list ascii :=
  let n := Qnum q in
  let d := Zpos (Qden q) in
  let a := Z.abs n in
  let sign := if n <? 0 then ["-"%char] else [] in
  match frac_digits 20 (a mod d) d with
  | [] => if a / d =? 0 then nat_digits 0 else sign ++ nat_digits (a / d)
  | fr => sign ++ nat_digits (a / d) ++ "."%char :: fr
  end.

(** [String(v)] *)
Fixpoint String_ (v : jsval) : string :=
  match v with
  | VUndef => "undefined"
  | VNull => "null"
  | VBool true => "true"
  | VBool false => "false"
  | VNum q => string_of_list_ascii (chars_of_Q q)
  | VNaN => "NaN"
  | VStr s => s
  | VArr l =>
      String.concat ","
        (map (fun x => if nullish x then "" else String_ x) l)
  | VObj _ => "[object Object]"
  end.

(** [toInt] of the source:
    [parseInt(String(v).trim(), 10)], [undefined] unless finite. *)
Definition toInt (v : jsval) : option Z := parseInt10 (trim (String_ v)).

(** The code resolution step used on raw payloads:
    [Number.parseInt(String(v || "").trim(), 10)]. *)
Definition parseCandidate (v : jsval) : option Z :=
  parseInt10 (trim (String_ (js_or v (VStr "")))).

(** Array spread [[...v]]: arrays and strings are iterable, anything
    else throws. *)
Definition array_spread (v : jsval) : result (list jsval) :=
  match v with
  | VArr l => Ok l
  | VStr s => Ok (map (fun c => VStr (String c EmptyString)) (list_ascii_of_string s))
  | _ => Throw TypeError
  end.

Definition indexed (l : list jsval) : obj :=
  list_to_map (imap (fun i x => (string_of_Z (Z.of_nat i), x)) l).

(** Object spread [{...v}]: own enumerable properties; arrays and
    strings contribute their indices, other primitives nothing. *)
Definition spread (v : jsval) : obj :=
  match v with
  | VObj m => m
  | VArr l => indexed l
  | VStr s => indexed (map (fun c => VStr (String c EmptyString)) (list_ascii_of_string s))
  | _ => ∅
  end.

(** [typeof v === "string"] *)
Definition is_string (v : jsval) : bool :=
  match v with VStr _ => true | _ => false end.

(* ================================================================== *)
(** ** The platform *)
(* ================================================================== *)

(** What the file takes from the JavaScript engine and from the module
    [@/utils/timezone], whose code is not part of the sources at hand.
    Instants are epoch milliseconds ([Date.getTime()]); a function that
    returns a [Date] returns [None] where the source gets [null] or an
    invalid date.
    - [StringToNumber s] is [Number(s)] on a string;
    - [DateParse s] is [new Date(s)];
    - [parseChileDateString], [startOfChileDay] and [addChileDays] are
      the imports from [@/utils/timezone];
    - [formatChileDateTimeISO t] is the function of that name in the
      source, which prints through [Intl.DateTimeFormat] and
      [getTimeZoneOffsetMinutes]. *)
Record Platform := {
  StringToNumber : string → option Q;
  DateParse : string → option Z;
  parseChileDateString : jsval → option Z;
  startOfChileDay : Z → option Z;
  addChileDays : Z → Z → option Z;
  formatChileDateTimeISO : Z → string;
}.

(** A small platform to run the model on concrete inputs.  Its clock is
    UTC; it reads a timestamp written either as epoch milliseconds or as
    [YYYY-MM-DDTHH:MM:SS+HH:MM] with every field in range, a date as
    [YYYY-MM-DD], and it prints a timestamp as its epoch milliseconds. *)
Definition ms_per_day : Z := 86400000.

Definition days_from_civil (y m d : Z) : Z :=
  let y' := if m <=? 2 then y - 1 else y in
  let era := y' / 400 in
  let yoe := y' - era * 400 in
  let mp := (m + 9) mod 12 in
  let doy := (153 * mp + 2) / 5 + d - 1 in
  let doe := yoe * 365 + yoe / 4 - yoe / 100 + doy in
  era * 146097 + doe - 719468.

Definition field (l : list ascii) (i n : nat) : option Z :=
  let ds := take n (drop i l) in
  if forallb is_digit ds && (length ds =? n)%nat then Some (digits_value ds) else None.

Definition char_at (l : list ascii) (i : nat) (c : ascii) : bool :=
  match l !! i with Some x => Ascii.eqb x c | None => false end.

Definition demo_parse_date (l : list ascii) : option Z :=
  if char_at l 4 "-" && char_at l 7 "-" then
    y ← field l 0 4; m ← field l 5 2; d ← field l 8 2;
    if (1 <=? m) && (m <=? 12) && (1 <=? d) && (d <=? 31)
    then Some (days_from_civil y m d * ms_per_day) else None
  else None.

Definition demo_parse_iso (l : list ascii) : option Z :=
  if (length l =? 25)%nat && char_at l 10 "T" && char_at l 13 ":" && char_at l 16 ":"
     && (char_at l 19 "+" || char_at l 19 "-") && char_at l 22 ":" then
    day ← demo_parse_date (take 10 l);
    h ← field l 11 2; mi ← field l 14 2; s ← field l 17 2;
    oh ← field l 20 2; om ← field l 23 2;
    if (h <=? 23) && (mi <=? 59) && (s <=? 59) && (oh <=? 23) && (om <=? 59)
    then
      let offset := (oh * 60 + om) * 60000 in
      Some (day + ((h * 60 + mi) * 60 + s) * 1000
            - (if char_at l 19 "-" then - offset else offset))
    else None
  else None.

Definition demo_DateParse (s : string) : option Z :=
  let l := list_ascii_of_string s in
  if forallb is_digit l && negb (length l =? 0)%nat then Some (digits_value l)
  else demo_parse_iso l.

(** [Number(s)] on decimal literals, read exactly: white space around,
    an optional sign, digits with an optional fraction; the empty
    string is 0, anything else is [NaN]. *)
Definition demo_StringToNumber (s : string) : option Q :=
  match trim_chars (list_ascii_of_string s) with
  | [] => Some (inject_Z 0)
  | l =>
      let '(neg, l) :=
        match l with
        | "-"%char :: tl => (true, tl)
        | "+"%char :: tl => (false, tl)
        | _ => (false, l)
        end in
      let '(ip, rest) := span_digits l in
      let signed (n : Z) (d : positive) : option Q :=
        Some (Qred ((if neg then - n else n) # d)) in
      match ip, rest with
      | _ :: _, [] => signed (digits_value ip) 1%positive
      | _, "."%char :: fr =>
          match span_digits fr with
          | (fp, []) =>
              if bool_decide (ip = [] ∧ fp = []) then None
              else signed (digits_value (ip ++ fp)) (Z.to_pos (10 ^ Z.of_nat (length fp)))
          | _ => None
          end
      | _, _ => None
      end
  end.

Definition demo_platform : Platform := {|
  StringToNumber := demo_StringToNumber;
  DateParse := demo_DateParse;
  parseChileDateString v :=
    match v with
    | VStr s =>
        let l := list_ascii_of_string s in
        if (length l =? 10)%nat then demo_parse_date l else None
    | _ => None
    end;
  startOfChileDay t := Some (t / ms_per_day * ms_per_day);
  addChileDays t n := Some (t + n * ms_per_day);
  formatChileDateTimeISO t := string_of_Z t;
|}.

(* ================================================================== *)
(** ** The store and its monad *)
(* ================================================================== *)

(** A table keyed by an integer primary key.  The meta tables are keyed
    by [version] and hold the [changeLog] of each version; the versions
    of a store of the model are integers. *)
Record Store := {
  users : gmap Z obj;
  usersMeta : gmap Z jsval;
  orders : gmap Z obj;
  ordersMeta : gmap Z jsval;
}.

(** The world of a call: the database, and the fault the storage engine
    is going to raise, if any: [Some n] rejects the write that comes
    after [n] successful ones. *)
Record World := {
  db : Store;
  fault : option nat;
}.

Definition M (A : Type) : Type := World → result A * World.

Definition ret {A} (a : A) : M A := fun w => (Ok a, w).

Definition bind {A B} (m : M A) (k : A → M B) : M B :=
  fun w =>
    match m w with
    | (Ok a, w') => k a w'
    | (Throw e, w') => (Throw e, w')
    end.

Notation "'let*' x ':=' m 'in' k" := (bind m (fun x => k))
  (at level 10, x pattern, m at level 100, k at level 200).
Notation "m ';;' k" := (bind m (fun _ => k))
  (at level 100, k at level 200, right associativity).

Definition throw {A} (e : exn) : M A := fun w => (Throw e, w).

Definition lift {A} (r : result A) : M A := fun w => (r, w).

(** A read of the database; reads do not fail. *)
Definition read {A} (f : Store → A) : M A := fun w => (Ok (f (db w)), w).

(** A write request: the storage engine either rejects it (the pending
    fault) or applies it; the request itself can be invalid. *)
Definition write (f : Store → result Store) : M unit :=
  fun w =>
    match fault w with
    | Some O => (Throw StorageFault, {| db := db w; fault := None |})
    | ft =>
        let ft' := match ft with Some (S n) => Some n | _ => None end in
        match f (db w) with
        | Ok s' => (Ok tt, {| db := s'; fault := ft' |})
        | Throw e => (Throw e, {| db := db w; fault := ft' |})
        end
    end.

(** [db.transaction("rw", tables, body)]: the writes of [body] are
    committed when it returns, and undone when it throws. *)
Definition transaction {A} (body : M A) : M A :=
  fun w =>
    match body w with
    | (Ok a, w') => (Ok a, w')
    | (Throw e, w') => (Throw e, {| db := db w; fault := fault w' |})
    end.

(** [try { body } catch {}] *)
Definition try_ {A} (body : M A) : M unit :=
  fun w =>
    match body w with
    | (Ok _, w') => (Ok tt, w')
    | (Throw _, w') => (Ok tt, w')
    end.

Definition result_bind {A B} (r : result A) (k : A → result B) : result B :=
  match r with Ok a => k a | Throw e => Throw e end.

Notation "'let+' x ':=' r 'in' k" := (result_bind r (fun x => k))
  (at level 10, x pattern, r at level 100, k at level 200).

(* ------------------------------------------------------------------ *)
(** *** Tables *)

(** The primary key a record is stored under: the value at its key path
    [code].  Every writer of the file stores [toInt] or [parseInt] of a
    code there, an integer or [undefined]; a record without an integer
    code is refused. *)
Definition key_of (v : jsval) : option Z :=
  match v with
  | VNum q =>
      if Qnum q mod Zpos (Qden q) =? 0 then Some (Qnum q / Zpos (Qden q)) else None
  | _ => None
  end.

(** [table.put(record)] *)
Definition table_put (record : obj) (t : gmap Z obj) : result (gmap Z obj) :=
  match key_of (oget "code" (VObj record)) with
  | Some k => Ok (<[k := record]> t)
  | None => Throw DataError
  end.

(** [table.bulkPut(records)] *)
Fixpoint table_bulkPut (records : list obj) (t : gmap Z obj) : result (gmap Z obj) :=
  match records with
  | [] => Ok t
  | r :: rs => let+ t' := table_put r t in table_bulkPut rs t'
  end.

(** [table.add(record)]: like [put], but the key must be free. *)
Definition table_add (record : obj) (t : gmap Z obj) : result (gmap Z obj) :=
  match key_of (oget "code" (VObj record)) with
  | Some k => if t !! k is Some _ then Throw DataError else Ok (<[k := record]> t)
  | None => Throw DataError
  end.

(** [table.bulkDelete(keys)] *)
Definition table_bulkDelete (keys : list Z) (t : gmap Z obj) : gmap Z obj :=
  foldr delete t keys.

(** [table.toArray()] *)
Definition toArray (t : gmap Z obj) : list obj := (map_to_list t).*2.

Definition set_users (f : gmap Z obj → result (gmap Z obj)) (s : Store) : result Store :=
  let+ t := f (users s) in
  Ok {| users := t; usersMeta := usersMeta s; orders := orders s; ordersMeta := ordersMeta s |}.

Definition set_orders (f : gmap Z obj → result (gmap Z obj)) (s : Store) : result Store :=
  let+ t := f (orders s) in
  Ok {| users := users s; usersMeta := usersMeta s; orders := t; ordersMeta := ordersMeta s |}.

Definition put_usersMeta (version : Z) (changeLog : jsval) (s : Store) : result Store :=
  Ok {| users := users s; usersMeta := <[version := changeLog]> (usersMeta s);
        orders := orders s; ordersMeta := ordersMeta s |}.

Definition put_ordersMeta (version : Z) (changeLog : jsval) (s : Store) : result Store :=
  Ok {| users := users s; usersMeta := usersMeta s;
        orders := orders s; ordersMeta := <[version := changeLog]> (ordersMeta s) |}.

(** [meta.orderBy("version").last()]: the record of the highest
    version, if there is one. *)
Definition meta_last (m : gmap Z jsval) : option (Z * jsval) :=
  map_fold
    (fun k v acc =>
       match acc with
       | Some (k', _) => if k' <? k then Some (k, v) else acc
       | None => Some (k, v)
       end)
    None m.

(** The meta version a caller observes ([getUsersMeta()?.version || 0]). *)
Definition meta_version (m : gmap Z jsval) : Z :=
  match meta_last m with Some (v, _) => v | None => 0 end.

(* ================================================================== *)
(** ** Pure helpers of the source *)
(* ================================================================== *)

Section Model.
Context (P : Platform).

(** [Number(v)] *)
Definition Number_ (v : jsval) : option Q :=
  match v with
  | VUndef | VNaN | VObj _ => None
  | VNull => Some (inject_Z 0)
  | VBool b => Some (inject_Z (if b then 1 else 0))
  | VNum q => Some q
  | VStr s => StringToNumber P s
  | VArr _ => StringToNumber P (String_ v)
  end.

(** [n === z] for a number [n] and an integer literal [z]. *)
Definition num_is (n : option Q) (z : Z) : bool :=
  match n with
  | Some q => Qeq_bool q (inject_Z z)
  | None => false
  end.

(** [Array.prototype.every] and [some]: left to right, stopping at the
    first element that decides, and letting a throw of the callback
    through. *)
Fixpoint every (f : jsval → result bool) (l : list jsval) : result bool :=
  match l with
  | [] => Ok true
  | x :: tl => let+ b := f x in if b then every f tl else Ok false
  end.

Fixpoint some (f : jsval → result bool) (l : list jsval) : result bool :=
  match l with
  | [] => Ok false
  | x :: tl => let+ b := f x in if b then Ok true else some f tl
  end.

Definition calculateOrderStatus (tasks : jsval) : result Z :=
  match tasks with
  | VArr l =>
      let+ allCompleted :=
        every (fun t => let+ s := pget "status" t in Ok (num_is (Number_ s) 2)) l in
      if allCompleted then Ok 2
      else
        let+ hasInProgress :=
          some (fun t =>
                  let+ s := pget "status" t in
                  Ok (num_is (Number_ s) 1 || num_is (Number_ s) 2)) l in
        if hasInProgress then Ok 1 else Ok 0
  | _ => Ok 0
  end.

(* ------------------------------------------------------------------ *)
(** *** Dates *)

Definition is_sign (c : ascii) : bool :=
  (Ascii.eqb c "+" || Ascii.eqb c "-")%char.

(** A match of [/([+-]\d{2}):([0-9]+)(\.[0-9]+)/] at the head of [l]:
    the hour part, the minute digits, the digits after the dot, and what
    follows the match.  The two digit runs are greedy, and since what
    must follow the first one is a dot, no shorter run can match. *)
Definition match_offset (l : list ascii)
  : option (list ascii * list ascii * list ascii * list ascii) :=
  match l with
  | s :: h1 :: h2 :: c :: tl =>
      if is_sign s && is_digit h1 && is_digit h2 && Ascii.eqb c ":"
      then
        match span_digits tl with
        | ((_ :: _) as mm, d :: tl') =>
            if Ascii.eqb d "."
            then
              match span_digits tl' with
              | ((_ :: _) as ff, rest) => Some ([s; h1; h2], mm, ff, rest)
              | _ => None
              end
            else None
        | _ => None
        end
      else None
  | _ => None
  end.

(** A match of [/[+-]\d{2}:[0-9]+\./] anywhere in [l]. *)
Fixpoint test_offset (l : list ascii) : bool :=
  match l with
  | [] => false
  | s :: tl =>
      match tl with
      | h1 :: h2 :: c :: tl' =>
          is_sign s && is_digit h1 && is_digit h2 && Ascii.eqb c ":"
          && match span_digits tl' with
             | (_ :: _, d :: _) => Ascii.eqb d "."
             | _ => false
             end
      | _ => false
      end
      || test_offset tl
  end.

(** [padNumber(value, 2)] on a non-negative integer. *)
Definition padNumber2 (n : Z) : list ascii :=
  let ds := nat_digits n in
  repeat "0"%char (2 - length ds) ++ ds.

(** [Math.trunc] *)
Definition Math_trunc (q : Q) : Z := Z.quot (Qnum q) (Zpos (Qden q)).

(** The minutes the replacement callback writes: the minute digits are
    read as a number together with the fraction, truncated, and clamped;
    were that number not finite, the minute digits alone would be read
    ([parseInt(minutePart, 10) || 0]).  [fractional] is the third group
    of the pattern without its dot. *)
Definition normalizedMinutes (minutePart fractional : list ascii) : Z :=
  match StringToNumber P
          (string_of_list_ascii (minutePart ++ "."%char :: fractional)) with
  | Some minutesFloat => Z.max 0 (Z.min 59 (Math_trunc minutesFloat))
  | None =>
      Z.max 0 (Z.min 59 (default 0 (parseInt10 (string_of_list_ascii minutePart))))
  end.

(** [value.replace(/([+-]\d{2}):([0-9]+)(\.[0-9]+)/g, callback)], matches
    taken from left to right without overlap. *)
Fixpoint replace_offsets (fuel : nat) (l : list ascii) : list ascii :=
  match fuel with
  | O => l
  | S f =>
      match l with
      | [] => []
      | c :: tl =>
          match match_offset l with
          | Some (hourPart, minutePart, fractional, rest) =>
              hourPart ++ ":"%char :: padNumber2 (normalizedMinutes minutePart fractional)
                ++ replace_offsets f rest
          | None => c :: replace_offsets f tl
          end
      end
  end.

Definition sanitize_string (s : string) : string :=
  let l := list_ascii_of_string s in
  if test_offset l then string_of_list_ascii (replace_offsets (length l) l)
  else s.

Definition sanitizeLegacyOffsetString (value : jsval) : jsval :=
  match value with
  | VStr s => VStr (sanitize_string s)
  | _ => value
  end.

(** The largest time value of a [Date]. *)
Definition max_time : Z := 8640000000000000.

(** [parseFlexibleDate]; the value type has no native [Date] objects, so
    the first test of the source is never met and is left out.  A
    number is a time value when it is within the range of [Date], and
    [new Date] drops its fraction. *)
Definition parseFlexibleDate (value : jsval) : option Z :=
  let fromNumber :=
    match value with
    | VNum q =>
        if Qle_bool (Qabs q) (inject_Z max_time) then Some (Math_trunc q) else None
    | _ => None
    end in
  match fromNumber with
  | Some t => Some t
  | None =>
      let fromString :=
        match value with
        | VStr s =>
            let trimmed := trim s in
            if String.eqb trimmed "" then None
            else
              let sanitized := sanitize_string trimmed in
              let attempts :=
                trimmed :: (if String.eqb sanitized trimmed then [] else [sanitized]) in
              list_find (fun r => is_Some r) (map (DateParse P) attempts)
                ≫= snd
        | _ => None
        end in
      match fromString with
      | Some t => Some t
      | None => parseChileDateString P (sanitizeLegacyOffsetString value)
      end
  end.

Definition nowISO (now : Z) : string := formatChileDateTimeISO P now.

Definition toISOOrNow (now : Z) (value : jsval) : string :=
  match parseFlexibleDate value with
  | Some parsed => formatChileDateTimeISO P parsed
  | None => nowISO now
  end.

(** [simpleHash]: a 32-bit polynomial hash, printed in hexadecimal. *)
Definition hex_char (d : Z) : ascii :=
  if d <? 10 then digit_char d else ascii_of_nat (Z.to_nat (87 + d)).

Fixpoint hex_digits (fuel : nat) (n : Z) (acc : list ascii) : list ascii :=
  let acc' := hex_char (n mod 16) :: acc in
  match fuel with
  | O => acc'
  | S f => if n <? 16 then acc' else hex_digits f (n / 16) acc'
  end.

(** The UTF-16 code units of a string, which [charCodeAt] reads: one
    unit for a character of one, two or three bytes, a surrogate pair
    for a character of four.  A byte that starts no character (the
    string then stands for no JavaScript string) is taken as the unit
    of its own value. *)
Definition continuation (c : ascii) : option Z :=
  let n := Z.of_nat (nat_of_ascii c) in
  if (128 <=? n) && (n <? 192) then Some (n - 128) else None.

Fixpoint code_units (l : list ascii) : list Z :=
  match l with
  | [] => []
  | c1 :: tl1 =>
      let b1 := Z.of_nat (nat_of_ascii c1) in
      let byte := b1 :: code_units tl1 in
      if b1 <? 192 then byte
      else
        match tl1 with
        | c2 :: tl2 =>
            match continuation c2 with
            | Some x2 =>
                if b1 <? 224 then ((b1 - 192) * 64 + x2) :: code_units tl2
                else
                  match tl2 with
                  | c3 :: tl3 =>
                      match continuation c3 with
                      | Some x3 =>
                          if b1 <? 240
                          then ((b1 - 224) * 4096 + x2 * 64 + x3) :: code_units tl3
                          else
                            match tl3 with
                            | c4 :: tl4 =>
                                match continuation c4 with
                                | Some x4 =>
                                    let cp :=
                                      (b1 - 240) * 262144 + x2 * 4096 + x3 * 64 + x4 in
                                    (55296 + (cp - 65536) / 1024)
                                      :: (56320 + (cp - 65536) mod 1024)
                                      :: code_units tl4
                                | None => byte
                                end
                            | [] => byte
                            end
                      | None => byte
                      end
                  | [] => byte
                  end
            | None => byte
            end
        | [] => byte
        end
  end.

Definition simpleHash (s : string) : string :=
  let h :=
    fold_left (fun h c => (h * 31 + c) mod 2 ^ 32)
      (code_units (list_ascii_of_string s)) 0 in
  string_of_list_ascii (hex_digits 8 h []).

(* ------------------------------------------------------------------ *)
(** *** Expiration window *)

Definition AUTO_EXPIRED_NOTE : string := "Anulada automaticamente por vencimiento".

Record ExpirationInfo := {
  startDate : Z;
  frequencyDays : Z;
  dueDate : Z;
  expirationDate : Z;
}.

Definition computeExpirationInfo (orderInfo : jsval) : option ExpirationInfo :=
  if negb (truthy orderInfo) then None
  else
    let startRaw := js_coalesce (oget "F inicial" orderInfo) (oget "F_inicial" orderInfo) in
    let frequencyRaw := js_coalesce (oget "Frec. Dias" orderInfo) (oget "FrecDias" orderInfo) in
    match parseChileDateString P startRaw, toInt frequencyRaw with
    | Some startDateRaw, Some frequencyDays =>
        match startOfChileDay P startDateRaw with
        | None => None
        | Some startDate =>
            match addChileDays P startDate frequencyDays with
            | None => None
            | Some dueDate =>
                match addChileDays P startDate (frequencyDays + 4) with
                | None => None
                | Some expirationDate =>
                    Some {| startDate := startDate; frequencyDays := frequencyDays;
                            dueDate := dueDate; expirationDate := expirationDate |}
                end
            end
        end
    | _, _ => None
    end.


(* ================================================================== *)
(** ** Meta versions and the expiration sweep *)
(* ================================================================== *)

(** The change log of the next version: a copy of the latest one, when
    it has one, with the new line pushed. *)
Definition next_changeLog (latest : option (Z * jsval)) (line : string)
  : result jsval :=
  let+ changeLog :=
    match latest with
    | Some (_, cl) => if truthy cl then array_spread cl else Ok []
    | None => Ok []
    end in
  Ok (VArr (changeLog ++ [VStr line])).

Definition next_version (latest : option (Z * jsval)) : Z :=
  match latest with Some (v, _) => v + 1 | None => 1 end.

Definition bumpUsersVersion (now : Z) (reason : string) : M Z :=
  let* latest := read (fun s => meta_last (usersMeta s)) in
  let nextVer := next_version latest in
  let* changeLog := lift (next_changeLog latest (nowISO now ++ " - " ++ reason)) in
  write (put_usersMeta nextVer changeLog) ;;
  ret nextVer.

Definition bumpOrdersVersion (now : Z) (reason : string) : M Z :=
  let* latest := read (fun s => meta_last (ordersMeta s)) in
  let nextVer := next_version latest in
  let* changeLog := lift (next_changeLog latest (nowISO now ++ " - " ++ reason)) in
  write (put_ordersMeta nextVer changeLog) ;;
  ret nextVer.

(** What one turn of the loop of [markOrdersExpired] decides for an
    order. *)
Inductive sweep_decision :=
| Untouched
| MarkExpired (updated : obj)
| Restored (updated : obj).

(** The [info] an order gets when the sweep marks it expired. *)
Definition expired_info (info : jsval) : obj :=
  let nextInfo := <["status" := VInt 4]> (spread (js_or info (VObj ∅))) in
  if negb (truthy (oget "obs_anulada" (VObj nextInfo)))
  then <["obs_anulada" := VStr AUTO_EXPIRED_NOTE]> nextInfo
  else nextInfo.

(** The [info] an order gets when the sweep takes the expiration back. *)
Definition restored_info (nextStatus : Z) (info : jsval) : obj :=
  let nextInfo := <["status" := VInt nextStatus]> (spread (js_or info (VObj ∅))) in
  match oget "obs_anulada" (VObj nextInfo) with
  | VStr s =>
      if String.eqb s AUTO_EXPIRED_NOTE
      then delete "obs_anulada" nextInfo else nextInfo
  | _ => nextInfo
  end.

Definition sweep_order (today : Z) (evaluateAll : bool) (codesSet : gset Z)
    (order : obj) : result sweep_decision :=
  match toInt (oget "code" (VObj order)) with
  | None => Ok Untouched
  | Some code =>
      let info := oget "info" (VObj order) in
      let status := Number_ (oget "status" info) in
      if num_is status 2 then Ok Untouched
      else
        let shouldEvaluate :=
          evaluateAll || bool_decide (code ∈ codesSet) || num_is status 4 in
        if negb shouldEvaluate then Ok Untouched
        else
          let expired :=
            match computeExpirationInfo (js_or info VNull) with
            | Some expirationInfo => expirationDate expirationInfo <? today
            | None => false
            end in
          if expired then
            if negb (num_is status 4)
            then Ok (MarkExpired (<["info" := VObj (expired_info info)]> order))
            else Ok Untouched
          else if num_is status 4 then
            let+ nextStatus :=
              calculateOrderStatus (oget "data" (oget "tasks" (VObj order))) in
            Ok (Restored (<["info" := VObj (restored_info nextStatus info)]> order))
          else Ok Untouched
  end.

(** The loop over [allOrders]: the updates in the order they are pushed,
    and the two counters. *)
Fixpoint sweep_loop (today : Z) (evaluateAll : bool) (codesSet : gset Z)
    (allOrders : list obj) (updates : list obj) (expiredMarked restored : Z)
  : result (list obj * Z * Z) :=
  match allOrders with
  | [] => Ok (updates, expiredMarked, restored)
  | order :: rest =>
      let+ d := sweep_order today evaluateAll codesSet order in
      match d with
      | Untouched =>
          sweep_loop today evaluateAll codesSet rest updates expiredMarked restored
      | MarkExpired o =>
          sweep_loop today evaluateAll codesSet rest (updates ++ [o])
            (expiredMarked + 1) restored
      | Restored o =>
          sweep_loop today evaluateAll codesSet rest (updates ++ [o])
            expiredMarked (restored + 1)
      end
  end.

(** The set of codes a caller names: the entries of [orderCodes] that
    [toInt] reads, when [orderCodes] is an array. *)
Definition codes_set (orderCodes : jsval) : gset Z :=
  match orderCodes with
  | VArr l => list_to_set (omap toInt l)
  | _ => ∅
  end.

Definition sweep_counts (expiredMarked restored : Z) : jsval :=
  VObj (<["expiredMarked" := VInt expiredMarked]> (<["restored" := VInt restored]> ∅)).

(** [markOrdersExpired(orderCodes, { skipInit: true })] on an open
    database: the function after its initialisation step. *)
Definition markOrdersExpired_skipInit (now : Z) (orderCodes : jsval) : M jsval :=
  let codesSet := codes_set orderCodes in
  let evaluateAll := bool_decide (size codesSet = 0%nat) in
  let* allOrders := read (fun s => toArray (orders s)) in
  if bool_decide (allOrders = []) then ret (sweep_counts 0 0)
  else
    match startOfChileDay P now with
    | None => ret (sweep_counts 0 0)
    | Some today =>
        let* r := lift (sweep_loop today evaluateAll codesSet allOrders [] 0 0) in
        let '(updates, expiredMarked, restored) := r in
        match updates with
        | [] => ret (sweep_counts expiredMarked restored)
        | _ :: _ =>
            transaction
              (write (set_orders (table_bulkPut updates)) ;;
               bumpOrdersVersion now
                 ("revalidate expired orders (marked " ++ string_of_Z expiredMarked
                    ++ ", restored " ++ string_of_Z restored ++ ")")) ;;
            ret (sweep_counts expiredMarked restored)
        end
    end.

(** [initAPIDB]: [ensurePersistentStorage] and [db.open()] do not touch
    the tables; then each meta table is seeded when it is empty, and the
    expiration sweep runs, its failure being caught.  Opening the
    database and reading from it are taken to succeed: of what the
    storage engine may do, only a write that it rejects is followed. *)
Definition initAPIDB (now : Z) : M unit :=
  let* n := read (fun s => size (usersMeta s)) in
  (if bool_decide (n = 0%nat)
   then write (put_usersMeta 1 (VArr [VStr (nowISO now ++ " - init users meta v1")]))
   else ret tt) ;;
  let* n := read (fun s => size (ordersMeta s)) in
  (if bool_decide (n = 0%nat)
   then write (put_ordersMeta 1 (VArr [VStr (nowISO now ++ " - init orders meta v1")]))
   else ret tt) ;;
  try_ (markOrdersExpired_skipInit now VUndef).

Definition markOrdersExpired (now : Z) (orderCodes : jsval) (skipInit : bool) : M jsval :=
  (if skipInit then ret tt else initAPIDB now) ;;
  markOrdersExpired_skipInit now orderCodes.

(* ================================================================== *)
(** ** Users *)
(* ================================================================== *)

(** A destructured parameter with a default value. *)
Definition with_default (d v : jsval) : jsval :=
  match v with VUndef => d | _ => v end.

Definition getUsersMeta_version (s : Store) : Z := meta_version (usersMeta s).
Definition getOrdersMeta_version (s : Store) : Z := meta_version (ordersMeta s).

(** [getUsersMeta] and [getOrdersMeta] are exported functions: they go
    through [initAPIDB] themselves before they read the record of the
    highest version. *)
Definition getUsersMeta (now : Z) : M (option (Z * jsval)) :=
  initAPIDB now ;; read (fun s => meta_last (usersMeta s)).

Definition getOrdersMeta (now : Z) : M (option (Z * jsval)) :=
  initAPIDB now ;; read (fun s => meta_last (ordersMeta s)).

(** [meta?.version || 0] on what a getter returned. *)
Definition version_or_0 (meta : option (Z * jsval)) : Z :=
  match meta with Some (version, _) => version | None => 0 end.

Definition addUser (now : Z) (fields : jsval) : M jsval :=
  if nullish fields then throw TypeError
  else
    let code := oget "code" fields in
    let name := oget "name" fields in
    let role := oget "role" fields in
    let speciality := with_default VNull (oget "speciality" fields) in
    let active := with_default (VBool true) (oget "active" fields) in
    let password := oget "password" fields in
    let signature := with_default VNull (oget "signature" fields) in
    initAPIDB now ;;
    match toInt code with
    | None => throw (Error "El código debe ser un número entero válido.")
    | Some numericCode =>
        let trimmedName := trim (String_ (js_coalesce name (VStr ""))) in
        if String.eqb trimmedName "" then throw (Error "El nombre es obligatorio.")
        else
          let normalizedRole := trim (String_ (js_coalesce role (VStr ""))) in
          if String.eqb normalizedRole "" then throw (Error "El rol es obligatorio.")
          else
            let requiresSpeciality :=
              String.eqb normalizedRole "supervisor"
              || String.eqb normalizedRole "mantenedor" in
            let specialityValue := toInt speciality in
            if requiresSpeciality && negb (bool_decide (is_Some specialityValue))
            then throw (Error "Selecciona una especialidad válida.")
            else
              let passwordHash :=
                match password with
                | VStr p => if String.eqb p "" then None else Some (simpleHash p)
                | _ => None
                end in
              transaction
                (let* exists_ := read (fun s => users s !! numericCode) in
                 match exists_ with
                 | Some _ => throw (Error "Ya existe un usuario con ese código.")
                 | None =>
                     let timestamp := nowISO now in
                     let record : obj :=
                       <["code" := VInt numericCode]>
                       (<["name" := VStr trimmedName]>
                       (<["role" := VStr normalizedRole]>
                       (<["speciality" :=
                            match specialityValue with
                            | Some sv => if requiresSpeciality then VInt sv else VNull
                            | None => VNull
                            end]>
                       (<["active" := VBool (truthy active)]>
                       (<["signature" := js_coalesce signature VNull]>
                       (<["createdAt" := VStr timestamp]>
                       (<["updatedAt" := VStr timestamp]>
                       (match passwordHash with
                        | Some h => {["passwordHash" := VStr h]}
                        | None => ∅
                        end)))))))) in
                     write (set_users (table_add record)) ;;
                     bumpUsersVersion now ("add user " ++ string_of_Z numericCode) ;;
                     ret tt
                 end) ;;
              ret VUndef
    end.

(** [Object.prototype.hasOwnProperty.call(patch, k)] for the keys the
    source asks about (none of them an index or [length]). *)
Definition hasOwn (k : string) (patch : jsval) : result bool :=
  match patch with
  | VUndef | VNull => Throw TypeError
  | VObj m => Ok (bool_decide (is_Some (m !! k)))
  | _ => Ok false
  end.

Definition updateUser (now : Z) (code patch : jsval) : M jsval :=
  let patch := with_default (VObj ∅) patch in
  initAPIDB now ;;
  match toInt code with
  | None => throw (Error "El código debe ser un número entero válido.")
  | Some numericCode =>
      let* existing := read (fun s => users s !! numericCode) in
      match existing with
      | None => throw (Error "El usuario especificado no existe.")
      | Some existing =>
          let next := existing in
          let* hasName := lift (hasOwn "name" patch) in
          let nameValue :=
            trim (String_ (js_coalesce
                             (if hasName then oget "name" patch
                              else oget "name" (VObj existing)) (VStr ""))) in
          if String.eqb nameValue "" then throw (Error "El nombre es obligatorio.")
          else
          let next := <["name" := VStr nameValue]> next in
          let* hasRole := lift (hasOwn "role" patch) in
          let roleValue :=
            trim (String_ (js_coalesce
                             (if hasRole then oget "role" patch
                              else oget "role" (VObj existing)) (VStr ""))) in
          if String.eqb roleValue "" then throw (Error "El rol es obligatorio.")
          else
          let next := <["role" := VStr roleValue]> next in
          let requiresSpeciality :=
            String.eqb roleValue "supervisor" || String.eqb roleValue "mantenedor" in
          let* hasSpeciality := lift (hasOwn "speciality" patch) in
          let* next :=
            if hasSpeciality then
              match toInt (oget "speciality" patch) with
              | Some parsedSpeciality =>
                  ret (<["speciality" := VInt parsedSpeciality]> next)
              | None =>
                  if requiresSpeciality
                  then throw (Error "Selecciona una especialidad válida.")
                  else ret (<["speciality" := VNull]> next)
              end
            else if requiresSpeciality then
              match toInt (oget "speciality" (VObj next)) with
              | Some currentSpeciality =>
                  ret (<["speciality" := VInt currentSpeciality]> next)
              | None => throw (Error "Selecciona una especialidad válida.")
              end
            else ret (<["speciality" := VNull]> next) in
          let* hasActive := lift (hasOwn "active" patch) in
          let next :=
            if hasActive then <["active" := VBool (truthy (oget "active" patch))]> next
            else next in
          let* hasSignature := lift (hasOwn "signature" patch) in
          let next :=
            if hasSignature
            then <["signature" := js_coalesce (oget "signature" patch) VNull]> next
            else next in
          let* hasPassword := lift (hasOwn "password" patch) in
          let next :=
            if hasPassword then
              match oget "password" patch with
              | VStr p =>
                  if String.eqb (trim p) "" then next
                  else <["passwordHash" := VStr (simpleHash (trim p))]> next
              | _ => next
              end
            else next in
          let next :=
            <["updatedAt" := js_coalesce (oget "updatedAt" patch) (VStr (nowISO now))]> next in
          transaction
            (write (set_users (table_put next)) ;;
             bumpUsersVersion now ("update user " ++ string_of_Z numericCode)) ;;
          ret VUndef
      end
  end.

Definition deleteUser (now : Z) (code : jsval) : M jsval :=
  initAPIDB now ;;
  let c := toInt code in
  transaction
    (write (set_users (fun t =>
              match c with
              | Some k => Ok (delete k t)
              | None => Throw DataError
              end)) ;;
     bumpUsersVersion now
       ("delete user " ++ match c with Some k => string_of_Z k | None => "undefined" end)) ;;
  ret VUndef.

(* ================================================================== *)
(** ** Orders *)
(* ================================================================== *)

(** The candidate fields a code is resolved from, in the order they are
    tried.  Reading [o.code] throws when [o] is [null] or [undefined]. *)
Definition code_candidates (o : jsval) : result (list jsval) :=
  let+ code := pget "code" o in
  let+ id := pget "id" o in
  Ok [code; oget "Numero orden" (oget "info" o); oget "Numero orden" o;
      oget "Numero" o; id].

Definition resolve_code (o : jsval) : result (option Z) :=
  let+ vals := code_candidates o in
  Ok (head (omap parseCandidate vals)).

(** The callback of [orders.map] in [bulkUpsertOrders]; [None] is the
    [null] that [filter(Boolean)] drops. *)
Definition canonical_order (o : jsval) : result (option obj) :=
  let+ n := resolve_code o in
  match n with
  | None => Ok None
  | Some n =>
      let normalized := <["code" := VInt n]> (spread o) in
      let data := oget "data" (oget "tasks" (VObj normalized)) in
      if truthy data then
        let+ status := calculateOrderStatus data in
        Ok (Some (<["info" :=
                      VObj (<["status" := VInt status]>
                              (spread (js_or (oget "info" (VObj normalized)) (VObj ∅))))]>
                    normalized))
      else Ok (Some normalized)
  end.

(** [l.map(f).filter(Boolean)] for a callback that can throw. *)
Fixpoint map_filter {A} (f : jsval → result (option A)) (l : list jsval)
  : result (list A) :=
  match l with
  | [] => Ok []
  | x :: tl =>
      let+ y := f x in
      let+ ys := map_filter f tl in
      Ok (match y with Some y => y :: ys | None => ys end)
  end.

Definition bulkUpsertOrders (now : Z) (orders_ : jsval) : M jsval :=
  initAPIDB now ;;
  match orders_ with
  | VArr l =>
      let* canon := lift (map_filter canonical_order l) in
      (match canon with
       | [] => ret tt
       | _ :: _ => write (set_orders (table_bulkPut canon))
       end) ;;
      bumpOrdersVersion now
        ("bulk upsert orders (" ++ string_of_Z (Z.of_nat (length l)) ++ ")") ;;
      ret (VInt (Z.of_nat (length l)))
  | _ => ret (VInt 0)
  end.

Definition cancelOrder (now : Z) (orderCode reason detail : jsval) : M jsval :=
  initAPIDB now ;;
  match toInt orderCode with
  | None => throw (Error "order code must be numeric")
  | Some code =>
      let* order := read (fun s => orders s !! code) in
      match order with
      | None => throw (Error "order not found")
      | Some order =>
          let sanitizedReason := match reason with VStr s => trim s | _ => "" end in
          let sanitizedDetail := match detail with VStr s => trim s | _ => "" end in
          if String.eqb sanitizedReason "" then throw (Error "cancellation reason required")
          else if String.eqb sanitizedDetail "" then throw (Error "cancellation detail required")
          else
            let obsAnulada := VArr [VStr sanitizedReason; VStr sanitizedDetail] in
            let updatedOrder : obj :=
              <["info" :=
                 VObj (<["obs_anulada" := obsAnulada]>
                         (<["status" := VInt 3]>
                            (spread (js_or (oget "info" (VObj order)) (VObj ∅)))))]>
                order in
            transaction
              (write (set_orders (table_put updatedOrder)) ;;
               bumpOrdersVersion now ("cancel order " ++ string_of_Z code)) ;;
            ret (VObj updatedOrder)
      end
  end.

Definition saveOrderChecklist (now : Z) (orderCode checklistData : jsval) : M jsval :=
  initAPIDB now ;;
  match toInt orderCode with
  | None => throw (Error "order code must be numeric")
  | Some code =>
      let* order := read (fun s => orders s !! code) in
      match order with
      | None => throw (Error "order not found")
      | Some order =>
          let nextInfo :=
            <["checkListDict" := checklistData]>
              (spread (js_or (oget "info" (VObj order)) (VObj ∅))) in
          let updatedOrder : obj := <["info" := VObj nextInfo]> order in
          transaction
            (write (set_orders (table_put updatedOrder)) ;;
             bumpOrdersVersion now ("save checklist order " ++ string_of_Z code)) ;;
          ret (VObj updatedOrder)
      end
  end.

(* ------------------------------------------------------------------ *)
(** *** Task transitions *)

(** [taskList.map((task, i) => (i === idx ? nextTask : { ...task }))] *)
Definition replace_task (idx : nat) (nextTask : obj) (taskList : list jsval)
  : list jsval :=
  imap (fun i task => if bool_decide (i = idx) then VObj nextTask else VObj (spread task))
    taskList.

(** The task an index designates: [taskList[idx]] when [order.tasks.data]
    is an array and the element is truthy. *)
Definition find_task (order : obj) (idx : Z) : option (list jsval * jsval) :=
  match oget "data" (oget "tasks" (VObj order)) with
  | VArr taskList =>
      match taskList !! Z.to_nat idx with
      | Some t => if truthy t then Some (taskList, t) else None
      | None => None
      end
  | _ => None
  end.

Definition with_tasks (order : obj) (updatedTasks : list jsval) : obj :=
  <["tasks" :=
     VObj (<["data" := VArr updatedTasks]>
             (spread (js_or (oget "tasks" (VObj order)) (VObj ∅))))]> order.

Definition task_result (updatedOrder nextTask : obj) (idx : Z) : jsval :=
  VObj (<["order" := VObj updatedOrder]>
       (<["task" := VObj nextTask]>
       (<["index" := VInt idx]> ∅))).

(** The task [startOrderTask] writes in place of [prevTask]. *)
Definition started_task (now : Z) (prevTask : jsval) : obj :=
  let startAt := js_or (oget "init_task" prevTask) (VStr (nowISO now)) in
  <["status" :=
     match oget "status" prevTask with
     | VNum q => if Qle_bool q 0 then VInt 1 else VNum q
     | _ => VInt 1
     end]>
  (<["accepted_at" :=
      VStr (if truthy (oget "accepted_at" prevTask)
            then toISOOrNow now (oget "accepted_at" prevTask)
            else toISOOrNow now startAt)]>
  (<["init_task" := VStr (toISOOrNow now startAt)]> (spread prevTask))).

(** The order [startOrderTask] writes: the new tasks, the status
    derived from them, and [fecha_inicio] set when it was not. *)
Definition started_order (now : Z) (order nextTask : obj) (updatedTasks : list jsval)
    (status : Z) : obj :=
  let updatedOrder := with_tasks order updatedTasks in
  let fecha_inicio := oget "fecha_inicio" (oget "info" (VObj order)) in
  <["info" :=
     VObj (<["fecha_inicio" :=
              if truthy fecha_inicio
              then VStr (toISOOrNow now fecha_inicio)
              else oget "init_task" (VObj nextTask)]>
          (<["status" := VInt status]>
             (spread (js_or (oget "info" (VObj updatedOrder)) (VObj ∅)))))]>
    updatedOrder.

Definition startOrderTask (now : Z) (orderCode taskIndex : jsval) : M jsval :=
  initAPIDB now ;;
  match toInt orderCode with
  | None => throw (Error "order code must be numeric")
  | Some code =>
      match parseInt10 (String_ taskIndex) with
      | None => throw (Error "task index must be a non-negative integer")
      | Some idx =>
          if idx <? 0 then throw (Error "task index must be a non-negative integer")
          else
            let* order := read (fun s => orders s !! code) in
            match order with
            | None => throw (Error "order not found")
            | Some order =>
                match find_task order idx with
                | None => throw (Error "task not found")
                | Some (taskList, prevTask) =>
                    let nextTask := started_task now prevTask in
                    let updatedTasks := replace_task (Z.to_nat idx) nextTask taskList in
                    let* status := lift (calculateOrderStatus (VArr updatedTasks)) in
                    let updatedOrder :=
                      started_order now order nextTask updatedTasks status in
                    transaction
                      (write (set_orders (table_put updatedOrder)) ;;
                       bumpOrdersVersion now
                         ("start task " ++ string_of_Z (idx + 1) ++ " order "
                            ++ string_of_Z code)) ;;
                    ret (task_result updatedOrder nextTask idx)
                end
            end
      end
  end.

(** The first candidate that [parseFlexibleDate] accepts:
    [candidates.map(parseFlexibleDate).find((parsed) => parsed)]. *)
Definition first_parsed (candidates : list jsval) : option Z :=
  head (omap parseFlexibleDate candidates).

(** The start [duration_seconds] is counted from: the task's
    [init_task], else the order's [fecha_inicio], else the completion
    timestamp read back as a date ([None] when that date is invalid). *)
Definition duration_start (timestamp : string) (init_task fecha_inicio : jsval)
  : option Z :=
  match parseFlexibleDate init_task with
  | Some t => Some t
  | None =>
      match parseFlexibleDate fecha_inicio with
      | Some t => Some t
      | None => DateParse P timestamp
      end
  end.

(** Its end: the completion timestamp, else the clock. *)
Definition duration_end (now : Z) (timestamp : string) : Z :=
  default now (parseFlexibleDate (VStr timestamp)).

(** [duration_seconds] of a completed task:
    [Math.max(0, Math.floor(diffMs / 1000))], which is [NaN] when the
    start is an invalid date. *)
Definition duration_seconds (now : Z) (timestamp : string) (init_task fecha_inicio : jsval)
  : jsval :=
  match duration_start timestamp init_task fecha_inicio with
  | Some start => VInt (Z.max 0 ((duration_end now timestamp - start) / 1000))
  | None => VNaN
  end.

(** [Number((diffMs / 3600000).toFixed(2))] for [diffMs > 0].  The
    quotient is taken exactly; where it lies half-way between two
    hundredths, the double-precision quotient of the source may fall on
    either side, and the model rounds up. *)
Definition hours_2dec (diffMs : Z) : Q := Qred ((diffMs + 18000) / 36000 # 100).

(** The start and the end [hs_reales] is counted between: the first
    candidate of each list that parses. *)
Definition hs_start (order : obj) (prevTask : jsval) : option Z :=
  let info := oget "info" (VObj order) in
  let firstStarted :=
    match oget "data" (oget "tasks" (VObj order)) with
    | VArr l =>
        match list_find (fun task => truthy (oget "init_task" task) = true) l with
        | Some (_, task) => oget "init_task" task
        | None => VUndef
        end
    | _ => VUndef
    end in
  first_parsed
    [oget "fecha_inicio" info; oget "fecha_inicio" info;
     oget "init_task" prevTask; firstStarted].

Definition hs_end (timestamp : string) (order : obj) : option Z :=
  first_parsed [VStr timestamp; oget "fecha_fin" (oget "info" (VObj order))].

(** [info.hs_reales] of an order one of whose tasks completes. *)
Definition hs_reales (timestamp : string) (order : obj) (prevTask : jsval) : Q :=
  match hs_start order prevTask, hs_end timestamp order with
  | Some startDate, Some endDate =>
      let diffMs := endDate - startDate in
      if diffMs <=? 0 then inject_Z 0 else hours_2dec diffMs
  | _, _ => inject_Z 0
  end.

(** [if (typeof v !== "undefined") m[k] = v] *)
Definition set_if_defined (k : string) (v : jsval) (m : obj) : obj :=
  match v with
  | VUndef => m
  | _ => <[k := v]> m
  end.

(** The task [completeOrderTask] writes in place of [prevTask]. *)
Definition completed_task (now : Z) (order : obj) (prevTask updates completed_by : jsval)
  : obj :=
  let timestamp := nowISO now in
  let info := oget "info" (VObj order) in
  let nextTask : obj :=
    <["accepted_at" := js_coalesce (oget "accepted_at" prevTask) (VStr timestamp)]>
    (<["accepted_protocol" := js_coalesce (oget "accepted" updates) (VBool true)]>
    (<["duration_seconds" :=
        duration_seconds now timestamp (oget "init_task" prevTask)
          (oget "fecha_inicio" info)]>
    (<["completed_at" := VStr timestamp]>
    (<["completed_by" :=
        js_coalesce completed_by
          (js_coalesce (oget "completed_by" prevTask)
             (js_coalesce (oget "asignado_a_code" info) VNull))]>
    (<["end_task" := VStr timestamp]>
    (<["status" := VInt 2]> (spread prevTask))))))) in
  let nextTask :=
    if is_string (oget "obs" updates)
    then <["obs_assigned_to" := oget "obs" updates]> nextTask
    else nextTask in
  let nextTask := set_if_defined "medicion_result" (oget "medicion" updates) nextTask in
  let nextTask := set_if_defined "medicion_range_from" (oget "rangoDesde" updates) nextTask in
  let nextTask := set_if_defined "medicion_range_to" (oget "rangoHasta" updates) nextTask in
  if truthy (oget "init_task" (VObj nextTask)) then nextTask
  else <["init_task" := VStr timestamp]> nextTask.

(** The order [completeOrderTask] writes. *)
Definition completed_order (now : Z) (order : obj) (prevTask : jsval)
    (updatedTasks : list jsval) (status : Z) : obj :=
  let timestamp := nowISO now in
  let updatedOrder := with_tasks order updatedTasks in
  <["info" :=
     VObj (<["hs_reales" := VNum (hs_reales timestamp order prevTask)]>
          (<["fecha_fin" := VStr timestamp]>
          (<["status" := VInt status]>
             (spread (js_or (oget "info" (VObj updatedOrder)) (VObj ∅))))))]>
    updatedOrder.

Definition completeOrderTask (now : Z) (orderCode taskIndex updates : jsval) : M jsval :=
  let updates := with_default (VObj ∅) updates in
  initAPIDB now ;;
  match toInt orderCode with
  | None => throw (Error "order code must be numeric")
  | Some code =>
      match parseInt10 (String_ taskIndex) with
      | None => throw (Error "task index must be a non-negative integer")
      | Some idx =>
          if idx <? 0 then throw (Error "task index must be a non-negative integer")
          else
            let* order := read (fun s => orders s !! code) in
            match order with
            | None => throw (Error "order not found")
            | Some order =>
                match find_task order idx with
                | None => throw (Error "task not found")
                | Some (taskList, prevTask) =>
                    let* completed_by := lift (pget "completed_by" updates) in
                    let nextTask :=
                      completed_task now order prevTask updates completed_by in
                    let updatedTasks := replace_task (Z.to_nat idx) nextTask taskList in
                    let* status := lift (calculateOrderStatus (VArr updatedTasks)) in
                    let updatedOrder :=
                      completed_order now order prevTask updatedTasks status in
                    transaction
                      (write (set_orders (table_put updatedOrder)) ;;
                       bumpOrdersVersion now
                         ("complete task " ++ string_of_Z (idx + 1) ++ " order "
                            ++ string_of_Z code)) ;;
                    ret (task_result updatedOrder nextTask idx)
                end
            end
      end
  end.

(* ================================================================== *)
(** ** Snapshots *)
(* ================================================================== *)

Definition stale_version : jsval :=
  VObj (<["applied" := VBool false]> (<["reason" := VStr "stale-version"]> ∅)).

Definition applied : jsval := VObj (<["applied" := VBool true]> ∅).

(** [incomingVer <= localVer] for a local version that is a number: the
    comparison is false when the left side converts to [NaN]. *)
Definition js_le (incomingVer : jsval) (localVer : Z) : bool :=
  match Number_ incomingVer with
  | Some q => Qle_bool q (inject_Z localVer)
  | None => false
  end.

(** The version a snapshot carries: [meta?.version || 0]. *)
Definition incoming_version (incoming : jsval) : jsval :=
  js_or (oget "version" (oget "meta" incoming)) (VInt 0).

(** A valid key of IndexedDB, among the values of the model: a number,
    a string, an array of valid keys. *)
Fixpoint valid_key (v : jsval) : bool :=
  match v with
  | VNum _ | VStr _ => true
  | VArr l => forallb valid_key l
  | _ => false
  end.

(** [meta.put({ version, changeLog })] with the version a snapshot
    brings.  The meta tables of the model are keyed by integers, as are
    all the versions the file makes itself (1, then the latest plus 1).
    The code puts the record under any valid key: under a version such
    as ['7'] or [7.5] it leaves a store that the model cannot hold, and
    the model stops there. *)
Definition put_meta_record (put : Z → jsval → Store → result Store)
    (version changeLog : jsval) (s : Store) : result Store :=
  match key_of version with
  | Some v => put v changeLog s
  | None => if valid_key version then Throw NotModelled else Throw DataError
  end.

(** [applyUsersSnapshot].  The signature is recomputed only to log a
    warning when it differs, inside a [try] that catches everything, so
    it has no part in the model.  The local version is read through
    [getUsersMeta], which initialises the database a second time. *)
Definition applyUsersSnapshot (now : Z) (incoming : jsval) : M jsval :=
  if nullish incoming then throw TypeError
  else
    let meta := oget "meta" incoming in
    let users_ := oget "users" incoming in
    initAPIDB now ;;
    let* localMeta := getUsersMeta now in
    let localVer := version_or_0 localMeta in
    let incomingVer := incoming_version incoming in
    if js_le incomingVer localVer then ret stale_version
    else
      transaction
        (write (set_users (fun _ => Ok ∅)) ;;
         (match users_ with
          | VArr ((_ :: _) as l) =>
              let* records :=
                lift (map_filter
                        (fun u =>
                           let+ c := pget "code" u in
                           Ok (Some (<["code" :=
                                        match toInt c with
                                        | Some n => VInt n
                                        | None => VUndef
                                        end]> (spread u)))) l) in
              write (set_users (table_bulkPut records))
          | _ => ret tt
          end) ;;
         write (put_meta_record put_usersMeta incomingVer
                  (js_or (oget "changeLog" meta) (VArr [])))) ;;
      ret applied.

(** The callback of [orders.map] in [applyOrdersSnapshot]. *)
Definition normalized_order (o : jsval) : result (option obj) :=
  let+ n := resolve_code o in
  Ok ((fun n => <["code" := VInt n]> (spread o)) <$> n).

(** The scope a context names: the [info] field that selects the
    orders, and the value it must have.  [userCode] comes first; a
    scope whose value [toInt] cannot read selects nothing, and so does
    a context that names neither. *)
Definition scope_of (context : jsval) : option (string * Z) :=
  if negb (nullish (oget "userCode" context)) then
    (λ targetUser, ("asignado_a_code", targetUser)) <$> toInt (oget "userCode" context)
  else if negb (nullish (oget "speciality" context)) then
    (λ targetSpeciality, ("Especialidad_id", targetSpeciality))
      <$> toInt (oget "speciality" context)
  else None.

(** [Number(order?.info?.[field]) === target] *)
Definition in_scope (scope : string * Z) (order : obj) : bool :=
  num_is (Number_ (oget scope.1 (oget "info" (VObj order)))) scope.2.

(** The codes [scopedRemoval] deletes: those of the orders in scope
    that are not in [keepCodes], without duplicates. *)
Definition codes_to_remove (scope : string * Z) (keepCodes : gset Z)
    (t : gmap Z obj) : list Z :=
  remove_dups
    (filter (λ code, code ∉ keepCodes)
       (omap (λ order, toInt (oget "code" (VObj order)))
          (filter (λ order, in_scope scope order = true) (toArray t)))).

(** [scopedRemoval]: the two branches of the source run the same steps
    on the field and the target their scope gives. *)
Definition scopedRemoval (context : jsval) (keepCodes : gset Z) : M unit :=
  match scope_of context with
  | None => ret tt
  | Some scope =>
      let* toRemove := read (λ s, codes_to_remove scope keepCodes (orders s)) in
      match toRemove with
      | [] => ret tt
      | _ :: _ => write (set_orders (λ t, Ok (table_bulkDelete toRemove t)))
      end
  end.

(** The orders of a snapshot, normalized. *)
Definition normalized_orders (orders_ : jsval) : result (list obj) :=
  match orders_ with
  | VArr l => map_filter normalized_order l
  | _ => Ok []
  end.

Definition applyOrdersSnapshot (now : Z) (incoming context : jsval) : M jsval :=
  if nullish incoming then throw TypeError
  else
    let context := with_default (VObj ∅) context in
    let meta := oget "meta" incoming in
    let orders_ := oget "orders" incoming in
    initAPIDB now ;;
    let* localMeta := getOrdersMeta now in
    let localVer := version_or_0 localMeta in
    let incomingVer := incoming_version incoming in
    if js_le incomingVer localVer then ret stale_version
    else
      let* normalized := lift (normalized_orders orders_) in
      let keepCodes : gset Z :=
        list_to_set (omap (fun order => toInt (oget "code" (VObj order))) normalized) in
      transaction
        (scopedRemoval context keepCodes ;;
         (match normalized with
          | [] => ret tt
          | _ :: _ => write (set_orders (table_bulkPut normalized))
          end) ;;
         write (put_meta_record put_ordersMeta incomingVer
                  (js_or (oget "changeLog" meta) (VArr [])))) ;;
      ret applied.

End Model.

(* ================================================================== *)
(** ** Reads, credentials and backups *)
(* ================================================================== *)

(** What these functions take from outside the file: the variables of
    the build environment ([import.meta.env]), strings or [undefined],
    and [JSON.parse], [None] standing for the [SyntaxError] it throws. *)
Record Host := {
  VITE_ADMIN_NAME : jsval;
  VITE_ADMIN_PASSWORD : jsval;
  VITE_ADMIN_CODE : jsval;
  JSONparse : string → option jsval;
}.

(** [a === b] where one side at least is a primitive or a record just
    read from the database: two objects are then never the same
    reference. *)
Definition strict_eq (a b : jsval) : bool :=
  match a, b with
  | VUndef, VUndef | VNull, VNull => true
  | VBool x, VBool y => Bool.eqb x y
  | VNum p, VNum q => Qeq_bool p q
  | VStr s, VStr t => String.eqb s t
  | _, _ => false
  end.

(** [Number.isFinite(v)]: a number that is not [NaN]; no conversion. *)
Definition is_finite_number (v : jsval) : bool :=
  match v with VNum _ => true | _ => false end.

(** [typeof v === "object"] *)
Definition is_object (v : jsval) : bool :=
  match v with VNull | VArr _ | VObj _ => true | _ => false end.

Definition is_array (v : jsval) : bool :=
  match v with VArr _ => true | _ => false end.

(** [s.toLowerCase()], on the ASCII letters. *)
Definition lower_char (c : ascii) : ascii :=
  let n := nat_of_ascii c in
  if ((65 <=? n) && (n <=? 90))%nat then ascii_of_nat (n + 32) else c.

Definition toLowerCase (s : string) : string :=
  string_of_list_ascii (map lower_char (list_ascii_of_string s)).

(** The records of a table in the order of their keys
    ([orderBy(primaryKey).toArray()], and [toArray()] itself). *)
Definition key_le {A} (a b : Z * A) : Prop := a.1 <= b.1.

#[global] Instance key_le_dec {A} (a b : Z * A) : Decision (key_le a b) :=
  Z_le_dec a.1 b.1.

Definition entries_by_key {A} (t : gmap Z A) : list (Z * A) :=
  merge_sort key_le (map_to_list t).

Definition by_key (t : gmap Z obj) : list obj := (entries_by_key t).*2.

(** A record of a meta table. *)
Definition meta_record (e : Z * jsval) : jsval :=
  VObj (<["version" := VInt e.1]> (<["changeLog" := e.2]> ∅)).


Definition set_usersMeta (f : gmap Z jsval → gmap Z jsval) (s : Store) : result Store :=
  Ok {| users := users s; usersMeta := f (usersMeta s);
        orders := orders s; ordersMeta := ordersMeta s |}.

Definition set_ordersMeta (f : gmap Z jsval → gmap Z jsval) (s : Store) : result Store :=
  Ok {| users := users s; usersMeta := usersMeta s;
        orders := orders s; ordersMeta := f (ordersMeta s) |}.

(** [meta.bulkPut(entries)] for entries whose version is an integer.
    A meta table holds, under each version, the change log of its
    record: the two fields of a meta record that the file writes and
    reads. *)
Definition meta_bulkPut (entries : list obj) (m : gmap Z jsval) : gmap Z jsval :=
  foldl (λ acc e,
           match key_of (oget "version" (VObj e)) with
           | Some v => <[v := oget "changeLog" (VObj e)]> acc
           | None => acc
           end) m entries.

Section Reads.
Context (P : Platform) (H : Host).

Definition listUsers (now : Z) : M jsval :=
  initAPIDB P now ;;
  let* us := read (fun s => by_key (users s)) in
  ret (VArr (VObj <$> us)).

Definition listOrders (now : Z) : M jsval :=
  initAPIDB P now ;;
  let* os := read (fun s => by_key (orders s)) in
  ret (VArr (VObj <$> os)).

(** [table.get(key)]: the record, [undefined] when there is none; the
    request is invalid without a key. *)
Definition table_get (key : option Z) (t : gmap Z obj) : result jsval :=
  match key with
  | Some k => Ok (from_option VObj VUndef (t !! k))
  | None => Throw DataError
  end.

Definition getUser (now : Z) (code : jsval) : M jsval :=
  initAPIDB P now ;;
  let* t := read users in
  lift (table_get (toInt code) t).

Definition getOrderByCode (now : Z) (orderCode : jsval) : M jsval :=
  initAPIDB P now ;;
  match toInt orderCode with
  | None => ret VNull
  | Some code =>
      let* t := read orders in
      lift (table_get (Some code) t)
  end.

(** [getOrderExpirationDetails(order)] *)
Definition getOrderExpirationDetails (order : jsval) : option ExpirationInfo :=
  computeExpirationInfo P (js_or (oget "info" order) VNull).

(** [Number.isFinite(v) && Number(v) === n] *)
Definition is_number (v : jsval) (n : Z) : bool :=
  is_finite_number v && num_is (Number_ P v) n.

Definition fetchOrdersBySpeciality (now : Z) (specialityId : jsval) : M jsval :=
  initAPIDB P now ;;
  let* all := read (fun s => by_key (orders s)) in
  match toInt specialityId with
  | None => ret (VArr (VObj <$> all))
  | Some sid =>
      ret (VArr (VObj <$>
                   List.filter
                     (fun o => is_number (oget "Especialidad_id" (oget "info" (VObj o))) sid)
                     all))
  end.





(** What [getUsersMeta()] and [getOrdersMeta()] return to a caller. *)
Definition latest_record (latest : option (Z * jsval)) : jsval :=
  from_option meta_record VUndef latest.

Definition snapshot (meta : jsval) (orders_ : jsval) : jsval :=
  VObj (<["meta" := meta]> (<["orders" := orders_]> ∅)).

Definition getOrdersSnapshotForSpeciality (now : Z) (specialityId : jsval) : M jsval :=
  initAPIDB P now ;;
  let* orders_ := fetchOrdersBySpeciality now specialityId in
  let* meta := getOrdersMeta P now in
  ret (snapshot (latest_record meta) orders_).

Definition getOrdersSnapshotForUser (now : Z) (userCode : jsval) : M jsval :=
  initAPIDB P now ;;
  let* allOrders := read (fun s => by_key (orders s)) in
  let orders_ :=
    List.filter
      (fun o => strict_eq (oget "asignado_a_code" (oget "info" (VObj o))) userCode)
      allOrders in
  let* meta := getOrdersMeta P now in
  ret (snapshot (latest_record meta) (VArr (VObj <$> orders_))).

(* ------------------------------------------------------------------ *)
(** *** Credentials *)

(** [String(v || "").trim()] *)
Definition env_string (v : jsval) : string := trim (String_ (js_or v (VStr ""))).

Definition seedRootAdminFromEnv (now : Z) : M jsval :=
  initAPIDB P now ;;
  let name := env_string (VITE_ADMIN_NAME H) in
  let password := env_string (VITE_ADMIN_PASSWORD H) in
  match toInt (js_or (VITE_ADMIN_CODE H) (VStr "")) with
  | None => ret (VBool false)
  | Some code =>
      if String.eqb name "" || String.eqb password "" then ret (VBool false)
      else
        let* exists_ := read (fun s => users s !! code) in
        match exists_ with
        | Some _ => ret (VBool false)
        | None =>
            let adminUser : obj :=
              <["code" := VInt code]>
              (<["name" := VStr name]>
              (<["role" := VStr "admin"]>
              (<["speciality" := VNull]>
              (<["active" := VBool true]>
              (<["passwordHash" := VStr (simpleHash password)]>
              (<["createdAt" := VStr (nowISO P now)]> ∅)))))) in
            transaction
              (write (set_users (table_put adminUser)) ;;
               bumpUsersVersion P now "seed root admin from env") ;;
            ret (VBool true)
        end
  end.


Definition verifyUser (now : Z) (code password : jsval) : M jsval :=
  initAPIDB P now ;;
  match toInt code with
  | None => ret VNull
  | Some c =>
      let* user := read (fun s => users s !! c) in
      match user with
      | None => ret VNull
      | Some user =>
          if negb (strict_eq (oget "active" (VObj user)) (VBool true)) then ret VNull
          else if negb (truthy password) then ret VNull
          else
            let own := simpleHash (trim (String_ password)) in
            let expected :=
              if strict_eq (oget "role" (VObj user)) (VStr "admin")
                 && strict_eq (oget "name" (VObj user))
                      (VStr (env_string (VITE_ADMIN_NAME H)))
              then simpleHash (env_string (VITE_ADMIN_PASSWORD H))
              else own in
            if strict_eq (oget "passwordHash" (VObj user)) (VStr expected)
            then ret (VObj user) else ret VNull
      end
  end.

(* ------------------------------------------------------------------ *)
(** *** Backups *)

Definition BACKUP_SIGNATURE : string := "SIGEMBackup".
Definition BACKUP_VERSION : Z := 1.

Definition normalizeBackupScope (scope : jsval) : string :=
  let normalized := toLowerCase (String_ (js_or scope (VStr ""))) in
  if existsb (String.eqb normalized) ["all"; "users"; "orders"] then normalized
  else "all".


Definition parseBackupPayload (rawBackup : jsval) : result jsval :=
  if negb (truthy rawBackup) then Ok VNull
  else
    match rawBackup with
    | VStr s =>
        match JSONparse H s with
        | Some v => Ok v
        | None => Throw (Error "El archivo de backup no es un JSON válido.")
        end
    | VArr _ | VObj _ => Ok rawBackup
    | _ => Ok VNull
    end.

(** The callback shared by the three normalisations of a backup: the
    record with its [field] as [toInt] reads it, or nothing. *)
Definition with_int (field : string) (record : jsval) : option obj :=
  (fun n => <[field := VInt n]> (spread record)) <$> toInt (oget field record).

Definition normalizeMetaEntries (entries : jsval) : list obj :=
  match entries with
  | VArr l => omap (with_int "version") l
  | _ => []
  end.

Definition normalize_records (records : jsval) : list obj :=
  match records with
  | VArr l => omap (with_int "code") l
  | _ => []
  end.

Definition import_result (scope : string) (nUsers nOrders : nat) : jsval :=
  VObj (<["scope" := VStr scope]>
       (<["restored" :=
            VObj (<["users" := VInt (Z.of_nat nUsers)]>
                 (<["orders" := VInt (Z.of_nat nOrders)]> ∅))]> ∅)).

Definition importDatabaseBackup (now : Z) (rawBackup : jsval) : M jsval :=
  initAPIDB P now ;;
  let* backup := lift (parseBackupPayload rawBackup) in
  if negb (truthy backup) || negb (is_object backup)
  then throw (Error "Backup inválido.")
  else if negb (strict_eq (oget "type" backup) (VStr BACKUP_SIGNATURE))
  then throw (Error "El archivo seleccionado no corresponde a un backup del sistema.")
  else if negb (strict_eq (oget "version" backup) (VInt BACKUP_VERSION))
  then throw (Error ("Versión de backup incompatible (recibida "
                       ++ String_ (oget "version" backup) ++ ", esperada "
                       ++ string_of_Z BACKUP_VERSION ++ ")."))
  else
    let data := oget "data" backup in
    if negb (truthy data) || negb (is_object data)
    then throw (Error "El backup no contiene datos para restaurar.")
    else
      let normalizedScope := normalizeBackupScope (oget "scope" backup) in
      let restoreUsers :=
        negb (String.eqb normalizedScope "orders")
        && (is_array (oget "users" data) || is_array (oget "usersMeta" data)) in
      let restoreOrders :=
        negb (String.eqb normalizedScope "users")
        && (is_array (oget "orders" data) || is_array (oget "ordersMeta" data)) in
      if negb restoreUsers && negb restoreOrders
      then throw (Error "El backup no contiene información de usuarios u órdenes para restaurar.")
      else
        let normalizedUsers :=
          if restoreUsers then normalize_records (oget "users" data) else [] in
        let normalizedOrders :=
          if restoreOrders then normalize_records (oget "orders" data) else [] in
        let usersMetaEntries :=
          if restoreUsers then normalizeMetaEntries (oget "usersMeta" data) else [] in
        let ordersMetaEntries :=
          if restoreOrders then normalizeMetaEntries (oget "ordersMeta" data) else [] in
        transaction
          ((if restoreUsers then
              write (set_users (fun _ => Ok ∅)) ;;
              (match normalizedUsers with
               | [] => ret tt
               | _ :: _ => write (set_users (table_bulkPut normalizedUsers))
               end) ;;
              write (set_usersMeta (fun _ => ∅)) ;;
              match usersMetaEntries with
              | [] =>
                  write (put_usersMeta 1
                           (VArr [VStr (nowISO P now
                                          ++ " - users meta restaurada sin historial")]))
              | _ :: _ => write (set_usersMeta (meta_bulkPut usersMetaEntries))
              end
            else ret tt) ;;
           (if restoreOrders then
              write (set_orders (fun _ => Ok ∅)) ;;
              (match normalizedOrders with
               | [] => ret tt
               | _ :: _ => write (set_orders (table_bulkPut normalizedOrders))
               end) ;;
              write (set_ordersMeta (fun _ => ∅)) ;;
              match ordersMetaEntries with
              | [] =>
                  write (put_ordersMeta 1
                           (VArr [VStr (nowISO P now
                                          ++ " - orders meta restaurada sin historial")]))
              | _ :: _ => write (set_ordersMeta (meta_bulkPut ordersMetaEntries))
              end
            else ret tt)) ;;
        (if restoreOrders then try_ (markOrdersExpired_skipInit P now VUndef) else ret tt) ;;
        ret (import_result normalizedScope (length normalizedUsers) (length normalizedOrders)).

End Reads.

(* ================================================================== *)
(** ** Vocabulary of the statements *)
(* ================================================================== *)

(** The key a record is stored under. *)
Definition record_key (r : obj) : option Z := key_of (oget "code" (VObj r)).

(** Every record of the table sits under its own code, and [toInt]
    reads that code back.  All the writers of the file keep it so: they
    store [{ ...record, code: n }] under [n]. *)
Definition table_wf (t : gmap Z obj) : Prop :=
  map_Forall (λ k o, record_key o = Some k ∧ toInt (oget "code" (VObj o)) = Some k) t.

(** The last record of a batch that goes under key [k]. *)
Definition last_with_key (k : Z) (rs : list obj) : option obj :=
  last (filter (λ r, record_key r = Some k) rs).

(** The status an order carries, as the code reads it:
    [Number(order?.info?.status)]. *)
Definition order_status (P : Platform) (o : obj) : option Q :=
  Number_ P (oget "status" (oget "info" (VObj o))).

(** The status of a task, as the derivation reads it:
    [Number(t.status) === z]. *)
Definition task_status_is (P : Platform) (z : Z) (t : obj) : Prop :=
  num_is (Number_ P (oget "status" (VObj t))) z = true.

#[global] Instance task_status_is_dec P z t : Decision (task_status_is P z t) :=
  decide (num_is (Number_ P (oget "status" (VObj t))) z = true).

(** The update the sweep pushes for an order, if any, and the record it
    leaves. *)
Definition sweep_update (P : Platform) (today : Z) (evaluateAll : bool)
    (codesSet : gset Z) (o : obj) : option obj :=
  match sweep_order P today evaluateAll codesSet o with
  | Ok (MarkExpired o') | Ok (Restored o') => Some o'
  | _ => None
  end.

Definition swept (P : Platform) (today : Z) (evaluateAll : bool) (codesSet : gset Z)
    (o : obj) : obj :=
  default o (sweep_update P today evaluateAll codesSet o).



Definition not_found_errors : list exn :=
  [Error "El usuario especificado no existe.";
   Error "order not found";
   Error "task not found"].

(** The fields [addUser] validates, as it reads them. *)
Definition user_name (fields : jsval) : string :=
  trim (String_ (js_coalesce (oget "name" fields) (VStr ""))).

Definition user_role (fields : jsval) : string :=
  trim (String_ (js_coalesce (oget "role" fields) (VStr ""))).

Definition role_requires_speciality (role : string) : bool :=
  String.eqb role "supervisor" || String.eqb role "mantenedor".

Definition user_speciality (fields : jsval) : option Z :=
  toInt (with_default VNull (oget "speciality" fields)).

(** The head of a time-zone offset, [[+-]\d{2}:], at the head of [l];
    and a string in which no offset starts. *)
Definition offset_head (l : list ascii) : bool :=
  match l with
  | s :: h1 :: h2 :: c :: _ => is_sign s && is_digit h1 && is_digit h2 && Ascii.eqb c ":"
  | _ => false
  end.

Fixpoint no_offset_head_in (l : list ascii) : bool :=
  match l with
  | [] => true
  | _ :: tl => negb (offset_head l) && no_offset_head_in tl
  end.

(** A byte that trimming may take off: ASCII white space, or a byte of
    a character of more than one byte. *)
Definition blank_byte (c : ascii) : bool := is_space c || negb (is_plain c).

(** What a snapshot function runs before it compares versions: its own
    [initAPIDB], and the one of the meta getter it calls. *)
Definition snapshot_init (P : Platform) (now : Z) : M unit :=
  initAPIDB P now ;; initAPIDB P now.

(** A computation that mutates the orders (the users) atomically: when
    it throws the database is as it was, and when it returns the version
    of the family is exactly one more, nothing of the other family
    having moved. *)
Definition orders_mutation (m : M jsval) : Prop :=
  ∀ w r w', m w = (r, w') →
    match r with
    | Throw _ => db w' = db w
    | Ok _ =>
        users (db w') = users (db w) ∧ usersMeta (db w') = usersMeta (db w) ∧
        getOrdersMeta_version (db w') = getOrdersMeta_version (db w) + 1
    end.

Definition users_mutation (m : M jsval) : Prop :=
  ∀ w r w', m w = (r, w') →
    match r with
    | Throw _ => db w' = db w
    | Ok _ =>
        orders (db w') = orders (db w) ∧ ordersMeta (db w') = ordersMeta (db w) ∧
        getUsersMeta_version (db w') = getUsersMeta_version (db w) + 1
    end.

(* ------------------------------------------------------------------ *)
(** *** Hexadecimal digits, valid users, canonical tables, frames *)

(** A hexadecimal digit, in lower case. *)
Definition is_hex (c : ascii) : bool :=
  is_digit c || existsb (Ascii.eqb c) (list_ascii_of_string "abcdef").


(** A user record as [addUser] and [updateUser] mean to store it: a
    name and a role that are not empty, and a speciality that is an
    integer or [null], an integer when the role asks for one. *)
Definition user_valid (u : obj) : Prop :=
  ∃ name role,
    u !! "name" = Some (VStr name) ∧ name ≠ "" ∧
    u !! "role" = Some (VStr role) ∧ role ≠ "" ∧
    (u !! "speciality" = Some VNull ∨ ∃ s, u !! "speciality" = Some (VInt s)) ∧
    (role_requires_speciality role = true → ∃ s, u !! "speciality" = Some (VInt s)).




(** A computation keeps a relation between the store it starts from and
    the one it leaves, whatever it returns. *)
Definition keeps {A} (R : Store → Store → Prop) (m : M A) : Prop :=
  ∀ w r w', m w = (r, w') → R (db w) (db w').

Definition same_users (s s' : Store) : Prop :=
  users s' = users s ∧ usersMeta s' = usersMeta s.

Definition same_orders (s s' : Store) : Prop :=
  orders s' = orders s ∧ ordersMeta s' = ordersMeta s.

(* ------------------------------------------------------------------ *)
(** *** Sample data *)

(** A periodic order: its code, the status it carries, its start date,
    its frequency in days, and its tasks. *)
Definition sample_order (code status : Z) (start : string) (freq : Z)
    (tasks : list jsval) : obj :=
  <["code" := VInt code]>
  (<["info" := VObj (<["status" := VInt status]>
                    (<["F inicial" := VStr start]>
                    (<["Frec. Dias" := VInt freq]> ∅)))]>
  (<["tasks" := VObj (<["data" := VArr tasks]> ∅)]> ∅)).

Definition sample_task (status : Z) : jsval := VObj (<["status" := VInt status]> ∅).

(** A store that went through [initAPIDB], holding the given orders. *)
Definition sample_world (os : list obj) : World :=
  {| db := {| users := ∅;
              usersMeta := {[1 := VArr [VStr "init users meta v1"]]};
              orders := list_to_map (omap (λ o, (λ k, (k, o)) <$> record_key o) os);
              ordersMeta := {[1 := VArr [VStr "init orders meta v1"]]} |};
     fault := None |}.

(** Midnight (UTC) of a civil date, in epoch milliseconds. *)
Definition midnight (y m d : Z) : Z := days_from_civil y m d * ms_per_day.

(** A user as [addUser] takes it. *)
Definition sample_user (code : Z) (name role password : string) : jsval :=
  VObj (<["code" := VInt code]> (<["name" := VStr name]> (<["role" := VStr role]>
       (<["speciality" := VInt 1]> (<["password" := VStr password]> ∅))))).

(** A build environment that names a root administrator; its
    [JSON.parse] reads [null] and rejects the rest. *)
Definition sample_host : Host :=
  {| VITE_ADMIN_NAME := VStr "Root";
     VITE_ADMIN_PASSWORD := VStr "secret";
     VITE_ADMIN_CODE := VStr "1";
     JSONparse := λ s, if String.eqb s "null" then Some VNull else None |}.

(** U+00A0, the no-break space, on its two bytes. *)
Definition nbsp : string :=
  String (ascii_of_nat 194) (String (ascii_of_nat 160) EmptyString).

(** A backup of the users, holding none. *)
Definition sample_users_backup : jsval :=
  VObj (<["type" := VStr "SIGEMBackup"]> (<["version" := VInt 1]>
       (<["scope" := VStr "users"]>
       (<["data" := VObj (<["users" := VArr []]> ∅)]> ∅)))).

(* ================================================================== *)
(** * Properties *)
(* ================================================================== *)

(** ** Printing and reading integers *)

Lemma digit_char_spec d :
  0 <= d < 10 → is_digit (digit_char d) = true ∧ digit_val (digit_char d) = d.
Proof.
  intros Hd.
  assert (d = 0 ∨ d = 1 ∨ d = 2 ∨ d = 3 ∨ d = 4 ∨ d = 5 ∨ d = 6 ∨ d = 7 ∨ d = 8 ∨ d = 9)
    as Hcases by lia.
  repeat (destruct Hcases as [-> | Hcases]; [by vm_compute |]).
  subst d. by vm_compute.
Qed.

Lemma is_digit_not_space c : is_digit c = true → is_space c = false.
Proof.
  unfold is_digit, is_space. intros H.
  apply andb_true_iff in H as [H1 H2].
  apply Nat.leb_le in H1. apply Nat.leb_le in H2.
  apply orb_false_iff. split.
  - apply Nat.eqb_neq. lia.
  - apply andb_false_iff. right. apply Nat.leb_gt. lia.
Qed.

Lemma digits_value_snoc (ds : list ascii) c :
  digits_value (ds ++ [c])%list = 10 * digits_value ds + digit_val c.
Proof. unfold digits_value. by rewrite fold_left_app. Qed.

(** With enough fuel, [digits_of] puts in front of [acc] a non-empty run
    of digits whose value is [n]. *)
Lemma digits_of_spec fuel : ∀ n acc,
  0 <= n < 10 ^ (Z.of_nat fuel + 1) →
  ∃ ds : list ascii, digits_of fuel n acc = (ds ++ acc)%list ∧ ds ≠ [] ∧
        forallb is_digit ds = true ∧ digits_value ds = n.
Proof.
  induction fuel as [|fuel IH]; intros n acc Hn.
  - exists [digit_char (n mod 10)]. simpl in *.
    assert (n mod 10 = n) as -> by (apply Z.mod_small; lia).
    destruct (digit_char_spec n) as [Hd Hv]; [lia|].
    repeat split; [done | by rewrite Hd | ].
    unfold digits_value. simpl. lia.
  - simpl. destruct (Z.ltb_spec n 10) as [Hlt | Hge].
    + exists [digit_char (n mod 10)].
      assert (n mod 10 = n) as -> by (apply Z.mod_small; lia).
      destruct (digit_char_spec n) as [Hd Hv]; [lia|].
      repeat split; [done | by simpl; rewrite Hd | ].
      unfold digits_value. simpl. lia.
    + destruct (IH (n / 10) (digit_char (n mod 10) :: acc)) as (ds & Heq & Hne & Hall & Hval).
      { split; [apply Z.div_pos; lia |].
        apply Z.div_lt_upper_bound; [lia|].
        replace (Z.of_nat (S fuel) + 1) with (Z.succ (Z.of_nat fuel + 1)) in Hn by lia.
        rewrite Z.pow_succ_r in Hn by lia. lia. }
      exists (ds ++ [digit_char (n mod 10)])%list.
      destruct (digit_char_spec (n mod 10)) as [Hd Hv].
      { apply Z.mod_pos_bound. lia. }
      repeat split.
      * by rewrite Heq, <- app_assoc.
      * by destruct ds.
      * rewrite forallb_app, Hall. simpl. by rewrite Hd.
      * rewrite digits_value_snoc, Hval, Hv.
        pose proof (Z.div_mod n 10). lia.
Qed.

Lemma nat_digits_spec n :
  0 <= n →
  nat_digits n ≠ [] ∧ forallb is_digit (nat_digits n) = true ∧
  digits_value (nat_digits n) = n.
Proof.
  intros Hn. unfold nat_digits.
  destruct (digits_of_spec (Z.to_nat (Z.log2 n)) n []) as (ds & Heq & Hne & Hall & Hval).
  { split; [done|]. rewrite Z2Nat.id by apply Z.log2_nonneg.
    destruct (Z.eq_dec n 0) as [-> | Hnz]; [by vm_compute|].
    pose proof (Z.log2_spec n ltac:(lia)) as [_ Hlt].
    pose proof (Z.log2_nonneg n).
    eapply Z.lt_le_trans; [exact Hlt|].
    replace (Z.succ (Z.log2 n)) with (Z.log2 n + 1) by lia.
    apply Z.pow_le_mono_l. lia. }
  rewrite app_nil_r in Heq. by rewrite Heq.
Qed.

Lemma span_digits_all ds :
  forallb is_digit ds = true → span_digits ds = (ds, []).
Proof.
  induction ds as [|c ds IH]; [done|]. simpl.
  intros [Hc Hds]%andb_true_iff. by rewrite Hc, (IH Hds).
Qed.

Lemma is_digit_plain c : is_digit c = true → is_plain c = true.
Proof.
  unfold is_digit, is_plain. intros [_ H]%andb_true_iff.
  apply Nat.leb_le in H. apply Nat.ltb_lt. lia.
Qed.

(** No white space of several bytes has a byte below 128. *)
Lemma is_space2_plain c1 c2 :
  is_space2 c1 c2 = true → is_plain c1 = false ∧ is_plain c2 = false.
Proof.
  unfold is_space2, is_plain. intros [H1 H2]%andb_true_iff.
  apply Nat.eqb_eq in H1, H2. rewrite H1, H2. done.
Qed.

Lemma is_space3_plain c1 c2 c3 :
  is_space3 c1 c2 c3 = true →
  is_plain c1 = false ∧ is_plain c2 = false ∧ is_plain c3 = false.
Proof.
  unfold is_space3, is_plain. cbv zeta. intros H.
  assert ((128 <= nat_of_ascii c1)%nat ∧ (128 <= nat_of_ascii c2)%nat ∧
          (128 <= nat_of_ascii c3)%nat) as (? & ? & ?).
  { repeat match type of H with
           | (_ || _)%bool = true => apply orb_true_iff in H as [H | H]
           | (_ && _)%bool = true =>
               let H' := fresh in apply andb_true_iff in H as [H H']; revert H'
           end;
      intros; repeat match goal with
                     | H : (_ || _)%bool = true |- _ => apply orb_true_iff in H as [H | H]
                     | H : (_ && _)%bool = true |- _ =>
                         let H' := fresh in apply andb_true_iff in H as [H H']
                     | H : (_ =? _)%nat = true |- _ => apply Nat.eqb_eq in H
                     | H : (_ <=? _)%nat = true |- _ => apply Nat.leb_le in H
                     end; lia. }
  split_and!; apply Nat.ltb_ge; lia.
Qed.

(** A character of one byte that is not white space stops the skipping,
    from either end. *)
Lemma skip_spaces_head back c l :
  is_space c = false → is_plain c = true → skip_spaces back (c :: l) = c :: l.
Proof.
  intros Hs Hp. cbn [skip_spaces]. rewrite Hs.
  destruct l as [|c2 [|c3 l]].
  - done.
  - destruct back.
    + destruct (is_space2 c2 c) eqn:E; [|done].
      apply is_space2_plain in E as [_ E]. congruence.
    + destruct (is_space2 c c2) eqn:E; [|done].
      apply is_space2_plain in E as [E _]. congruence.
  - destruct back.
    + destruct (is_space2 c2 c) eqn:E.
      { apply is_space2_plain in E as [_ E]. congruence. }
      destruct (is_space3 c3 c2 c) eqn:E3; [|done].
      apply is_space3_plain in E3 as (_ & _ & E3). congruence.
    + destruct (is_space2 c c2) eqn:E.
      { apply is_space2_plain in E as [E _]. congruence. }
      destruct (is_space3 c c2 c3) eqn:E3; [|done].
      apply is_space3_plain in E3 as (E3 & _ & _). congruence.
Qed.

Lemma trim_left_head c l :
  is_space c = false → is_plain c = true → trim_left (c :: l) = c :: l.
Proof. apply skip_spaces_head. Qed.

(** Trimming leaves alone a string that starts and ends with a
    character of one byte that is not white space. *)
Lemma trim_chars_id c (l : list ascii) x :
  is_space c = false → is_plain c = true → is_space x = false → is_plain x = true →
  trim_chars (c :: l ++ [x])%list = (c :: l ++ [x])%list.
Proof.
  intros Hc Hcp Hx Hxp. unfold trim_chars. rewrite trim_left_head by done.
  assert (rev (c :: l ++ [x])%list = x :: rev (c :: l)) as Hrev.
  { change (c :: l ++ [x])%list with ((c :: l) ++ [x])%list.
    by rewrite rev_app_distr. }
  rewrite Hrev, skip_spaces_head, <- Hrev by done.
  apply rev_involutive.
Qed.

Lemma trim_chars_single c :
  is_space c = false → is_plain c = true → trim_chars [c] = [c].
Proof.
  intros Hc Hp. unfold trim_chars. rewrite trim_left_head by done.
  change (rev [c]) with [c]. by rewrite skip_spaces_head.
Qed.

Lemma trim_chars_digits ds :
  ds ≠ [] → forallb is_digit ds = true → trim_chars ds = ds.
Proof.
  intros Hne Hall.
  destruct ds as [|c ds]; [done|].
  simpl in Hall. apply andb_true_iff in Hall as [Hc Hds].
  destruct (rev ds) as [|x rl] eqn:Hrev.
  - apply (f_equal (@rev _)) in Hrev. rewrite rev_involutive in Hrev. subst ds.
    apply trim_chars_single; [by apply is_digit_not_space | by apply is_digit_plain].
  - apply (f_equal (@rev _)) in Hrev. rewrite rev_involutive in Hrev. simpl in Hrev.
    subst ds. rewrite forallb_app in Hds. apply andb_true_iff in Hds as [_ Hx].
    simpl in Hx. apply andb_true_iff in Hx as [Hx _].
    apply trim_chars_id;
      first [by apply is_digit_not_space | by apply is_digit_plain].
Qed.

Lemma trim_chars_minus_digits ds :
  ds ≠ [] → forallb is_digit ds = true →
  trim_chars ("-"%char :: ds) = "-"%char :: ds.
Proof.
  intros Hne Hall.
  destruct (rev ds) as [|x rl] eqn:Hrev.
  - apply (f_equal (@rev _)) in Hrev. rewrite rev_involutive in Hrev. by subst ds.
  - apply (f_equal (@rev _)) in Hrev. rewrite rev_involutive in Hrev. simpl in Hrev.
    subst ds. rewrite forallb_app in Hall. apply andb_true_iff in Hall as [_ Hx].
    simpl in Hx. apply andb_true_iff in Hx as [Hx _].
    apply trim_chars_id;
      first [done | by apply is_digit_not_space | by apply is_digit_plain].
Qed.

Lemma parseInt10_digits ds :
  ds ≠ [] → forallb is_digit ds = true →
  parseInt10 (string_of_list_ascii ds) = Some (digits_value ds).
Proof.
  intros Hne Hall. unfold parseInt10.
  rewrite list_ascii_of_string_of_list_ascii.
  destruct ds as [|c ds]; [done|].
  pose proof Hall as Hall'. simpl in Hall'. apply andb_true_iff in Hall' as [Hc _].
  rewrite trim_left_head by (by apply is_digit_not_space || by apply is_digit_plain).
  pose proof (span_digits_all (c :: ds) Hall) as Hspan.
  destruct c as [[] [] [] [] [] [] [] []];
    try (by vm_compute in Hc); cbv beta iota zeta; by rewrite Hspan.
Qed.

Lemma parseInt10_minus_digits ds :
  ds ≠ [] → forallb is_digit ds = true →
  parseInt10 (string_of_list_ascii ("-"%char :: ds)) = Some (- digits_value ds).
Proof.
  intros Hne Hall. unfold parseInt10.
  rewrite list_ascii_of_string_of_list_ascii.
  rewrite trim_left_head by done.
  rewrite span_digits_all by done. by destruct ds.
Qed.

Lemma chars_of_Q_int z :
  chars_of_Q (inject_Z z) =
  if z <? 0 then "-"%char :: nat_digits (- z) else nat_digits z.
Proof.
  unfold chars_of_Q, inject_Z. simpl Qnum. simpl Qden.
  rewrite Z.mod_1_r, Z.div_1_r. simpl frac_digits.
  destruct (Z.ltb_spec z 0) as [Hneg | Hpos].
  - destruct (Z.eqb_spec (Z.abs z) 0) as [H0 | _]; [lia|].
    simpl. by replace (Z.abs z) with (- z) by lia.
  - destruct (Z.eqb_spec (Z.abs z) 0) as [H0 | _].
    + by replace z with 0 by lia.
    + simpl. by replace (Z.abs z) with z by lia.
Qed.

(** [toInt] reads an integer back. *)
Lemma toInt_VInt z : toInt (VInt z) = Some z.
Proof.
  unfold toInt, VInt, trim. simpl String_. rewrite chars_of_Q_int.
  rewrite list_ascii_of_string_of_list_ascii.
  destruct (Z.ltb_spec z 0) as [Hneg | Hpos].
  - destruct (nat_digits_spec (- z)) as (Hne & Hall & Hval); [lia|].
    rewrite trim_chars_minus_digits, parseInt10_minus_digits by done.
    f_equal. lia.
  - destruct (nat_digits_spec z) as (Hne & Hall & Hval); [lia|].
    rewrite trim_chars_digits, parseInt10_digits by done.
    by f_equal.
Qed.

Lemma key_of_VInt z : key_of (VInt z) = Some z.
Proof.
  unfold key_of, VInt, inject_Z. simpl Qnum. simpl Qden.
  by rewrite Z.mod_1_r, Z.div_1_r.
Qed.

(** ** The monad *)

Lemma transaction_ok {A} (body : M A) w a w' :
  transaction body w = (Ok a, w') ↔ body w = (Ok a, w').
Proof.
  unfold transaction. destruct (body w) as [[a0|e] w0]; split; intros H;
    by inversion H.
Qed.

(** A transaction that throws leaves the database as it found it. *)
Lemma transaction_throw {A} (body : M A) w e w' :
  transaction body w = (Throw e, w') → db w' = db w.
Proof.
  unfold transaction. destruct (body w) as [[a0|e0] w0]; intros H;
    by inversion H.
Qed.

Lemma write_ok f w w' :
  write f w = (Ok tt, w') → f (db w) = Ok (db w').
Proof.
  unfold write. destruct (fault w) as [[|n]|];
    destruct (f (db w)) as [s'|e]; intros H; by inversion H.
Qed.

Lemma write_throw f w e w' :
  write f w = (Throw e, w') → db w' = db w.
Proof.
  unfold write. destruct (fault w) as [[|n]|];
    destruct (f (db w)) as [s'|e']; intros H; by inversion H.
Qed.

(** Without a pending fault a valid write goes through. *)
Lemma write_no_fault f w s' :
  fault w = None → f (db w) = Ok s' →
  write f w = (Ok tt, {| db := s'; fault := None |}).
Proof. unfold write. by intros -> ->. Qed.

Lemma bind_ok {A B} (m : M A) (k : A → M B) w b w' :
  bind m k w = (Ok b, w') → ∃ a w1, m w = (Ok a, w1) ∧ k a w1 = (Ok b, w').
Proof.
  unfold bind. destruct (m w) as [[a|e] w1]; [by eauto | intros H; inversion H].
Qed.

Lemma bind_throw {A B} (m : M A) (k : A → M B) w e w' :
  bind m k w = (Throw e, w') →
  m w = (Throw e, w') ∨ ∃ a w1, m w = (Ok a, w1) ∧ k a w1 = (Throw e, w').
Proof.
  unfold bind. destruct (m w) as [[a|e0] w1]; [by eauto |].
  intros H. inversion H. by left.
Qed.

(** ** The latest meta record *)

Lemma meta_last_spec (m : gmap Z jsval) :
  match meta_last m with
  | None => m = ∅
  | Some (k, v) => m !! k = Some v ∧ ∀ k' v', m !! k' = Some v' → k' <= k
  end.
Proof.
  unfold meta_last.
  apply (map_fold_weak_ind
           (λ r m, match r with
                   | None => m = ∅
                   | Some (k, v) =>
                       m !! k = Some v ∧ ∀ k' v', m !! k' = Some v' → k' <= k
                   end)); [done|].
  intros k v m0 r Hfresh IH. destruct r as [[k0 v0]|].
  - destruct IH as [Hk0 Hmax]. destruct (Z.ltb_spec k0 k) as [Hlt | Hge].
    + split; [by rewrite lookup_insert_eq|].
      intros k' v' Hk'. destruct (decide (k = k')) as [<- | Hne]; [lia|].
      rewrite lookup_insert_ne in Hk' by done. specialize (Hmax _ _ Hk'). lia.
    + assert (k ≠ k0) by (intros ->; congruence).
      split; [by rewrite lookup_insert_ne|].
      intros k' v' Hk'. destruct (decide (k = k')) as [<- | Hne]; [lia|].
      rewrite lookup_insert_ne in Hk' by done. by apply (Hmax _ v').
  - subst m0. split; [by rewrite lookup_insert_eq|].
    intros k' v' Hk'. destruct (decide (k = k')) as [<- | Hne]; [lia|].
    by rewrite lookup_insert_ne, lookup_empty in Hk'.
Qed.

(** A record put above every version of the table is the latest. *)
Lemma meta_last_insert_above (m : gmap Z jsval) k v :
  (∀ k' v', m !! k' = Some v' → k' < k) →
  meta_last (<[k := v]> m) = Some (k, v).
Proof.
  intros Habove. pose proof (meta_last_spec (<[k := v]> m)) as Hspec.
  destruct (meta_last (<[k := v]> m)) as [[k2 v2]|].
  - destruct Hspec as [Hk2 Hmax].
    destruct (decide (k = k2)) as [<- | Hne].
    + rewrite lookup_insert_eq in Hk2. congruence.
    + rewrite lookup_insert_ne in Hk2 by done.
      specialize (Habove _ _ Hk2).
      specialize (Hmax k v (lookup_insert_eq _ _ _)). lia.
  - by apply insert_non_empty in Hspec.
Qed.

Lemma meta_version_above (m : gmap Z jsval) k :
  meta_version m < k → ∀ k' v', m !! k' = Some v' → k' < k.
Proof.
  unfold meta_version. intros Hk k' v' Hk'.
  pose proof (meta_last_spec m) as Hspec.
  destruct (meta_last m) as [[k0 v0]|].
  - destruct Hspec as [_ Hmax]. specialize (Hmax _ _ Hk'). lia.
  - subst m. by rewrite lookup_empty in Hk'.
Qed.

Lemma meta_version_insert_above (m : gmap Z jsval) k v :
  meta_version m < k → meta_version (<[k := v]> m) = k.
Proof.
  intros Hk. unfold meta_version at 1.
  by rewrite (meta_last_insert_above m k v (meta_version_above m k Hk)).
Qed.

(** The version a bump writes is the next one, and it becomes the
    version of the table. *)
Lemma next_version_spec (m : gmap Z jsval) :
  next_version (meta_last m) = meta_version m + 1.
Proof.
  unfold next_version, meta_version. by destruct (meta_last m) as [[k v]|].
Qed.

Lemma meta_version_bump (m : gmap Z jsval) cl :
  meta_version (<[next_version (meta_last m) := cl]> m) = meta_version m + 1.
Proof.
  rewrite next_version_spec. apply meta_version_insert_above. lia.
Qed.

(** ** Tables *)

Lemma table_put_ok (r : obj) (t t' : gmap Z obj) :
  table_put r t = Ok t' ↔ ∃ k, record_key r = Some k ∧ t' = <[k := r]> t.
Proof.
  unfold table_put, record_key.
  destruct (key_of (oget "code" (VObj r))) as [k|]; split.
  - intros [= <-]. by exists k.
  - by intros (k' & [= <-] & ->).
  - done.
  - by intros (k' & ? & _).
Qed.

Lemma last_with_key_cons k r rs :
  last_with_key k (r :: rs) =
  match last_with_key k rs with
  | Some r' => Some r'
  | None => if decide (record_key r = Some k) then Some r else None
  end.
Proof.
  unfold last_with_key. rewrite filter_cons.
  destruct (decide (record_key r = Some k)) as [Hk | Hk].
  - destruct (filter _ rs) as [|r1 l] eqn:Hf; [done|].
    rewrite last_cons_cons. destruct (last (r1 :: l)) eqn:Hl; [done|].
    by apply last_None in Hl.
  - by destruct (last (filter _ rs)).
Qed.

(** [bulkPut] writes, for every key, the last record of the batch that
    goes there. *)
Lemma table_bulkPut_lookup rs : ∀ (t t' : gmap Z obj),
  table_bulkPut rs t = Ok t' →
  ∀ k, t' !! k = match last_with_key k rs with
                 | Some r => Some r
                 | None => t !! k
                 end.
Proof.
  induction rs as [|r rs IH]; intros t t' H k.
  - simpl in H. by injection H as <-.
  - simpl in H. destruct (table_put r t) as [t0|e] eqn:Hput; [|done].
    apply table_put_ok in Hput as (k0 & Hk0 & ->). simpl in H.
    rewrite (IH _ _ H k), last_with_key_cons.
    destruct (last_with_key k rs) as [r'|]; [done|].
    destruct (decide (record_key r = Some k)) as [Hk | Hk].
    + assert (k0 = k) as -> by congruence. by rewrite lookup_insert_eq.
    + rewrite lookup_insert_ne; [done | congruence].
Qed.

Lemma table_bulkPut_ok rs : ∀ (t : gmap Z obj),
  Forall (λ r, is_Some (record_key r)) rs → ∃ t', table_bulkPut rs t = Ok t'.
Proof.
  induction rs as [|r rs IH]; intros t Hall; [by eexists|].
  apply Forall_cons in Hall as [[k Hk] Hrs]. simpl.
  unfold table_put. fold (record_key r). rewrite Hk. simpl. by apply IH.
Qed.

Lemma last_with_key_None k rs :
  last_with_key k rs = None ↔ Forall (λ r, record_key r ≠ Some k) rs.
Proof.
  unfold last_with_key. rewrite last_None. split.
  - intros Hf. apply Forall_forall. intros r Hr Hk.
    assert (r ∈ filter (λ r, record_key r = Some k) rs) as Hin
      by by apply list_elem_of_filter.
    rewrite Hf in Hin. by apply not_elem_of_nil in Hin.
  - intros Hall. induction rs as [|r rs IH]; [done|].
    apply Forall_cons in Hall as [Hr Hrs]. rewrite filter_cons.
    destruct (decide (record_key r = Some k)); [done | by apply IH].
Qed.

Lemma last_with_key_Some k rs r :
  last_with_key k rs = Some r → r ∈ rs ∧ record_key r = Some k.
Proof.
  unfold last_with_key. intros Hl.
  assert (r ∈ filter (λ r, record_key r = Some k) rs) as Hin.
  { apply last_Some in Hl as [l' ->]. apply elem_of_app. right. by left. }
  by apply list_elem_of_filter in Hin as [? ?].
Qed.


Lemma toArray_elem (t : gmap Z obj) o :
  o ∈ toArray t ↔ ∃ k, t !! k = Some o.
Proof.
  unfold toArray. rewrite list_elem_of_fmap. split.
  - intros ([k o'] & -> & Hin). exists k. by apply elem_of_map_to_list in Hin.
  - intros (k & Hk). exists (k, o). split; [done|]. by apply elem_of_map_to_list.
Qed.

(** ** Version bumps *)

Section Bumps.
Context (P : Platform).

Lemma bumpOrdersVersion_ok now reason w v w' :
  bumpOrdersVersion P now reason w = (Ok v, w') →
  v = getOrdersMeta_version (db w) + 1 ∧
  ∃ cl,
    next_changeLog (meta_last (ordersMeta (db w))) (nowISO P now ++ " - " ++ reason) = Ok cl ∧
    put_ordersMeta v cl (db w) = Ok (db w').
Proof.
  unfold bumpOrdersVersion, getOrdersMeta_version. intros H.
  apply bind_ok in H as (latest & w1 & Hread & H).
  unfold read in Hread. injection Hread as <- <-.
  apply bind_ok in H as (cl & w2 & Hlift & H).
  unfold lift in Hlift. injection Hlift as Hcl <-.
  apply bind_ok in H as ([] & w3 & Hwrite & H).
  unfold ret in H. injection H as <- <-.
  apply write_ok in Hwrite. rewrite next_version_spec in *. eauto.
Qed.

Lemma bumpOrdersVersion_throw now reason w e w' :
  bumpOrdersVersion P now reason w = (Throw e, w') → db w' = db w.
Proof.
  unfold bumpOrdersVersion. intros H.
  apply bind_throw in H as [H | (latest & w1 & Hread & H)]; [done|].
  unfold read in Hread. injection Hread as <- <-.
  apply bind_throw in H as [H | (cl & w2 & Hlift & H)].
  { unfold lift in H. by injection H as _ <-. }
  unfold lift in Hlift. injection Hlift as _ <-.
  apply bind_throw in H as [H | ([] & w3 & Hwrite & H)]; [by apply write_throw in H | done].
Qed.

Lemma bumpUsersVersion_ok now reason w v w' :
  bumpUsersVersion P now reason w = (Ok v, w') →
  v = getUsersMeta_version (db w) + 1 ∧
  ∃ cl,
    next_changeLog (meta_last (usersMeta (db w))) (nowISO P now ++ " - " ++ reason) = Ok cl ∧
    put_usersMeta v cl (db w) = Ok (db w').
Proof.
  unfold bumpUsersVersion, getUsersMeta_version. intros H.
  apply bind_ok in H as (latest & w1 & Hread & H).
  unfold read in Hread. injection Hread as <- <-.
  apply bind_ok in H as (cl & w2 & Hlift & H).
  unfold lift in Hlift. injection Hlift as Hcl <-.
  apply bind_ok in H as ([] & w3 & Hwrite & H).
  unfold ret in H. injection H as <- <-.
  apply write_ok in Hwrite. rewrite next_version_spec in *. eauto.
Qed.

(** One bump: one more version, one more line. *)
Lemma next_changeLog_appends latest line cl :
  next_changeLog latest line = Ok cl →
  ∃ old, cl = VArr (old ++ [VStr line]).
Proof.
  unfold next_changeLog. intros H.
  destruct (match latest with
            | Some (_, cl0) => if truthy cl0 then array_spread cl0 else Ok []
            | None => Ok []
            end) as [old|]; [|done].
  simpl in H. injection H as <-. by exists old.
Qed.


Lemma put_usersMeta_version v cl s s' :
  v = getUsersMeta_version s + 1 →
  put_usersMeta v cl s = Ok s' →
  getUsersMeta_version s' = getUsersMeta_version s + 1 ∧
  users s' = users s ∧ ordersMeta s' = ordersMeta s ∧ orders s' = orders s.
Proof.
  unfold put_usersMeta, getUsersMeta_version. intros -> [= <-]. simpl.
  split; [|done]. apply meta_version_insert_above. lia.
Qed.

End Bumps.

(** ** Status derivation *)

Section Derivation.
Context (P : Platform).

Lemma every_objects (f : jsval → result bool) (g : obj → bool) (tasks : list obj) :
  (∀ t, f (VObj t) = Ok (g t)) →
  every f (VObj <$> tasks) = Ok (bool_decide (Forall (λ t, g t = true) tasks)).
Proof.
  intros Hf. induction tasks as [|t tasks IH]; [done|].
  rewrite fmap_cons. simpl. rewrite Hf. simpl.
  destruct (g t) eqn:Hg.
  - rewrite IH. f_equal. apply bool_decide_ext. rewrite Forall_cons. tauto.
  - f_equal. symmetry. apply bool_decide_eq_false. rewrite Forall_cons.
    intros [? _]. congruence.
Qed.

Lemma some_objects (f : jsval → result bool) (g : obj → bool) (tasks : list obj) :
  (∀ t, f (VObj t) = Ok (g t)) →
  some f (VObj <$> tasks) = Ok (bool_decide (Exists (λ t, g t = true) tasks)).
Proof.
  intros Hf. induction tasks as [|t tasks IH].
  - done.
  - rewrite fmap_cons. simpl. rewrite Hf. simpl.
    destruct (g t) eqn:Hg.
    + f_equal. symmetry. apply bool_decide_eq_true. by left.
    + rewrite IH. f_equal. apply bool_decide_ext. rewrite Exists_cons.
      split; [tauto | intros [?|?]; [congruence | done]].
Qed.

(** C4. The derived status of a list of tasks is 2 when every task has
    status 2, else 1 when some task has status 1 or 2, else 0.  The
    derivation reads nothing but the list (neither the store nor the
    clock), and never throws on a list of task objects: computed twice on
    the same list it gives the same status. *)
Theorem calculateOrderStatus_rule (tasks : list obj) :
  calculateOrderStatus P (VArr (VObj <$> tasks)) =
  Ok (if decide (Forall (task_status_is P 2) tasks) then 2
      else if decide (Exists (λ t, task_status_is P 1 t ∨ task_status_is P 2 t) tasks)
           then 1 else 0).
Proof.
  unfold calculateOrderStatus.
  rewrite (every_objects _ (λ t, num_is (Number_ P (oget "status" (VObj t))) 2)) by done.
  simpl. destruct (decide (Forall (task_status_is P 2) tasks)) as [Hall | Hall].
  - by rewrite bool_decide_eq_true_2.
  - rewrite bool_decide_eq_false_2 by done.
    rewrite (some_objects _
               (λ t, num_is (Number_ P (oget "status" (VObj t))) 1
                     || num_is (Number_ P (oget "status" (VObj t))) 2)) by done.
    simpl.
    destruct (decide (Exists (λ t, task_status_is P 1 t ∨ task_status_is P 2 t) tasks))
      as [Hex | Hex].
    + rewrite bool_decide_eq_true_2; [done|].
      eapply Exists_impl; [exact Hex|]. intros t Ht. simpl in Ht.
      apply orb_true_iff. exact Ht.
    + rewrite bool_decide_eq_false_2; [done|].
      intros Hex'. apply Hex. eapply Exists_impl; [exact Hex'|].
      intros t Ht. simpl in Ht. apply orb_true_iff in Ht. exact Ht.
Qed.

End Derivation.

(** ** The expiration sweep *)

(** Distinct property names. *)
Ltac keys := solve [ intros Heq; discriminate Heq | done ].

Section Sweep.
Context (P : Platform).

(** The derivation yields 0, 1 or 2, never the exogenous 3 and 4. *)
Lemma calculateOrderStatus_range tasks s :
  calculateOrderStatus P tasks = Ok s → s = 0 ∨ s = 1 ∨ s = 2.
Proof.
  unfold calculateOrderStatus. destruct tasks; try (intros [= <-]; by left).
  destruct (every _ l) as [[]|]; simpl; [intros [= <-]; by right; right | | done].
  destruct (some _ l) as [[]|]; simpl; [intros [= <-] .. | done]; auto.
Qed.

Lemma oget_info_insert (o info : obj) k :
  oget k (oget "info" (VObj (<["info" := VObj info]> o))) = default VUndef (info !! k).
Proof. simpl. by rewrite lookup_insert_eq. Qed.

Lemma oget_code_insert_info (o : obj) v :
  oget "code" (VObj (<["info" := v]> o)) = oget "code" (VObj o).
Proof. simpl. by rewrite lookup_insert_ne by keys. Qed.

(** An order that carries a status has an [info] object. *)
Lemma order_status_info (o : obj) z :
  num_is (order_status P o) z = true →
  ∃ m, oget "info" (VObj o) = VObj m.
Proof.
  unfold order_status. destruct (oget "info" (VObj o)); try done. eauto.
Qed.

(** What the sweep decides never moves a record to another key. *)
Lemma sweep_order_code today ea cs o d :
  sweep_order P today ea cs o = Ok d →
  match d with
  | MarkExpired o' | Restored o' => oget "code" (VObj o') = oget "code" (VObj o)
  | Untouched => True
  end.
Proof.
  unfold sweep_order.
  destruct (toInt _); [|by intros [= <-]].
  destruct (num_is _ 2); [by intros [= <-]|].
  destruct (negb _); [by intros [= <-]|].
  destruct (match computeExpirationInfo P _ with
            | Some expirationInfo => expirationDate expirationInfo <? today
            | None => false
            end).
  - destruct (negb _); intros [= <-]; [apply oget_code_insert_info | done].
  - destruct (num_is _ 4); [|by intros [= <-]].
    destruct (calculateOrderStatus P _); simpl; [|done].
    intros [= <-]. apply oget_code_insert_info.
Qed.

Lemma num_is_VInt z1 z2 : num_is (Number_ P (VInt z1)) z2 = bool_decide (z1 = z2).
Proof.
  simpl. unfold Qeq_bool, inject_Z. simpl.
  rewrite !Z.mul_1_r. destruct (Z.eqb_spec z1 z2) as [-> | Hne].
  - by rewrite bool_decide_eq_true_2.
  - by rewrite bool_decide_eq_false_2.
Qed.

Lemma expired_info_status info :
  expired_info info !! "status" = Some (VInt 4).
Proof.
  unfold expired_info. cbv zeta. destruct (negb _).
  - by rewrite lookup_insert_ne, lookup_insert_eq by keys.
  - by rewrite lookup_insert_eq.
Qed.

Lemma restored_info_status s info :
  restored_info s info !! "status" = Some (VInt s).
Proof.
  unfold restored_info. cbv zeta.
  destruct (oget "obs_anulada" _); try by rewrite lookup_insert_eq.
  destruct (String.eqb _ _); [|by rewrite lookup_insert_eq].
  by rewrite lookup_delete_ne, lookup_insert_eq by keys.
Qed.




End Sweep.

(** ** The sweep on the store *)

Section SweepStore.
Context (P : Platform).

Lemma sweep_loop_spec today ea cs l : ∀ upd e r upd' e' r',
  sweep_loop P today ea cs l upd e r = Ok (upd', e', r') →
  upd' = (upd ++ omap (sweep_update P today ea cs) l)%list ∧
  Forall (λ o, ∃ d, sweep_order P today ea cs o = Ok d) l.
Proof.
  induction l as [|o l IH]; intros upd e r upd' e' r' H.
  - simpl in H. injection H as <- <- <-. by rewrite app_nil_r.
  - simpl in H. unfold sweep_update at 1. simpl omap.
    destruct (sweep_order P today ea cs o) as [d|] eqn:Hd; [|done].
    simpl in H. destruct d as [|o'|o'].
    + apply IH in H as [-> Hall]. split; [done|]. constructor; eauto.
    + apply IH in H as [-> Hall]. rewrite <- app_assoc. split; [done|].
      constructor; eauto.
    + apply IH in H as [-> Hall]. rewrite <- app_assoc. split; [done|].
      constructor; eauto.
Qed.

Lemma sweep_update_code today ea cs o o' :
  sweep_update P today ea cs o = Some o' →
  oget "code" (VObj o') = oget "code" (VObj o).
Proof.
  unfold sweep_update. destruct (sweep_order P today ea cs o) as [d|] eqn:Hd; [|done].
  apply sweep_order_code in Hd. destruct d; [done | |]; by intros [= <-].
Qed.

(** Writing back the updated copies of some records of a table changes
    exactly those records. *)
Lemma bulkPut_updates_lookup (t t1 : gmap Z obj) (f : obj → option obj) :
  table_wf t →
  (∀ o o', f o = Some o' → oget "code" (VObj o') = oget "code" (VObj o)) →
  table_bulkPut (omap f (toArray t)) t = Ok t1 →
  ∀ k, t1 !! k = (λ o, default o (f o)) <$> t !! k.
Proof.
  intros Hwf Hcode Hput k.
  rewrite (table_bulkPut_lookup _ _ _ Hput k).
  assert (∀ r, r ∈ omap f (toArray t) → record_key r = Some k →
               ∃ o, t !! k = Some o ∧ f o = Some r) as Hsrc.
  { intros r Hr Hk. apply list_elem_of_omap in Hr as (o & Ho & Hfo).
    apply toArray_elem in Ho as (k2 & Hk2).
    destruct (Hwf _ _ Hk2) as [Hkey _].
    unfold record_key in Hk, Hkey. rewrite (Hcode _ _ Hfo), Hkey in Hk.
    injection Hk as ->. eauto. }
  destruct (last_with_key k _) as [r|] eqn:Hlast.
  - apply last_with_key_Some in Hlast as [Hr Hk].
    destruct (Hsrc r Hr Hk) as (o & -> & Hfo). simpl. by rewrite Hfo.
  - destruct (t !! k) as [o|] eqn:Hk; [|done]. simpl.
    destruct (f o) as [r|] eqn:Hfo; [|done]. exfalso.
    apply last_with_key_None in Hlast. rewrite Forall_forall in Hlast.
    apply (Hlast r).
    + apply list_elem_of_omap. exists o. split; [|done]. apply toArray_elem. eauto.
    + destruct (Hwf _ _ Hk) as [Hkey _]. unfold record_key in *.
      by rewrite (Hcode _ _ Hfo).
Qed.

Lemma omap_nil_inv {A B} (f : A → option B) (l : list A) x :
  omap f l = [] → x ∈ l → f x = None.
Proof.
  intros Hnil Hx. destruct (f x) as [y|] eqn:Hfx; [|done].
  assert (y ∈ omap f l) as Hy by (apply list_elem_of_omap; eauto).
  rewrite Hnil in Hy. by apply not_elem_of_nil in Hy.
Qed.

Lemma set_orders_ok f s s' :
  set_orders f s = Ok s' →
  ∃ t, f (orders s) = Ok t ∧ orders s' = t ∧ users s' = users s ∧
       usersMeta s' = usersMeta s ∧ ordersMeta s' = ordersMeta s.
Proof.
  unfold set_orders. destruct (f (orders s)) as [t|]; [|done].
  intros [= <-]. by exists t.
Qed.

Lemma set_users_ok f s s' :
  set_users f s = Ok s' →
  ∃ t, f (users s) = Ok t ∧ users s' = t ∧ orders s' = orders s ∧
       usersMeta s' = usersMeta s ∧ ordersMeta s' = ordersMeta s.
Proof.
  unfold set_users. destruct (f (users s)) as [t|]; [|done].
  intros [= <-]. by exists t.
Qed.

(** The effect of a transaction that writes the orders table and bumps
    the orders version. *)
Lemma orders_transaction_ok f now reason w v w' :
  transaction (write (set_orders f) ;; bumpOrdersVersion P now reason) w = (Ok v, w') →
  ∃ t, f (orders (db w)) = Ok t ∧ orders (db w') = t ∧
       users (db w') = users (db w) ∧ usersMeta (db w') = usersMeta (db w) ∧
       getOrdersMeta_version (db w') = getOrdersMeta_version (db w) + 1 ∧
       ∃ cl, ordersMeta (db w') =
               <[getOrdersMeta_version (db w) + 1 := cl]> (ordersMeta (db w)) ∧
             next_changeLog (meta_last (ordersMeta (db w)))
               (nowISO P now ++ " - " ++ reason) = Ok cl.
Proof.
  intros H. apply -> @transaction_ok in H.
  apply bind_ok in H as ([] & w1 & Hw & Hb).
  apply write_ok, set_orders_ok in Hw as (t & Hf & Ho & Hu & Hum & Hom).
  apply bumpOrdersVersion_ok in Hb as (-> & cl & Hcl & Hput).
  unfold put_ordersMeta in Hput. injection Hput as Hdb.
  exists t. rewrite <- Hdb. simpl. unfold getOrdersMeta_version in *. simpl.
  rewrite Hom in *. split_and!; try done.
  - apply meta_version_insert_above. lia.
  - by exists cl.
Qed.

Lemma users_transaction_ok f now reason w v w' :
  transaction (write (set_users f) ;; bumpUsersVersion P now reason) w = (Ok v, w') →
  ∃ t, f (users (db w)) = Ok t ∧ users (db w') = t ∧
       orders (db w') = orders (db w) ∧ ordersMeta (db w') = ordersMeta (db w) ∧
       getUsersMeta_version (db w') = getUsersMeta_version (db w) + 1 ∧
       ∃ cl, usersMeta (db w') =
               <[getUsersMeta_version (db w) + 1 := cl]> (usersMeta (db w)) ∧
             next_changeLog (meta_last (usersMeta (db w)))
               (nowISO P now ++ " - " ++ reason) = Ok cl.
Proof.
  intros H. apply -> @transaction_ok in H.
  apply bind_ok in H as ([] & w1 & Hw & Hb).
  apply write_ok, set_users_ok in Hw as (t & Hf & Ho & Hu & Hum & Hom).
  apply bumpUsersVersion_ok in Hb as (-> & cl & Hcl & Hput).
  unfold put_usersMeta in Hput. injection Hput as Hdb.
  exists t. rewrite <- Hdb. simpl. unfold getUsersMeta_version in *. simpl.
  rewrite Hum in *. split_and!; try done.
  - apply meta_version_insert_above. lia.
  - by exists cl.
Qed.

(** What a call of the sweep does to the store: it either leaves it as
    it is, or rewrites the orders and bumps the orders version once. *)
Lemma sweep_frame now codes w r w' :
  markOrdersExpired_skipInit P now codes w = (r, w') →
  db w' = db w ∨
  (users (db w') = users (db w) ∧ usersMeta (db w') = usersMeta (db w) ∧
   getOrdersMeta_version (db w') = getOrdersMeta_version (db w) + 1 ∧
   ∃ cl, ordersMeta (db w') =
           <[getOrdersMeta_version (db w) + 1 := cl]> (ordersMeta (db w))).
Proof.
  unfold markOrdersExpired_skipInit. unfold bind at 1. unfold read at 1.
  destruct (bool_decide _); [intros [= _ <-]; by left|].
  destruct (startOfChileDay P now) as [today|]; [|intros [= _ <-]; by left].
  unfold bind at 1. unfold lift at 1.
  destruct (sweep_loop _ _ _ _ _ _ _ _) as [[[updates e] rs]|]; [|intros [= _ <-]; by left].
  destruct updates as [|u updates]; [intros [= _ <-]; by left|].
  unfold bind at 1.
  destruct (transaction _ w) as [[v|e0] w1] eqn:Htx.
  - intros [= _ <-]. right.
    apply orders_transaction_ok in Htx as (t & _ & _ & Hu & Hum & Hv & cl & Hcl & _).
    split_and!; try done. by exists cl.
  - intros [= _ <-]. left. by apply transaction_throw in Htx.
Qed.

Lemma sweep_throw now codes w e w' :
  markOrdersExpired_skipInit P now codes w = (Throw e, w') → db w' = db w.
Proof.
  unfold markOrdersExpired_skipInit. unfold bind at 1. unfold read at 1.
  destruct (bool_decide _); [by intros [= <-]|].
  destruct (startOfChileDay P now) as [today|]; [|by intros [= <-]].
  unfold bind at 1. unfold lift at 1.
  destruct (sweep_loop _ _ _ _ _ _ _ _) as [[[updates e1] rs]|]; [|by intros [= _ <-]].
  destruct updates as [|u updates]; [by intros [= <-]|].
  unfold bind at 1.
  destruct (transaction _ w) as [[v|e0] w1] eqn:Htx; [done|].
  intros [= _ <-]. by apply transaction_throw in Htx.
Qed.

(** The sweep, record by record: when it succeeds, every order is
    replaced by what the loop decided for it. *)
Lemma sweep_effect now codes w r w' today :
  table_wf (orders (db w)) →
  startOfChileDay P now = Some today →
  markOrdersExpired_skipInit P now codes w = (Ok r, w') →
  let cs := codes_set codes in
  let ea := bool_decide (size cs = 0%nat) in
  (∀ k, orders (db w') !! k = swept P today ea cs <$> orders (db w) !! k) ∧
  (∀ k o, orders (db w) !! k = Some o → ∃ d, sweep_order P today ea cs o = Ok d).
Proof.
  intros Hwf Htoday. unfold markOrdersExpired_skipInit.
  unfold bind at 1. unfold read at 1. cbv zeta.
  destruct (bool_decide_reflect (toArray (orders (db w)) = [])) as [Hnil | Hnn].
  { intros [= _ <-]. split.
    - intros k. destruct (orders (db w) !! k) as [o|] eqn:Hk; [|done].
      assert (o ∈ toArray (orders (db w))) as Hin by (apply toArray_elem; eauto).
      rewrite Hnil in Hin. by apply not_elem_of_nil in Hin.
    - intros k o Hk.
      assert (o ∈ toArray (orders (db w))) as Hin by (apply toArray_elem; eauto).
      rewrite Hnil in Hin. by apply not_elem_of_nil in Hin. }
  rewrite Htoday. unfold bind at 1. unfold lift at 1.
  destruct (sweep_loop _ _ _ _ _ _ _ _) as [[[updates e] rs]|] eqn:Hloop; [|done].
  apply sweep_loop_spec in Hloop as [Hupd Hall]. simpl in Hupd.
  assert (∀ k o, orders (db w) !! k = Some o →
                 ∃ d, sweep_order P today (bool_decide (size (codes_set codes) = 0%nat))
                        (codes_set codes) o = Ok d) as Hok.
  { intros k o Hk. rewrite Forall_forall in Hall. apply Hall, toArray_elem. eauto. }
  destruct updates as [|u updates].
  { intros [= _ <-]. split; [|done].
    intros k. destruct (orders (db w) !! k) as [o|] eqn:Hk; [|done]. simpl.
    unfold swept. rewrite (omap_nil_inv _ _ o (eq_sym Hupd)); [done|].
    apply toArray_elem. eauto. }
  unfold bind at 1.
  destruct (transaction _ w) as [[v|e0] w1] eqn:Htx; [|done].
  intros [= _ <-]. split; [|done].
  apply orders_transaction_ok in Htx as (t & Hput & Ht & _).
  rewrite Ht, Hupd in *. intros k.
  apply (bulkPut_updates_lookup _ _ _ Hwf (sweep_update_code _ _ _) Hput).
Qed.

End SweepStore.

(** ** Expiration window and sweep (C5, C10) *)

Section Expiration.
Context (P : Platform).



(** C10 (as amended).  The derivation gives 2 on the empty task list.
    [bulkUpsertOrders], which derives the status of what it stores,
    gives an order with an empty task list status 2, and the loop of the
    sweep passes over such a record whatever the day and whatever codes
    it is asked to evaluate.  The sweep reads the status that is stored,
    not the derived one: [applyOrdersSnapshot] keeps the [info] it is
    given, and an order of the table with an empty task list is passed
    over when its stored status is 2, is marked expired (status 4) when
    it has another status, is evaluated and its window has closed, and,
    when it is at status 4 within its window, is restored to the derived
    status, 2. *)
Theorem empty_task_list_is_completed (o : jsval) n (stored : obj) k ei today ea cs :
  resolve_code o = Ok (Some n) →
  oget "data" (oget "tasks" o) = VArr [] →
  oget "data" (oget "tasks" (VObj stored)) = VArr [] →
  toInt (oget "code" (VObj stored)) = Some k →
  computeExpirationInfo P (js_or (oget "info" (VObj stored)) VNull) = Some ei →
  calculateOrderStatus P (VArr []) = Ok 2 ∧
  (∃ o', canonical_order P o = Ok (Some o') ∧
         oget "status" (oget "info" (VObj o')) = VInt 2 ∧
         ∀ today' ea' cs', sweep_order P today' ea' cs' o' = Ok Untouched) ∧
  (∃ r, normalized_order o = Ok (Some r) ∧
        oget "info" (VObj r) = oget "info" o ∧
        oget "data" (oget "tasks" (VObj r)) = VArr []) ∧
  (num_is (order_status P stored) 2 = true →
   sweep_order P today ea cs stored = Ok Untouched) ∧
  (num_is (order_status P stored) 2 = false →
   num_is (order_status P stored) 4 = false →
   ea || bool_decide (k ∈ cs) = true →
   expirationDate ei < today →
   ∃ marked,
     sweep_order P today ea cs stored = Ok (MarkExpired marked) ∧
     oget "status" (oget "info" (VObj marked)) = VInt 4 ∧
     oget "data" (oget "tasks" (VObj marked)) = VArr []) ∧
  (num_is (order_status P stored) 4 = true →
   ¬ expirationDate ei < today →
   ∃ restored,
     sweep_order P today ea cs stored = Ok (Restored restored) ∧
     oget "status" (oget "info" (VObj restored)) = VInt 2).
Proof.
  intros Hn Hdata Hsdata Hk Hei. split; [done|].
  destruct o as [| | | | | | |m]; try done.
  split; [|split].
  - unfold canonical_order. rewrite Hn. cbn [result_bind spread].
    assert (oget "data" (oget "tasks" (VObj (<["code" := VInt n]> m))) = VArr []) as ->.
    { simpl in *. by rewrite lookup_insert_ne by keys. }
    cbn [truthy]. change (calculateOrderStatus P (VArr [])) with (@Ok Z 2).
    cbn [result_bind]. eexists. split; [done|].
    split; [by rewrite oget_info_insert, lookup_insert_eq|].
    intros today' ea' cs'. unfold sweep_order.
    rewrite oget_code_insert_info.
    assert (oget "code" (VObj (<["code" := VInt n]> m)) = VInt n) as ->
      by (simpl; by rewrite lookup_insert_eq).
    rewrite toInt_VInt, oget_info_insert, lookup_insert_eq. simpl default.
    by rewrite num_is_VInt.
  - unfold normalized_order. rewrite Hn. cbn [result_bind spread fmap option_fmap option_map].
    eexists. split; [done|]. simpl in *.
    by rewrite !lookup_insert_ne by keys.
  - unfold sweep_order. rewrite Hk, Hei, Hsdata. fold (order_status P stored).
    split; [by intros ->|]. split.
    + intros -> H4 Hsel Hexp. rewrite H4, orb_false_r, Hsel. cbn [negb].
      rewrite (proj2 (Z.ltb_lt _ _) Hexp).
      eexists. split; [done|]. split.
      * by rewrite oget_info_insert, expired_info_status.
      * simpl in *. by rewrite lookup_insert_ne by keys.
    + intros H4 Hexp.
      assert (num_is (order_status P stored) 2 = false) as ->.
      { unfold order_status in *. destruct (Number_ P _) as [q|]; [|done]. simpl in *.
        apply Qeq_bool_iff in H4. destruct (Qeq_bool q (inject_Z 2)) eqn:H2; [|done].
        apply Qeq_bool_iff in H2. rewrite H4 in H2. done. }
      rewrite H4, orb_true_r. cbn [negb].
      rewrite (proj2 (Z.ltb_ge _ _)) by lia.
      change (calculateOrderStatus P (VArr [])) with (@Ok Z 2). cbn [result_bind].
      eexists. split; [done|].
      by rewrite oget_info_insert, restored_info_status.
Qed.

End Expiration.


Lemma sample_world_wf :
  table_wf (orders (db (sample_world [sample_order 1 0 "2024-01-01" 7 [sample_task 0]]))).
Proof. unfold table_wf. apply (bool_decide_unpack _). by vm_compute. Defined.


(** An order with an empty task list that is stored with status 0, as a
    snapshot brings it, is not passed over: its window closed on
    2024-01-12 and the sweep of the 13th marks it expired, although its
    task list derives to 2.  And the order that [bulkUpsertOrders]
    stored with status 2 is marked as well once [cancelOrder] has
    written 3 over it. *)
Lemma empty_task_order_is_marked_expired :
  let P := demo_platform in
  let o := sample_order 5 0 "2024-01-01" 7 [] in
  let snapshot :=
    VObj (<["meta" := VObj (<["version" := VInt 5]> ∅)]>
         (<["orders" := VArr [VObj o]]> ∅)) in
  let status w := oget "status" (oget "info" (VObj (default ∅ (orders (db w) !! 5)))) in
  let w1 := (applyOrdersSnapshot P (midnight 2024 1 2) snapshot VUndef (sample_world [])).2 in
  let w2 := (markOrdersExpired P (midnight 2024 1 13) VUndef true w1).2 in
  let v1 := (bulkUpsertOrders P (midnight 2024 1 2) (VArr [VObj o]) (sample_world [])).2 in
  let v2 := (cancelOrder P (midnight 2024 1 3) (VInt 5) (VStr "sin repuestos")
               (VStr "faltan rodamientos") v1).2 in
  let v3 := (markOrdersExpired P (midnight 2024 1 13) VUndef true v2).2 in
  calculateOrderStatus P (oget "data" (oget "tasks" (VObj o))) = Ok 2 ∧
  orders (db w1) !! 5 = Some o ∧ status w1 = VInt 0 ∧ status w2 = VInt 4 ∧
  status v1 = VInt 2 ∧ status v2 = VInt 3 ∧ status v3 = VInt 4.
Proof. cbv zeta. split_and!; by vm_compute. Qed.

(** An order with an empty task list and status 0, due since
    2024-01-12, in a sweep of all orders on the 13th. *)
Lemma empty_task_list_is_completed_witness :
  let stored := sample_order 6 0 "2024-01-01" 7 [] in
  (∃ o', canonical_order demo_platform (VObj (sample_order 5 0 "2024-01-01" 7 []))
           = Ok (Some o') ∧
         sweep_order demo_platform (midnight 2024 1 13) true ∅ o' = Ok Untouched) ∧
  ∃ marked,
    sweep_order demo_platform (midnight 2024 1 13) true ∅ stored = Ok (MarkExpired marked) ∧
    oget "status" (oget "info" (VObj marked)) = VInt 4.
Proof.
  cbv zeta.
  destruct (empty_task_list_is_completed demo_platform
              (VObj (sample_order 5 0 "2024-01-01" 7 [])) 5
              (sample_order 6 0 "2024-01-01" 7 []) 6
              {| startDate := midnight 2024 1 1; frequencyDays := 7;
                 dueDate := midnight 2024 1 8; expirationDate := midnight 2024 1 12 |}
              (midnight 2024 1 13) true ∅)
    as (_ & (o' & Hc & _ & Hs) & _ & _ & Hmark & _);
    [by vm_compute..|].
  split; [by exists o'|].
  destruct Hmark as (marked & Hm & Hst & _); [by vm_compute..|].
  by exists marked.
Defined.

(** ** Initialisation *)

Section Init.
Context (P : Platform).

Lemma write_cases f w r w1 :
  write f w = (r, w1) →
  (r = Ok tt ∧ f (db w) = Ok (db w1)) ∨ (∃ e, r = Throw e ∧ db w1 = db w).
Proof.
  destruct r as [[]|e]; intros H.
  - left. split; [done|]. by apply write_ok in H.
  - right. exists e. split; [done|]. by apply write_throw in H.
Qed.

Lemma meta_version_empty : meta_version ∅ = 0.
Proof. done. Qed.

Lemma meta_version_nonneg_insert (m : gmap Z jsval) v cl :
  meta_version m < v → meta_version m <= meta_version (<[v := cl]> m).
Proof. intros H. rewrite meta_version_insert_above by done. lia. Qed.

(** [initAPIDB] does not touch the users; it leaves a users meta table
    that has a record as it is; and it never lowers the orders
    version. *)
Lemma init_frame now w r w0 :
  initAPIDB P now w = (r, w0) →
  users (db w0) = users (db w) ∧
  (usersMeta (db w) ≠ ∅ → usersMeta (db w0) = usersMeta (db w)) ∧
  getOrdersMeta_version (db w) <= getOrdersMeta_version (db w0).
Proof.
  unfold initAPIDB, getOrdersMeta_version.
  unfold bind at 1. unfold read at 1.
  unfold bind at 1.
  destruct ((if bool_decide (size (usersMeta (db w)) = 0%nat)
             then write _ else ret tt) w) as [r1 w1] eqn:H1.
  assert (users (db w1) = users (db w) ∧
          (usersMeta (db w) ≠ ∅ → usersMeta (db w1) = usersMeta (db w)) ∧
          orders (db w1) = orders (db w) ∧
          ordersMeta (db w1) = ordersMeta (db w)) as (Hu1 & Hum1 & Ho1 & Hom1).
  { destruct (bool_decide_reflect (size (usersMeta (db w)) = 0%nat)) as [Hz | Hnz].
    - apply write_cases in H1 as [[_ Hput] | (e & _ & ->)]; [|done].
      unfold put_usersMeta in Hput. injection Hput as <-. simpl.
      split_and!; try done. intros Hne. by apply map_size_empty_iff in Hz.
    - unfold ret in H1. by injection H1 as _ <-. }
  destruct r1 as [[]|e1]; [|intros [= _ <-]; rewrite Hom1; split_and!; [done..|lia]].
  unfold bind at 1. unfold read at 1. unfold bind at 1.
  destruct ((if bool_decide (size (ordersMeta (db w1)) = 0%nat)
             then write _ else ret tt) w1) as [r2 w2] eqn:H2.
  assert (users (db w2) = users (db w1) ∧
          usersMeta (db w2) = usersMeta (db w1) ∧
          meta_version (ordersMeta (db w1)) <= meta_version (ordersMeta (db w2)))
    as (Hu2 & Hum2 & Hv2).
  { destruct (bool_decide_reflect (size (ordersMeta (db w1)) = 0%nat)) as [Hz | Hnz].
    - apply write_cases in H2 as [[_ Hput] | (e & _ & ->)]; [|done].
      unfold put_ordersMeta in Hput. injection Hput as <-. simpl.
      split_and!; try done. apply map_size_empty_iff in Hz. rewrite Hz.
      apply meta_version_nonneg_insert. by vm_compute.
    - unfold ret in H2. by injection H2 as _ <-. }
  rewrite Hom1 in *.
  destruct r2 as [[]|e2];
    [|intros [= _ <-]; rewrite Hu2, Hum2, Hu1; split_and!; done].
  unfold try_.
  destruct (markOrdersExpired_skipInit P now VUndef w2) as [r3 w3] eqn:H3.
  apply sweep_frame in H3.
  assert (users (db w3) = users (db w2) ∧ usersMeta (db w3) = usersMeta (db w2) ∧
          meta_version (ordersMeta (db w2)) <= meta_version (ordersMeta (db w3)))
    as (Hu3 & Hum3 & Hv3).
  { destruct H3 as [-> | (Hu & Hum & Hv & _)]; [done|].
    unfold getOrdersMeta_version in Hv. split_and!; [done..|lia]. }
  destruct r3; intros [= _ <-]; rewrite Hu3, Hum3, Hu2, Hum2, Hu1;
    (split_and!; [done..|lia]).
Qed.

End Init.

(** ** Users (C7) *)

Section Users.
Context (P : Platform).


Lemma meta_version_insert_nonempty (m : gmap Z jsval) v cl : <[v := cl]> m ≠ ∅.
Proof. apply insert_non_empty. Qed.

(** A successful [addUser]: the user is in the table under its code, and
    the users version is one more than after the initialisation step. *)
Lemma addUser_ok now fields w w0 v w1 c :
  initAPIDB P now w = (Ok tt, w0) →
  toInt (oget "code" fields) = Some c →
  addUser P now fields w = (Ok v, w1) →
  is_Some (users (db w1) !! c) ∧
  usersMeta (db w1) ≠ ∅ ∧
  getUsersMeta_version (db w1) = getUsersMeta_version (db w0) + 1.
Proof.
  intros Hinit Hc. unfold addUser.
  destruct (nullish fields); [done|].
  unfold bind at 1. rewrite Hinit, Hc.
  destruct (String.eqb _ ""); [done|].
  destruct (String.eqb _ ""); [done|].
  destruct (_ && _); [done|].
  intros H. apply bind_ok in H as ([] & wt & Htx & Hret).
  unfold ret in Hret. injection Hret as _ <-.
  apply -> @transaction_ok in Htx.
  apply bind_ok in Htx as (ex & wr & Hread & Hbody).
  unfold read in Hread. injection Hread as <- <-.
  destruct (users (db w0) !! c) eqn:Hfree; [done|].
  apply bind_ok in Hbody as ([] & wa & Hw & Hb).
  apply bind_ok in Hb as (v1 & wb & Hb & Hret).
  unfold ret in Hret. injection Hret as <-.
  apply write_ok, set_users_ok in Hw as (t & Hadd & Hu & Ho & Hum & Hom).
  apply bumpUsersVersion_ok in Hb as (-> & cl & _ & Hput).
  unfold put_usersMeta in Hput. injection Hput as Hdb. rewrite <- Hdb. simpl.
  unfold table_add in Hadd. simpl oget in Hadd.
  rewrite lookup_insert_eq in Hadd. simpl default in Hadd.
  rewrite key_of_VInt, Hfree in Hadd. injection Hadd as <-.
  rewrite Hu, lookup_insert_eq. split; [by eexists|].
  split; [apply insert_non_empty|].
  unfold getUsersMeta_version in *. simpl. rewrite Hum.
  apply meta_version_insert_above. lia.
Qed.



End Users.


(** White space outside ASCII is white space: it is trimmed and skipped,
    a name or a reason made of it is empty, and the hash reads a
    character of two bytes as one code unit. *)
Lemma white_space_outside_ascii :
  let user name :=
    VObj (<["code" := VInt 12]> (<["name" := VStr name]> (<["role" := VStr "admin"]> ∅))) in
  let w := sample_world [sample_order 7 0 "2024-01-01" 7 [sample_task 0]] in
  trim (nbsp ++ " Ana" ++ nbsp) = "Ana" ∧
  toInt (VStr (nbsp ++ "12")) = Some 12 ∧
  (addUser demo_platform 1000 (user nbsp) w).1 = Throw (Error "El nombre es obligatorio.") ∧
  (cancelOrder demo_platform 1000 (VInt 7) (VStr nbsp) (VStr "falla") w).1
  = Throw (Error "cancellation reason required") ∧
  simpleHash "é" = "e9".
Proof. cbv zeta. split_and!; by vm_compute. Qed.


(** ** Missing targets (C8) *)

Section NotFound.
Context (P : Platform).

Lemma init_then {A} now (body : M A) w w0 :
  initAPIDB P now w = (Ok tt, w0) → (initAPIDB P now ;; body) w = body w0.
Proof. intros H. unfold bind. by rewrite H. Qed.

(** [cancelOrder] on a code that is not in the table. *)
Lemma cancelOrder_not_found now orderCode reason detail w w0 c :
  initAPIDB P now w = (Ok tt, w0) →
  toInt orderCode = Some c → orders (db w0) !! c = None →
  cancelOrder P now orderCode reason detail w = (Throw (Error "order not found"), w0).
Proof.
  intros Hinit Hc Hk. unfold cancelOrder. rewrite (init_then _ _ _ _ Hinit), Hc.
  unfold bind, read. by rewrite Hk.
Qed.

Lemma saveOrderChecklist_not_found now orderCode checklistData w w0 c :
  initAPIDB P now w = (Ok tt, w0) →
  toInt orderCode = Some c → orders (db w0) !! c = None →
  saveOrderChecklist P now orderCode checklistData w = (Throw (Error "order not found"), w0).
Proof.
  intros Hinit Hc Hk. unfold saveOrderChecklist. rewrite (init_then _ _ _ _ Hinit), Hc.
  unfold bind, read. by rewrite Hk.
Qed.

(** [startOrderTask] and [completeOrderTask] on a missing order, and on
    an order without a task at the index. *)
Lemma startOrderTask_not_found now orderCode taskIndex w w0 c idx :
  initAPIDB P now w = (Ok tt, w0) →
  toInt orderCode = Some c → parseInt10 (String_ taskIndex) = Some idx → 0 <= idx →
  (orders (db w0) !! c = None →
   startOrderTask P now orderCode taskIndex w = (Throw (Error "order not found"), w0)) ∧
  (∀ order, orders (db w0) !! c = Some order → find_task order idx = None →
   startOrderTask P now orderCode taskIndex w = (Throw (Error "task not found"), w0)).
Proof.
  intros Hinit Hc Hidx Hpos. unfold startOrderTask.
  rewrite (init_then _ _ _ _ Hinit), Hc, Hidx.
  destruct (Z.ltb_spec idx 0) as [|_]; [lia|]. unfold bind, read. split.
  - by intros ->.
  - by intros order -> ->.
Qed.

Lemma completeOrderTask_not_found now orderCode taskIndex updates w w0 c idx :
  initAPIDB P now w = (Ok tt, w0) →
  toInt orderCode = Some c → parseInt10 (String_ taskIndex) = Some idx → 0 <= idx →
  (orders (db w0) !! c = None →
   completeOrderTask P now orderCode taskIndex updates w
   = (Throw (Error "order not found"), w0)) ∧
  (∀ order, orders (db w0) !! c = Some order → find_task order idx = None →
   completeOrderTask P now orderCode taskIndex updates w
   = (Throw (Error "task not found"), w0)).
Proof.
  intros Hinit Hc Hidx Hpos. unfold completeOrderTask.
  rewrite (init_then _ _ _ _ Hinit), Hc, Hidx.
  destruct (Z.ltb_spec idx 0) as [|_]; [lia|]. unfold bind, read. split.
  - by intros ->.
  - by intros order -> ->.
Qed.

(** [deleteUser] does not look the user up: whenever it returns, the
    users version has gone up by one, whether or not there was a user
    to delete. *)
Lemma deleteUser_ok now code w w0 v w1 c :
  initAPIDB P now w = (Ok tt, w0) →
  toInt code = Some c →
  deleteUser P now code w = (Ok v, w1) →
  users (db w1) = delete c (users (db w0)) ∧
  getUsersMeta_version (db w1) = getUsersMeta_version (db w0) + 1.
Proof.
  intros Hinit Hc. unfold deleteUser. rewrite (init_then _ _ _ _ Hinit), Hc.
  intros H. apply bind_ok in H as (v1 & wt & Htx & Hret).
  unfold ret in Hret. injection Hret as _ <-.
  apply users_transaction_ok in Htx as (t & [= <-] & Hu & _ & _ & Hv & _). done.
Qed.

End NotFound.

(** C8, at the input where the code departs from it: [deleteUser(999)]
    on a store without user 999 does not fail; it returns, and the
    users version goes from 1 to 2. *)
Theorem deleteUser_of_missing_user_succeeds :
  let w := sample_world [] in
  users (db w) !! 999 = None ∧
  ∃ w', deleteUser demo_platform 1000 (VInt 999) w = (Ok VUndef, w') ∧
        users (db w') = users (db w) ∧
        getUsersMeta_version (db w) = 1 ∧
        getUsersMeta_version (db w') = 2.
Proof.
  cbv zeta. split; [done|]. eexists. split; [by vm_compute|]. by vm_compute.
Qed.

(** ** Atomic writes (C1) *)

(** C1, at the input where the code departs from it.  [bulkUpsertOrders]
    writes the orders and bumps the version as two separate requests,
    outside any transaction: when the second one is rejected (here by a
    storage fault on the write that follows the first), the call fails,
    the order is in the table, and the orders version is unchanged.
    The same happens without any fault when the latest meta record
    holds a change log that cannot be spread (an object, which
    [applyOrdersSnapshot] stores as it receives it). *)
Theorem bulkUpsertOrders_is_not_atomic :
  let o := VObj (sample_order 7 0 "2024-01-01" 7 [sample_task 0]) in
  let w := {| db := db (sample_world []); fault := Some 1%nat |} in
  (orders (db w) !! 7 = None ∧
   ∃ w', bulkUpsertOrders demo_platform 1000 (VArr [o]) w = (Throw StorageFault, w') ∧
         is_Some (orders (db w') !! 7) ∧
         getOrdersMeta_version (db w') = getOrdersMeta_version (db w)) ∧
  let snapshot :=
    VObj (<["meta" := VObj (<["version" := VInt 5]> (<["changeLog" := VObj ∅]> ∅))]>
         (<["orders" := VArr []]> ∅)) in
  ∃ w1 w2,
    applyOrdersSnapshot demo_platform 1000 snapshot VUndef (sample_world []) = (Ok applied, w1) ∧
    fault w1 = None ∧
    bulkUpsertOrders demo_platform 2000 (VArr [o]) w1 = (Throw TypeError, w2) ∧
    orders (db w1) !! 7 = None ∧
    is_Some (orders (db w2) !! 7) ∧
    getOrdersMeta_version (db w2) = getOrdersMeta_version (db w1).
Proof.
  cbv zeta. split.
  - split; [done|]. eexists. split; [by vm_compute|]. split; [|by vm_compute].
    eexists. by vm_compute.
  - eexists _, _. split; [by vm_compute|]. split; [by vm_compute|].
    split; [by vm_compute|]. split; [by vm_compute|]. split; [|by vm_compute].
    eexists. by vm_compute.
Qed.

(** ** Snapshots: stale versions (C2) *)

Section Stale.
Context (P : Platform).

(** A numeric incoming version at most the local one is stale. *)
Lemma js_le_number incoming q localVer :
  oget "version" (oget "meta" incoming) = VNum q →
  (q <= inject_Z localVer)%Q →
  js_le P (incoming_version incoming) localVer = true.
Proof.
  intros Hv Hle. unfold js_le, incoming_version, js_or. rewrite Hv. simpl truthy.
  destruct (Qeq_bool q 0) eqn:Hz; simpl.
  - apply Qle_bool_iff. apply Qeq_bool_iff in Hz. by rewrite <- Hz.
  - by apply Qle_bool_iff.
Qed.

Lemma version_payload_not_nullish incoming q :
  oget "version" (oget "meta" incoming) = VNum q → nullish incoming = false.
Proof. by destruct incoming. Qed.

(** The version an accepted snapshot is stored under. *)
Lemma accepted_version incoming localVer v :
  js_le P (incoming_version incoming) localVer = false →
  key_of (incoming_version incoming) = Some v →
  localVer < v ∧ ∀ z, v <= z → js_le P (incoming_version incoming) z = true.
Proof.
  unfold js_le, key_of. destruct (incoming_version incoming) as [| | |q| | | |]; try done.
  simpl. destruct (Z.eqb_spec (Qnum q mod Z.pos (Qden q)) 0) as [Hmod|]; [|done].
  intros Hnle [= <-].
  assert (q == inject_Z (Qnum q / Z.pos (Qden q)))%Q as Hq.
  { unfold Qeq, inject_Z. simpl. rewrite Z.mul_1_r.
    pose proof (Z.div_mod (Qnum q) (Z.pos (Qden q))). lia. }
  split.
  - destruct (Z.ltb_spec localVer (Qnum q / Z.pos (Qden q))) as [|Hge]; [done|].
    exfalso. assert (Qle_bool q (inject_Z localVer) = true); [|congruence].
    apply Qle_bool_iff. rewrite Hq. rewrite <- Zle_Qle. lia.
  - intros z Hz. apply Qle_bool_iff. rewrite Hq. by rewrite <- Zle_Qle.
Qed.

(** The two initialisation steps of a snapshot function, and the
    local version it reads after them. *)
Lemma snapshot_init_users {A} now (k : option (Z * jsval) → M A) w w0 :
  snapshot_init P now w = (Ok tt, w0) →
  (initAPIDB P now ;; bind (getUsersMeta P now) k) w
  = k (meta_last (usersMeta (db w0))) w0.
Proof.
  unfold snapshot_init, getUsersMeta, bind, read.
  destruct (initAPIDB P now w) as [[[]|e] wi]; [|done].
  destruct (initAPIDB P now wi) as [[[]|e] wj]; [|done].
  by intros [= <-].
Qed.

Lemma snapshot_init_orders {A} now (k : option (Z * jsval) → M A) w w0 :
  snapshot_init P now w = (Ok tt, w0) →
  (initAPIDB P now ;; bind (getOrdersMeta P now) k) w
  = k (meta_last (ordersMeta (db w0))) w0.
Proof.
  unfold snapshot_init, getOrdersMeta, bind, read.
  destruct (initAPIDB P now w) as [[[]|e] wi]; [|done].
  destruct (initAPIDB P now wi) as [[[]|e] wj]; [|done].
  by intros [= <-].
Qed.

Lemma users_version_or_0 s : version_or_0 (meta_last (usersMeta s)) = getUsersMeta_version s.
Proof. done. Qed.

Lemma orders_version_or_0 s : version_or_0 (meta_last (ordersMeta s)) = getOrdersMeta_version s.
Proof. done. Qed.

(** The two steps do not touch the users; they leave a users meta table
    that has a record as it is, and never lower the orders version. *)
Lemma snapshot_init_frame now w r w0 :
  snapshot_init P now w = (r, w0) →
  users (db w0) = users (db w) ∧
  (usersMeta (db w) ≠ ∅ → usersMeta (db w0) = usersMeta (db w)) ∧
  getOrdersMeta_version (db w) <= getOrdersMeta_version (db w0).
Proof.
  unfold snapshot_init, bind.
  destruct (initAPIDB P now w) as [r1 wi] eqn:H1.
  destruct (init_frame P _ _ _ _ H1) as (Hu1 & Hum1 & Hv1).
  destruct r1 as [[]|e]; [|by intros [= _ <-]].
  intros H2. destruct (init_frame P _ _ _ _ H2) as (Hu2 & Hum2 & Hv2).
  split_and!.
  - by rewrite Hu2.
  - intros Hne. rewrite Hum2; rewrite Hum1; done.
  - lia.
Qed.

(** An accepted users snapshot leaves its version as the users
    version. *)
Lemma applyUsersSnapshot_ok now incoming w w0 v w1 :
  snapshot_init P now w = (Ok tt, w0) →
  applyUsersSnapshot P now incoming w = (Ok v, w1) →
  v = stale_version ∧ w1 = w0 ∨
  ∃ ver, key_of (incoming_version incoming) = Some ver ∧
         getUsersMeta_version (db w0) < ver ∧
         getUsersMeta_version (db w1) = ver ∧ usersMeta (db w1) ≠ ∅.
Proof.
  intros Hinit. unfold applyUsersSnapshot.
  destruct (nullish incoming); [done|].
  rewrite (snapshot_init_users _ _ _ _ Hinit), users_version_or_0.
  destruct (js_le P _ _) eqn:Hle; [intros [= <- <-]; by left|].
  intros H. right.
  apply bind_ok in H as ([] & wt & Htx & Hret).
  unfold ret in Hret. injection Hret as _ <-.
  apply -> @transaction_ok in Htx.
  apply bind_ok in Htx as ([] & wa & Hclear & Hrest).
  apply bind_ok in Hrest as ([] & wb & Hput & Hmeta).
  apply write_ok, set_users_ok in Hclear as (t & _ & _ & _ & Huma & _).
  assert (usersMeta (db wb) = usersMeta (db wa)) as Humb.
  { destruct (oget "users" incoming) as [| | | | | |[|u l]|];
      try (unfold ret in Hput; by injection Hput as <-).
    apply bind_ok in Hput as (records & wl & Hl & Hput).
    unfold lift in Hl. injection Hl as _ <-.
    by apply write_ok, set_users_ok in Hput as (t' & _ & _ & _ & ? & _). }
  apply write_ok in Hmeta. unfold put_meta_record in Hmeta.
  destruct (key_of (incoming_version incoming)) as [ver|] eqn:Hkey;
    [|by destruct (valid_key _)].
  unfold put_usersMeta in Hmeta. injection Hmeta as Hdb.
  destruct (accepted_version _ _ _ Hle Hkey) as [Hlt _].
  exists ver. split; [done|]. split; [done|].
  rewrite <- Hdb. unfold getUsersMeta_version in *. simpl.
  rewrite Humb, Huma. split; [|apply insert_non_empty].
  by apply meta_version_insert_above.
Qed.

Lemma scopedRemoval_frame context keep w r w' :
  scopedRemoval P context keep w = (r, w') →
  users (db w') = users (db w) ∧ usersMeta (db w') = usersMeta (db w) ∧
  ordersMeta (db w') = ordersMeta (db w).
Proof.
  unfold scopedRemoval. destruct (scope_of context) as [scope|]; [|by intros [= _ <-]].
  unfold bind, read.
  destruct (codes_to_remove P scope keep (orders (db w))); [by intros [= _ <-]|].
  intros H. apply write_cases in H as [[_ H] | (e & _ & ->)]; [|done].
  by apply set_orders_ok in H as (t & _ & _ & ? & ? & ?).
Qed.

(** The steps of an accepted orders snapshot. *)
Lemma applyOrdersSnapshot_accepted now incoming context w w0 w1 :
  snapshot_init P now w = (Ok tt, w0) →
  applyOrdersSnapshot P now incoming context w = (Ok applied, w1) →
  ∃ normalized wa wb ver,
    normalized_orders (oget "orders" incoming) = Ok normalized ∧
    scopedRemoval P (with_default (VObj ∅) context)
      (list_to_set (omap (λ order, toInt (oget "code" (VObj order))) normalized)) w0
      = (Ok tt, wa) ∧
    (normalized = [] ∧ wb = wa ∨
     normalized ≠ [] ∧ write (set_orders (table_bulkPut normalized)) wa = (Ok tt, wb)) ∧
    key_of (incoming_version incoming) = Some ver ∧
    getOrdersMeta_version (db w0) < ver ∧
    put_ordersMeta ver (js_or (oget "changeLog" (oget "meta" incoming)) (VArr [])) (db wb)
      = Ok (db w1).
Proof.
  intros Hinit. unfold applyOrdersSnapshot.
  destruct (nullish incoming); [done|].
  rewrite (snapshot_init_orders _ _ _ _ Hinit), orders_version_or_0.
  destruct (js_le P _ _) eqn:Hle; [by intros [= ? _]|].
  intros H. apply bind_ok in H as (normalized & wn & Hn & H).
  unfold lift in Hn. injection Hn as Hn <-.
  apply bind_ok in H as ([] & wt & Htx & Hret).
  unfold ret in Hret. injection Hret as <-.
  apply -> @transaction_ok in Htx.
  apply bind_ok in Htx as ([] & wa & Hrem & Hrest).
  apply bind_ok in Hrest as ([] & wb & Hput & Hmeta).
  apply write_ok in Hmeta. unfold put_meta_record in Hmeta.
  destruct (key_of (incoming_version incoming)) as [ver|] eqn:Hkey;
    [|by destruct (valid_key _)].
  destruct (accepted_version _ _ _ Hle Hkey) as [Hlt _].
  exists normalized, wa, wb, ver. split_and!; try done.
  destruct normalized; [left | right; by split].
  unfold ret in Hput. by injection Hput as <-.
Qed.

Lemma applyOrdersSnapshot_ok now incoming context w w0 v w1 :
  snapshot_init P now w = (Ok tt, w0) →
  applyOrdersSnapshot P now incoming context w = (Ok v, w1) →
  v = stale_version ∧ w1 = w0 ∨
  ∃ ver, v = applied ∧ key_of (incoming_version incoming) = Some ver ∧
         getOrdersMeta_version (db w0) < ver ∧
         getOrdersMeta_version (db w1) = ver.
Proof.
  intros Hinit Hrun.
  assert (v = stale_version ∧ w1 = w0 ∨ v = applied) as [? | ->]; [|by left|].
  { revert Hrun. unfold applyOrdersSnapshot.
    destruct (nullish incoming); [done|].
    rewrite (snapshot_init_orders _ _ _ _ Hinit), orders_version_or_0.
    destruct (js_le P _ _); [intros [= <- <-]; by left|].
    intros H. apply bind_ok in H as (normalized & wn & _ & H).
    apply bind_ok in H as ([] & wt & _ & Hret).
    unfold ret in Hret. injection Hret as <- _. by right. }
  right.
  destruct (applyOrdersSnapshot_accepted _ _ _ _ _ _ Hinit Hrun)
    as (normalized & wa & wb & ver & _ & Hrem & Hput & Hkey & Hlt & Hmeta).
  exists ver. split_and!; try done.
  apply scopedRemoval_frame in Hrem as (_ & _ & Hom).
  assert (ordersMeta (db wb) = ordersMeta (db wa)) as Homb.
  { destruct Hput as [[_ ->] | [_ Hput]]; [done|].
    by apply write_ok, set_orders_ok in Hput as (t & _ & _ & _ & _ & ?). }
  unfold put_ordersMeta in Hmeta. injection Hmeta as Hdb.
  rewrite <- Hdb. unfold getOrdersMeta_version in *. simpl.
  rewrite Homb, Hom. by apply meta_version_insert_above.
Qed.

(** C2 (as amended).  A snapshot whose version is at most the local
    version is rejected: [applyUsersSnapshot] and [applyOrdersSnapshot]
    return [{ applied: false, reason: "stale-version" }] and write
    nothing of their own.  The store is then as the initialisation the
    call starts with left it ([w0]: [initAPIDB], run by the function and
    again by the meta getter it calls): the users are those of the
    store the call was given and so is their meta table unless it was
    empty, while the expiration sweep of the initialisation may have
    rewritten due orders and raised the orders version.  On the stores
    of the model, whose versions are integers, a snapshot with an
    integer version that has been applied is rejected as stale when it
    is applied again. *)
Theorem stale_snapshot_is_rejected now incoming context w w0 q :
  snapshot_init P now w = (Ok tt, w0) →
  oget "version" (oget "meta" incoming) = VNum q →
  ((q <= inject_Z (getUsersMeta_version (db w0)))%Q →
   applyUsersSnapshot P now incoming w = (Ok stale_version, w0)) ∧
  ((q <= inject_Z (getOrdersMeta_version (db w0)))%Q →
   applyOrdersSnapshot P now incoming context w = (Ok stale_version, w0)) ∧
  (users (db w0) = users (db w) ∧
   (usersMeta (db w) ≠ ∅ → usersMeta (db w0) = usersMeta (db w)) ∧
   getOrdersMeta_version (db w) <= getOrdersMeta_version (db w0)) ∧
  (∀ ver w1 now2 w2,
     key_of (incoming_version incoming) = Some ver →
     applyUsersSnapshot P now incoming w = (Ok applied, w1) →
     snapshot_init P now2 w1 = (Ok tt, w2) →
     applyUsersSnapshot P now2 incoming w1 = (Ok stale_version, w2)) ∧
  (∀ ver w1 now2 w2,
     key_of (incoming_version incoming) = Some ver →
     applyOrdersSnapshot P now incoming context w = (Ok applied, w1) →
     snapshot_init P now2 w1 = (Ok tt, w2) →
     applyOrdersSnapshot P now2 incoming context w1 = (Ok stale_version, w2)).
Proof.
  intros Hinit Hv. pose proof (version_payload_not_nullish _ _ Hv) as Hn.
  split_and!; [| |by apply (snapshot_init_frame _ _ _ _ Hinit)..| |].
  - intros Hle. unfold applyUsersSnapshot.
    rewrite Hn, (snapshot_init_users _ _ _ _ Hinit), users_version_or_0.
    by rewrite (js_le_number _ _ _ Hv Hle).
  - intros Hle. unfold applyOrdersSnapshot.
    rewrite Hn, (snapshot_init_orders _ _ _ _ Hinit), orders_version_or_0.
    by rewrite (js_le_number _ _ _ Hv Hle).
  - intros _ w1 now2 w2 _ Hfirst Hinit2.
    destruct (applyUsersSnapshot_ok _ _ _ _ _ _ Hinit Hfirst)
      as [[? _] | (ver & Hkey & Hlt & Hver & Hne)]; [done|].
    destruct (snapshot_init_frame _ _ _ _ Hinit2) as (_ & Hum & _). specialize (Hum Hne).
    unfold applyUsersSnapshot.
    rewrite Hn, (snapshot_init_users _ _ _ _ Hinit2), users_version_or_0.
    assert (js_le P (incoming_version incoming) (getUsersMeta_version (db w2)) = true)
      as ->; [|done].
    assert (js_le P (incoming_version incoming) (getUsersMeta_version (db w0)) = false)
      as Hnle.
    { revert Hfirst. unfold applyUsersSnapshot.
      rewrite Hn, (snapshot_init_users _ _ _ _ Hinit), users_version_or_0.
      by destruct (js_le P _ _). }
    destruct (accepted_version _ _ _ Hnle Hkey) as [_ Hle]. apply Hle.
    unfold getUsersMeta_version in *. rewrite Hum. lia.
  - intros _ w1 now2 w2 _ Hfirst Hinit2.
    destruct (applyOrdersSnapshot_ok _ _ _ _ _ _ _ Hinit Hfirst)
      as [[? _] | (ver & _ & Hkey & Hlt & Hver)]; [done|].
    destruct (snapshot_init_frame _ _ _ _ Hinit2) as (_ & _ & Hmono).
    unfold applyOrdersSnapshot.
    rewrite Hn, (snapshot_init_orders _ _ _ _ Hinit2), orders_version_or_0.
    assert (js_le P (incoming_version incoming) (getOrdersMeta_version (db w2)) = true)
      as ->; [|done].
    assert (js_le P (incoming_version incoming) (getOrdersMeta_version (db w0)) = false)
      as Hnle.
    { revert Hfirst. unfold applyOrdersSnapshot.
      rewrite Hn, (snapshot_init_orders _ _ _ _ Hinit), orders_version_or_0.
      by destruct (js_le P _ _). }
    destruct (accepted_version _ _ _ Hnle Hkey) as [_ Hle]. apply Hle. lia.
Qed.

End Stale.

(** A stale call is not without effect on the store: order 1 is due
    since 2024-01-12, and a users snapshot of version 1, offered on the
    13th to a store at version 1, is rejected as stale by a call whose
    initialisation has marked the order expired and raised the orders
    version. *)
Lemma stale_snapshot_call_rewrites_due_orders :
  let o := sample_order 1 0 "2024-01-01" 7 [sample_task 0] in
  let w := sample_world [o] in
  let snapshot :=
    VObj (<["meta" := VObj (<["version" := VInt 1]> ∅)]> (<["users" := VArr []]> ∅)) in
  ∃ w' o',
    applyUsersSnapshot demo_platform (midnight 2024 1 13) snapshot w
      = (Ok stale_version, w') ∧
    orders (db w) !! 1 = Some o ∧
    orders (db w') !! 1 = Some o' ∧
    oget "status" (oget "info" (VObj o)) = VInt 0 ∧
    oget "status" (oget "info" (VObj o')) = VInt 4 ∧
    getOrdersMeta_version (db w') = getOrdersMeta_version (db w) + 1.
Proof.
  cbv zeta. eexists _, _. split; [by vm_compute|]. split_and!; by vm_compute.
Qed.

(** The scenario of the specification, on a store with an order that is
    due: a snapshot of version 1 offered on the 13th to a store at
    version 1 is rejected, and the store is the one the initialisation
    left. *)
Lemma stale_snapshot_is_rejected_witness :
  let o := sample_order 1 0 "2024-01-01" 7 [sample_task 0] in
  let w := sample_world [o] in
  let now := midnight 2024 1 13 in
  let snapshot :=
    VObj (<["meta" := VObj (<["version" := VInt 1]> ∅)]>
         (<["orders" := VArr [VObj (sample_order 7 0 "2024-01-01" 7 [])]]> ∅)) in
  ∃ w0,
    snapshot_init demo_platform now w = (Ok tt, w0) ∧
    applyOrdersSnapshot demo_platform now snapshot
      (VObj (<["userCode" := VInt 42]> ∅)) w = (Ok stale_version, w0) ∧
    applyUsersSnapshot demo_platform now snapshot w = (Ok stale_version, w0) ∧
    users (db w0) = users (db w).
Proof.
  cbv zeta.
  set (o := sample_order 1 0 _ _ _). set (w := sample_world [o]).
  set (now := midnight 2024 1 13). set (snapshot := VObj _).
  destruct (snapshot_init demo_platform now w) as [r w0] eqn:Hinit.
  assert (r = Ok tt) as ->.
  { change r with (r, w0).1. rewrite <- Hinit. by vm_compute. }
  assert (getUsersMeta_version (db w0) = 1 ∧ getOrdersMeta_version (db w0) = 2)
    as [Hu Ho].
  { assert (db w0 = db (snapshot_init demo_platform now w).2) as -> by by rewrite Hinit.
    split; by vm_compute. }
  destruct (stale_snapshot_is_rejected demo_platform now snapshot
              (VObj (<["userCode" := VInt 42]> ∅)) w w0 (inject_Z 1) Hinit eq_refl)
    as (Hus & Hos & (Hframe & _) & _).
  exists w0. split; [done|]. split; [|split; [|done]].
  - apply Hos. rewrite Ho. by vm_compute.
  - apply Hus. rewrite Hu. by vm_compute.
Defined.

(** ** Snapshots: accepted orders (C3) *)

Section Accepted.
Context (P : Platform).







End Accepted.



(** ** Completing a task: duration and hours (C6) *)

Section Durations.
Context (P : Platform).






End Durations.


(** ** Legacy offsets and the flexible parser (C9) *)

Section Offsets.
Context (P : Platform).

Lemma span_digits_app (ds : list ascii) c rest :
  forallb is_digit ds = true → is_digit c = false →
  span_digits (ds ++ c :: rest) = (ds, c :: rest).
Proof.
  intros Hds Hc. induction ds as [|d ds IH]; simpl.
  - by rewrite Hc.
  - simpl in Hds. apply andb_true_iff in Hds as [Hd Hds]. by rewrite Hd, (IH Hds).
Qed.

Lemma is_sign_spec s :
  is_sign s = true → is_digit s = false ∧ Ascii.eqb s ":" = false.
Proof.
  unfold is_sign. intros [H | H]%orb_true_iff; apply Ascii.eqb_eq in H; by subst s.
Qed.

(** The fractional offset at the end of a string is matched whole. *)
Lemma match_offset_fractional s h1 h2 (mm ff : list ascii) :
  is_sign s = true → is_digit h1 = true → is_digit h2 = true →
  mm ≠ [] → forallb is_digit mm = true → ff ≠ [] → forallb is_digit ff = true →
  match_offset (s :: h1 :: h2 :: ":"%char :: mm ++ "."%char :: ff)
  = Some ([s; h1; h2], mm, ff, []).
Proof.
  intros Hs H1 H2 Hmm Hmmd Hff Hffd. unfold match_offset.
  rewrite Hs, H1, H2. simpl andb.
  rewrite span_digits_app by done. destruct mm as [|m mm]; [done|].
  simpl Ascii.eqb. rewrite span_digits_all by done.
  destruct ff; [exfalso; by apply Hff | done].
Qed.

(** No match starts in a prefix free of offset heads, whatever sign
    follows it. *)
Lemma match_offset_prefix c (p : list ascii) s rest :
  offset_head (c :: p) = false → is_sign s = true →
  match_offset (c :: p ++ s :: rest) = None.
Proof.
  intros Hhead Hs. destruct (is_sign_spec s Hs) as [Hd Hc].
  unfold match_offset.
  destruct p as [|a [|b [|d p]]]; simpl app.
  - destruct rest as [|r1 [|r2 rest]]; try done.
    cbv beta iota. by rewrite Hd, andb_false_r.
  - destruct rest as [|r1 rest]; [done|].
    cbv beta iota. by rewrite Hd, andb_false_r.
  - cbv beta iota. by rewrite Hc, andb_false_r.
  - cbv beta iota. simpl in Hhead. by rewrite Hhead.
Qed.

Lemma replace_offsets_nil fuel : replace_offsets P fuel [] = [].
Proof. by destruct fuel. Qed.

Lemma replace_offsets_fractional (p : list ascii) s h1 h2 (mm ff : list ascii) : ∀ fuel,
  (length p < fuel)%nat → no_offset_head_in p = true →
  is_sign s = true → is_digit h1 = true → is_digit h2 = true →
  mm ≠ [] → forallb is_digit mm = true → ff ≠ [] → forallb is_digit ff = true →
  replace_offsets P fuel (p ++ s :: h1 :: h2 :: ":"%char :: mm ++ "."%char :: ff)
  = (p ++ s :: h1 :: h2 :: ":"%char :: padNumber2 (normalizedMinutes P mm ff))%list.
Proof.
  induction p as [|c p IH]; intros fuel Hfuel Hp Hs H1 H2 Hmm Hmmd Hff Hffd.
  - destruct fuel as [|fuel]; [simpl in Hfuel; lia|].
    simpl app. cbn [replace_offsets].
    rewrite match_offset_fractional by done.
    by rewrite replace_offsets_nil, app_nil_r.
  - destruct fuel as [|fuel]; [simpl in Hfuel; lia|].
    simpl in Hp. apply andb_true_iff in Hp as [Hhead Hp].
    apply negb_true_iff in Hhead.
    rewrite <- app_comm_cons. cbn [replace_offsets].
    rewrite match_offset_prefix by done.
    rewrite IH; [done | simpl in Hfuel; lia | done..].
Qed.

Lemma test_offset_fractional (p : list ascii) s h1 h2 (mm ff : list ascii) :
  is_sign s = true → is_digit h1 = true → is_digit h2 = true →
  mm ≠ [] → forallb is_digit mm = true →
  test_offset (p ++ s :: h1 :: h2 :: ":"%char :: mm ++ "."%char :: ff) = true.
Proof.
  intros Hs H1 H2 Hmm Hmmd. induction p as [|c p IH].
  - simpl app. cbn [test_offset]. rewrite Hs, H1, H2. simpl andb.
    rewrite span_digits_app by done.
    destruct mm; [exfalso; by apply Hmm | done].
  - rewrite <- app_comm_cons. cbn [test_offset]. rewrite IH. apply orb_true_r.
Qed.

Lemma normalizedMinutes_range mm ff : 0 <= normalizedMinutes P mm ff <= 59.
Proof. unfold normalizedMinutes. destruct (StringToNumber P _); lia. Qed.

(** Two characters for every minute value in range. *)
Lemma padNumber2_length n : 0 <= n <= 59 → length (padNumber2 n) = 2%nat.
Proof.
  intros Hn. rewrite <- (Z2Nat.id n) by lia.
  assert (Z.to_nat n < 60)%nat as Hlt by lia.
  revert Hlt. generalize (Z.to_nat n) as k. intros k Hlt.
  do 60 (destruct k as [|k]; [by vm_compute|]). lia.
Qed.

(** What trimming takes off is made of bytes it may take off. *)
Lemma skip_spaces_split back : ∀ n (l : list ascii),
  (length l <= n)%nat →
  ∃ a, l = (a ++ skip_spaces back l)%list ∧ Forall (λ c, blank_byte c = true) a.
Proof.
  induction n as [|n IH]; intros l Hlen.
  { destruct l; [|simpl in Hlen; lia]. by exists []. }
  assert (∃ a, l = (a ++ l)%list ∧ Forall (λ c, blank_byte c = true) a) as Hstay
    by (by exists []).
  destruct l as [|c1 tl1]; [by exists []|]. simpl in Hlen.
  cbn [skip_spaces].
  destruct (is_space c1) eqn:E1.
  { destruct (IH tl1 ltac:(lia)) as (a & Ha & Hb).
    exists (c1 :: a). split; [by rewrite <- app_comm_cons, <- Ha|].
    constructor; [|done]. unfold blank_byte. by rewrite E1. }
  destruct tl1 as [|c2 tl2]; [exact Hstay|]. simpl in Hlen.
  destruct (if back then is_space2 c2 c1 else is_space2 c1 c2) eqn:E2.
  { destruct (IH tl2 ltac:(lia)) as (a & Ha & Hb).
    exists (c1 :: c2 :: a). split; [by rewrite <- !app_comm_cons, <- Ha|].
    assert (is_plain c1 = false ∧ is_plain c2 = false) as [H1 H2].
    { destruct back; apply is_space2_plain in E2; tauto. }
    repeat constructor; [unfold blank_byte; by rewrite ?H1, ?H2, orb_true_r..|done]. }
  destruct tl2 as [|c3 tl3]; [exact Hstay|]. simpl in Hlen.
  destruct (if back then is_space3 c3 c2 c1 else is_space3 c1 c2 c3) eqn:E3;
    [|exact Hstay].
  destruct (IH tl3 ltac:(lia)) as (a & Ha & Hb).
  exists (c1 :: c2 :: c3 :: a). split; [by rewrite <- !app_comm_cons, <- Ha|].
  assert (is_plain c1 = false ∧ is_plain c2 = false ∧ is_plain c3 = false)
    as (H1 & H2 & H3).
  { destruct back; apply is_space3_plain in E3; tauto. }
  repeat constructor; [unfold blank_byte; by rewrite ?H1, ?H2, ?H3, orb_true_r..|done].
Qed.

(** A string is what trimming leaves of it, between blank bytes. *)
Lemma trim_chars_split (l : list ascii) :
  ∃ a b, l = (a ++ trim_chars l ++ b)%list ∧
         Forall (λ c, blank_byte c = true) a ∧ Forall (λ c, blank_byte c = true) b.
Proof.
  unfold trim_chars, trim_left.
  destruct (skip_spaces_split false _ l (le_n _)) as (a & Ha & Hab).
  destruct (skip_spaces_split true _ (rev (skip_spaces false l)) (le_n _))
    as (b & Hb & Hbb).
  exists a, (rev b). split; [|split; [done | by apply Forall_rev]].
  apply (f_equal (@rev _)) in Hb. rewrite rev_involutive, rev_app_distr in Hb.
  by rewrite <- Hb.
Qed.

Lemma blank_spec c :
  blank_byte c = true → is_sign c = false ∧ is_digit c = false ∧ Ascii.eqb c "." = false.
Proof.
  destruct c as [[] [] [] [] [] [] [] []]; vm_compute; intros H; try done.
Qed.

Lemma is_digit_sign c : is_digit c = true → is_sign c = false.
Proof.
  destruct c as [[] [] [] [] [] [] [] []]; vm_compute; intros H; try done.
Qed.

Lemma test_offset_unfold c (l : list ascii) :
  test_offset (c :: l)
  = match l with
    | h1 :: h2 :: d :: tl =>
        is_sign c && is_digit h1 && is_digit h2 && Ascii.eqb d ":"
        && match span_digits tl with
           | (_ :: _, e :: _) => Ascii.eqb e "."
           | _ => false
           end
    | _ => false
    end || test_offset l.
Proof. done. Qed.

(** No offset is found where no sign is. *)
Lemma test_offset_cons c (l : list ascii) :
  is_sign c = false → test_offset (c :: l) = test_offset l.
Proof.
  intros Hc. cbn [test_offset]. rewrite Hc.
  by destruct l as [|h1 [|h2 [|d tl]]].
Qed.

Lemma test_offset_unsigned (a l : list ascii) :
  Forall (λ c, is_sign c = false) a → test_offset (a ++ l) = test_offset l.
Proof.
  induction 1 as [|c a Hc _ IH]; [done|].
  by rewrite <- app_comm_cons, test_offset_cons.
Qed.

Lemma span_digits_blank (ds b : list ascii) :
  forallb is_digit ds = true → Forall (λ c, blank_byte c = true) b →
  span_digits (ds ++ b) = (ds, b).
Proof.
  intros Hds Hb. induction ds as [|d ds IH]; simpl.
  - destruct Hb as [|c b Hc _]; [done|].
    simpl. by rewrite (proj1 (proj2 (blank_spec c Hc))).
  - simpl in Hds. apply andb_true_iff in Hds as [Hd Hds]. by rewrite Hd, (IH Hds).
Qed.

(** An offset whose minutes carry no fraction does not meet the test of
    [sanitizeLegacyOffsetString], whatever blank bytes follow it. *)
Lemma test_offset_no_fraction (p : list ascii) s h1 h2 (mm b : list ascii) :
  no_offset_head_in p = true →
  is_sign s = true → is_digit h1 = true → is_digit h2 = true →
  forallb is_digit mm = true → Forall (λ c, blank_byte c = true) b →
  test_offset (p ++ s :: h1 :: h2 :: ":"%char :: mm ++ b) = false.
Proof.
  intros Hp Hs H1 H2 Hmm Hb. destruct (is_sign_spec s Hs) as [Hsd Hsc].
  induction p as [|c p IH].
  - assert (test_offset (h1 :: h2 :: ":"%char :: mm ++ b) = false) as Htail.
    { change (h1 :: h2 :: ":"%char :: mm ++ b)%list
        with ([h1; h2; ":"%char] ++ mm ++ b)%list.
      rewrite test_offset_unsigned
        by (repeat constructor; auto using is_digit_sign).
      rewrite test_offset_unsigned.
      + rewrite <- (app_nil_r b). rewrite test_offset_unsigned; [done|].
        eapply Forall_impl; [exact Hb|]. intros c Hc. apply (blank_spec c Hc).
      + clear -Hmm. induction mm as [|m mm IH]; [constructor|].
        simpl in Hmm. apply andb_true_iff in Hmm as [Hm Hmm].
        constructor; auto using is_digit_sign. }
    simpl app. rewrite test_offset_unfold, Htail, orb_false_r.
    rewrite span_digits_blank by done.
    destruct mm as [|m mm']; [by rewrite andb_false_r|].
    destruct Hb as [|d b Hd _]; [by rewrite andb_false_r|].
    by rewrite (proj2 (proj2 (blank_spec d Hd))), andb_false_r.
  - simpl in Hp. apply andb_true_iff in Hp as [Hhead Hp].
    apply negb_true_iff in Hhead.
    rewrite <- app_comm_cons. cbn [test_offset]. rewrite (IH Hp), orb_false_r.
    destruct p as [|x [|y [|z p]]]; simpl app; cbv beta iota.
    + by rewrite Hsd, !andb_false_r.
    + by rewrite Hsd, !andb_false_r.
    + by rewrite Hsc, !andb_false_r.
    + simpl in Hhead. by rewrite Hhead.
Qed.

Lemma trim_split (padded : string) (r : list ascii) :
  trim padded = string_of_list_ascii r →
  ∃ a b, list_ascii_of_string padded = (a ++ r ++ b)%list ∧
         Forall (λ c, blank_byte c = true) a ∧ Forall (λ c, blank_byte c = true) b.
Proof.
  unfold trim. intros H. apply (f_equal list_ascii_of_string) in H.
  rewrite !list_ascii_of_string_of_list_ascii in H.
  destruct (trim_chars_split (list_ascii_of_string padded)) as (a & b & Hab & Ha & Hb).
  exists a, b. by rewrite <- H.
Qed.

(** C9 (as amended).  In a timestamp that, once trimmed, ends with an
    offset whose minutes carry a fraction, [+HH:MM.FFF], and in which
    no other offset starts, the sanitizer
    replaces the minutes by the integer part of the number [MM.FFF],
    clamped into 0..59 and written with two digits, and drops the
    fraction; the parser returns what the engine reads of the trimmed
    timestamp as written, else what it reads of the sanitized one, else
    what [parseChileDateString] reads.  The same timestamp with the
    offset [+HH:MM], without a fraction, is not sanitized whatever the
    minutes are: when the engine rejects it the parser returns what
    [parseChileDateString] reads of the value as it was given.  The
    parser gives [null] exactly on: a value that is no number within the
    range of time values, that, if it is a string not empty once
    trimmed, the engine reads neither as trimmed nor as sanitized, and
    that [parseChileDateString] does not read once sanitized. *)
Theorem fractional_offset_is_clamped (pre : list ascii) s h1 h2 (mm ff : list ascii) :
  let raw :=
    string_of_list_ascii (pre ++ s :: h1 :: h2 :: ":"%char :: mm ++ "."%char :: ff) in
  let plain :=
    string_of_list_ascii (pre ++ s :: h1 :: h2 :: ":"%char :: mm) in
  let minutes := normalizedMinutes P mm ff in
  let clamped :=
    string_of_list_ascii (pre ++ s :: h1 :: h2 :: ":"%char :: padNumber2 minutes) in
  no_offset_head_in pre = true →
  is_sign s = true → is_digit h1 = true → is_digit h2 = true →
  mm ≠ [] → forallb is_digit mm = true → ff ≠ [] → forallb is_digit ff = true →
  0 <= minutes <= 59 ∧
  length (padNumber2 minutes) = 2%nat ∧
  (∀ q, StringToNumber P (string_of_list_ascii (mm ++ "."%char :: ff)) = Some q →
        minutes = Z.max 0 (Z.min 59 (Math_trunc q))) ∧
  sanitize_string P raw = clamped ∧
  (∀ padded, trim padded = raw →
     parseFlexibleDate P (VStr padded)
     = match DateParse P raw with
       | Some t => Some t
       | None =>
           match DateParse P clamped with
           | Some t => Some t
           | None => parseChileDateString P (sanitizeLegacyOffsetString P (VStr padded))
           end
       end) ∧
  sanitize_string P plain = plain ∧
  (∀ padded, trim padded = plain →
     sanitizeLegacyOffsetString P (VStr padded) = VStr padded ∧
     parseFlexibleDate P (VStr padded)
     = match DateParse P plain with
       | Some t => Some t
       | None => parseChileDateString P (VStr padded)
       end) ∧
  (∀ v, parseFlexibleDate P v = None ↔
        (∀ q, v = VNum q → (inject_Z max_time < Qabs q)%Q) ∧
        (∀ str, v = VStr str → trim str ≠ "" →
                DateParse P (trim str) = None ∧
                DateParse P (sanitize_string P (trim str)) = None) ∧
        parseChileDateString P (sanitizeLegacyOffsetString P v) = None).
Proof.
  intros raw plain minutes clamped Hpre Hs H1 H2 Hmm Hmmd Hff Hffd.
  assert (sanitize_string P raw = clamped) as Hsan.
  { unfold sanitize_string, raw, clamped.
    rewrite list_ascii_of_string_of_list_ascii.
    rewrite test_offset_fractional by done.
    rewrite replace_offsets_fractional; [done | | done..].
    rewrite length_app. simpl. lia. }
  assert (sanitize_string P plain = plain) as Hplain.
  { unfold sanitize_string, plain.
    rewrite list_ascii_of_string_of_list_ascii.
    rewrite <- (app_nil_r mm).
    by rewrite test_offset_no_fraction. }
  pose proof (normalizedMinutes_range mm ff) as Hrange.
  split; [done|]. split; [by apply padNumber2_length|]. split.
  { intros q Hq. unfold minutes, normalizedMinutes. by rewrite Hq. }
  split; [done|]. split; [|split; [done|split]].
  - intros padded Htrim. unfold parseFlexibleDate.
    rewrite Htrim, Hsan.
    assert (String.eqb raw "" = false) as ->.
    { unfold raw. by destruct pre. }
    assert (String.eqb clamped raw = false) as ->.
    { apply String.eqb_neq. intros Heq.
      apply (f_equal list_ascii_of_string) in Heq. unfold clamped, raw in Heq.
      rewrite !list_ascii_of_string_of_list_ascii in Heq.
      apply app_inv_head in Heq. injection Heq as Heq.
      apply (f_equal (@length _)) in Heq.
      rewrite padNumber2_length, length_app in Heq by done.
      destruct mm as [|m1 [|m2 mm']]; [done| |]; simpl in Heq.
      - destruct ff; [done|]. simpl in Heq. lia.
      - lia. }
    simpl map.
    destruct (DateParse P raw) as [t1|]; [done|].
    by destruct (DateParse P clamped) as [t2|].
  - intros padded Htrim.
    assert (sanitize_string P padded = padded) as Hpad.
    { unfold sanitize_string.
      destruct (trim_split padded _ Htrim) as (a & b & -> & Ha & Hb).
      rewrite test_offset_unsigned.
      - rewrite <- !app_assoc, <- !app_comm_cons.
        by rewrite test_offset_no_fraction.
      - eapply Forall_impl; [exact Ha|]. intros c Hc. apply (blank_spec c Hc). }
    split; [simpl; by rewrite Hpad|].
    unfold parseFlexibleDate. rewrite Htrim, Hplain.
    assert (String.eqb plain "" = false) as ->.
    { unfold plain. by destruct pre. }
    rewrite String.eqb_refl. simpl map.
    destruct (DateParse P plain) as [t1|]; [done|].
    simpl. by rewrite Hpad.
  - intros v. unfold parseFlexibleDate.
    destruct v as [| | |q| |str| |];
      try (split; [intros H; split_and!; [by intros | by intros |exact H]
                  | by intros (_ & _ & H)]).
    + destruct (Qle_bool (Qabs q) (inject_Z max_time)) eqn:E.
      * split; [done|]. intros (Hq & _ & _).
        apply Qle_bool_iff in E. specialize (Hq q eq_refl).
        by apply Qlt_not_le in Hq.
      * split.
        -- intros H. split_and!; [|by intros|exact H].
           intros q' [= <-]. apply Qnot_le_lt. intros Hle.
           apply Qle_bool_iff in Hle. congruence.
        -- by intros (_ & _ & H).
    + destruct (String.eqb (trim str) "") eqn:E.
      * apply String.eqb_eq in E. split.
        -- intros H. split_and!; [by intros | |exact H].
           intros str' [= <-] Hne. done.
        -- by intros (_ & _ & H).
      * apply String.eqb_neq in E.
        destruct (String.eqb (sanitize_string P (trim str)) (trim str)) eqn:E2.
        -- apply String.eqb_eq in E2. simpl map.
           destruct (DateParse P (trim str)) as [t1|] eqn:E3.
           ++ split; [done|]. intros (_ & Hstr & _).
              destruct (Hstr str eq_refl E) as [Hn _]. congruence.
           ++ split.
              ** intros H. split_and!; [by intros | |exact H].
                 intros str' [= <-] _. by rewrite E2.
              ** by intros (_ & _ & H).
        -- simpl map.
           destruct (DateParse P (trim str)) as [t1|] eqn:E3.
           ++ split; [done|]. intros (_ & Hstr & _).
              destruct (Hstr str eq_refl E) as [Hn _]. congruence.
           ++ destruct (DateParse P (sanitize_string P (trim str))) as [t2|] eqn:E4.
              ** split; [done|]. intros (_ & Hstr & _).
                 destruct (Hstr str eq_refl E) as [_ Hn]. congruence.
              ** split.
                 --- intros H. split_and!; [by intros | |exact H].
                     by intros str' [= <-] _.
                 --- by intros (_ & _ & H).
Qed.

End Offsets.

(** Minutes out of range but without a fraction are not touched: the
    string goes to the engine as it is, and the value is rejected,
    whereas the same timestamp with minutes 59 is read. *)
Lemma offset_minutes_without_fraction_are_not_clamped :
  sanitize_string demo_platform "2024-01-01T10:00:00-03:75"
  = "2024-01-01T10:00:00-03:75" ∧
  parseFlexibleDate demo_platform (VStr "2024-01-01T10:00:00-03:75") = None ∧
  is_Some (parseFlexibleDate demo_platform (VStr "2024-01-01T10:00:00-03:59")).
Proof. split; [by vm_compute|]. split; [by vm_compute|]. eexists. by vm_compute. Qed.

(** A padded timestamp with the offset [-03:75.5], and the same with
    [-03:75]. *)
Lemma fractional_offset_is_clamped_witness :
  sanitize_string demo_platform "2024-01-01T10:00:00-03:75.5"
  = "2024-01-01T10:00:00-03:59" ∧
  parseFlexibleDate demo_platform (VStr "  2024-01-01T10:00:00-03:75.5 ")
  = Some (midnight 2024 1 1 + 13 * 3600000 + 59 * 60000) ∧
  sanitizeLegacyOffsetString demo_platform (VStr " 2024-01-01T10:00:00-03:75 ")
  = VStr " 2024-01-01T10:00:00-03:75 " ∧
  parseFlexibleDate demo_platform (VStr " 2024-01-01T10:00:00-03:75 ") = None.
Proof.
  destruct (fractional_offset_is_clamped demo_platform
              (list_ascii_of_string "2024-01-01T10:00:00") "-"%char "0"%char "3"%char
              (list_ascii_of_string "75") (list_ascii_of_string "5"))
    as (_ & _ & _ & Hsan & Hparse & _ & Hplain & _);
    [by vm_compute | by vm_compute | by vm_compute | by vm_compute | done
    | by vm_compute | done | by vm_compute |].
  split; [exact Hsan|].
  split; [by rewrite (Hparse "  2024-01-01T10:00:00-03:75.5 " ltac:(by vm_compute))|].
  destruct (Hplain " 2024-01-01T10:00:00-03:75 " ltac:(by vm_compute)) as [H1 H2].
  split; [exact H1 | by rewrite H2].
Defined.

(** ** Atomic meta-coupled writes: the transactional operations *)

Section Atomic.
Context (P : Platform).

Lemma orders_mutation_throw e : orders_mutation (throw e).
Proof. intros w r w' [= <- <-]. done. Qed.

Lemma orders_mutation_read {A} (f : Store → A) (k : A → M jsval) :
  (∀ a, orders_mutation (k a)) → orders_mutation (let* a := read f in k a).
Proof. intros Hk w r w' H. unfold bind, read in H. by apply Hk in H. Qed.

Lemma orders_mutation_lift {A} (x : result A) (k : A → M jsval) :
  (∀ a, orders_mutation (k a)) → orders_mutation (let* a := lift x in k a).
Proof.
  intros Hk w r w' H. unfold bind, lift in H. destruct x as [a|e].
  - by apply Hk in H.
  - by injection H as <- <-.
Qed.

Lemma orders_mutation_transaction f now reason v :
  orders_mutation
    (transaction (write (set_orders f) ;; bumpOrdersVersion P now reason) ;; ret v).
Proof.
  intros w r w' H. unfold bind at 1 in H.
  destruct (transaction _ w) as [[ver|e] wt] eqn:Htx.
  - unfold ret in H. injection H as <- <-.
    by apply orders_transaction_ok in Htx as (t & _ & _ & ? & ? & ? & _).
  - injection H as <- <-. by apply transaction_throw in Htx.
Qed.

Lemma users_mutation_throw e : users_mutation (throw e).
Proof. intros w r w' [= <- <-]. done. Qed.

Lemma users_mutation_read {A} (f : Store → A) (k : A → M jsval) :
  (∀ a, users_mutation (k a)) → users_mutation (let* a := read f in k a).
Proof. intros Hk w r w' H. unfold bind, read in H. by apply Hk in H. Qed.

Lemma users_mutation_lift {A} (x : result A) (k : A → M jsval) :
  (∀ a, users_mutation (k a)) → users_mutation (let* a := lift x in k a).
Proof.
  intros Hk w r w' H. unfold bind, lift in H. destruct x as [a|e].
  - by apply Hk in H.
  - by injection H as <- <-.
Qed.

Lemma users_mutation_transaction f now reason v :
  users_mutation
    (transaction (write (set_users f) ;; bumpUsersVersion P now reason) ;; ret v).
Proof.
  intros w r w' H. unfold bind at 1 in H.
  destruct (transaction _ w) as [[ver|e] wt] eqn:Htx.
  - unfold ret in H. injection H as <- <-.
    by apply users_transaction_ok in Htx as (t & _ & _ & ? & ? & ? & _).
  - injection H as <- <-. by apply transaction_throw in Htx.
Qed.

(** Walks down the checks an operation makes before its transaction. *)
Ltac mutation_steps :=
  repeat first
    [ apply orders_mutation_throw
    | apply orders_mutation_transaction
    | apply orders_mutation_read; intros ?
    | apply orders_mutation_lift; intros ?
    | apply users_mutation_throw
    | apply users_mutation_transaction
    | apply users_mutation_read; intros ?
    | apply users_mutation_lift; intros ?
    | match goal with
      | |- orders_mutation (match ?x with _ => _ end) => destruct x
      | |- users_mutation (match ?x with _ => _ end) => destruct x
      end ].

(** After the initialisation step, each of these operations is one
    atomic mutation of its family. *)
Lemma cancelOrder_atomic now orderCode reason detail w w0 :
  initAPIDB P now w = (Ok tt, w0) →
  ∃ body, orders_mutation body ∧
          cancelOrder P now orderCode reason detail w = body w0.
Proof.
  intros Hinit. unfold cancelOrder. rewrite (init_then P _ _ _ _ Hinit).
  eexists. split; [|reflexivity]. mutation_steps.
Qed.

Lemma saveOrderChecklist_atomic now orderCode checklistData w w0 :
  initAPIDB P now w = (Ok tt, w0) →
  ∃ body, orders_mutation body ∧
          saveOrderChecklist P now orderCode checklistData w = body w0.
Proof.
  intros Hinit. unfold saveOrderChecklist. rewrite (init_then P _ _ _ _ Hinit).
  eexists. split; [|reflexivity]. mutation_steps.
Qed.

Lemma startOrderTask_atomic now orderCode taskIndex w w0 :
  initAPIDB P now w = (Ok tt, w0) →
  ∃ body, orders_mutation body ∧
          startOrderTask P now orderCode taskIndex w = body w0.
Proof.
  intros Hinit. unfold startOrderTask. rewrite (init_then P _ _ _ _ Hinit).
  eexists. split; [|reflexivity]. mutation_steps.
Qed.

Lemma completeOrderTask_atomic now orderCode taskIndex updates w w0 :
  initAPIDB P now w = (Ok tt, w0) →
  ∃ body, orders_mutation body ∧
          completeOrderTask P now orderCode taskIndex updates w = body w0.
Proof.
  intros Hinit. unfold completeOrderTask. rewrite (init_then P _ _ _ _ Hinit).
  eexists. split; [|reflexivity]. mutation_steps.
Qed.

Lemma deleteUser_atomic now code w w0 :
  initAPIDB P now w = (Ok tt, w0) →
  ∃ body, users_mutation body ∧ deleteUser P now code w = body w0.
Proof.
  intros Hinit. unfold deleteUser. rewrite (init_then P _ _ _ _ Hinit).
  eexists. split; [|reflexivity]. mutation_steps.
Qed.

Lemma updateUser_atomic now code patch w w0 :
  initAPIDB P now w = (Ok tt, w0) →
  ∃ body, users_mutation body ∧ updateUser P now code patch w = body w0.
Proof.
  intros Hinit. unfold updateUser. cbv zeta. rewrite (init_then P _ _ _ _ Hinit).
  eexists. split; [|reflexivity].
  mutation_steps.
  all: intros w1 r w' H; unfold bind at 1 in H.
  all: repeat match type of H with
              | context [if ?b then _ else _] => destruct b
              | context [match toInt ?x with _ => _ end] => destruct (toInt x)
              end;
       unfold ret, throw in H;
       try (injection H as <- <-; done);
       revert w1 r w' H; fold (users_mutation); mutation_steps.
Qed.

End Atomic.

(** ** The scenarios of the specification, run on the sample platform *)

Example toInt_examples :
  toInt (VInt 100) = Some 100 ∧ toInt (VStr " 42abc ") = Some 42 ∧
  toInt (VInt (-7)) = Some (-7) ∧ toInt (VNum (-3 # 2)) = Some (-1) ∧
  toInt VNull = None ∧ toInt (VStr "abc") = None ∧ toInt (VInt 0) = Some 0 ∧
  toInt (VArr [VInt 12; VStr "x"]) = Some 12 ∧ toInt (VNum (5 # 4)) = Some 1 ∧
  toInt VUndef = None ∧ toInt (VStr "") = None ∧ toInt (VStr "-0012") = Some (-12).
Proof. by vm_compute. Qed.

Example resolve_code_examples :
  resolve_code (VObj (<["code" := VInt 0]> (<["id" := VStr "15"]> ∅))) = Ok (Some 15) ∧
  resolve_code (VObj (<["info" := VObj (<["Numero orden" := VStr " 88 "]> ∅)]>
                     (<["id" := VInt 3]> ∅))) = Ok (Some 88) ∧
  resolve_code (VObj (<["code" := VStr "x"]> ∅)) = Ok None ∧
  resolve_code VNull = Throw TypeError.
Proof. by vm_compute. Qed.

Example simpleHash_examples :
  simpleHash "" = "0" ∧ simpleHash "a" = "61" ∧ simpleHash "ab" = "c21".
Proof. by vm_compute. Qed.

Example sanitize_examples :
  sanitize_string demo_platform "2024-01-01T10:00:00-03:07.25" = "2024-01-01T10:00:00-03:07" ∧
  sanitize_string demo_platform "2024-01-01T10:00:00+04:5.9" = "2024-01-01T10:00:00+04:05" ∧
  sanitize_string demo_platform "2024-01-01T10:00:00-03:00" = "2024-01-01T10:00:00-03:00" ∧
  sanitize_string demo_platform "a+11:99.0b-22:3.14" = "a+11:59b-22:03" ∧
  sanitize_string demo_platform "2024-01-01T10:00:00-03:30." = "2024-01-01T10:00:00-03:30.".
Proof. by vm_compute. Qed.

(** Tasks [0, 0] derive status 0; starting the first gives 1; completing
    both gives 2. *)
Example task_lifecycle_scenario :
  let P := demo_platform in
  let o := sample_order 7 0 "2024-01-01" 7 [sample_task 0; sample_task 0] in
  let status w := oget "status" (oget "info" (VObj (default ∅ (orders (db w) !! 7)))) in
  let w0 := sample_world [o] in
  let w1 := (startOrderTask P (midnight 2024 1 3) (VInt 7) (VInt 0) w0).2 in
  let w2 := (completeOrderTask P (midnight 2024 1 3 + 3600000) (VInt 7) (VInt 0) VUndef w1).2 in
  let w3 := (completeOrderTask P (midnight 2024 1 3 + 7200000) (VInt 7) (VInt 1) VUndef w2).2 in
  calculateOrderStatus P (VArr [sample_task 0; sample_task 0]) = Ok 0 ∧
  status w1 = VInt 1 ∧ status w2 = VInt 1 ∧ status w3 = VInt 2 ∧
  getOrdersMeta_version (db w3) = getOrdersMeta_version (db w0) + 3.
Proof. by vm_compute. Qed.

(** [F inicial] 2024-01-01 with a frequency of 7 days: due on the 8th,
    expired after the 12th.  The sweep of the 13th marks the order and
    writes the default note; a sweep run with the 10th as today takes
    both back. *)
Example expiration_scenario :
  let P := demo_platform in
  let o := sample_order 7 0 "2024-01-01" 7 [sample_task 0] in
  let info w := oget "info" (VObj (default ∅ (orders (db w) !! 7))) in
  let w0 := sample_world [o] in
  let w1 := (markOrdersExpired P (midnight 2024 1 13) VUndef false w0).2 in
  let w2 := (markOrdersExpired P (midnight 2024 1 10) VUndef false w1).2 in
  computeExpirationInfo P (oget "info" (VObj o))
  = Some {| startDate := midnight 2024 1 1; frequencyDays := 7;
            dueDate := midnight 2024 1 8; expirationDate := midnight 2024 1 12 |} ∧
  oget "status" (info w1) = VInt 4 ∧
  oget "obs_anulada" (info w1) = VStr AUTO_EXPIRED_NOTE ∧
  oget "status" (info w2) = VInt 0 ∧
  oget "obs_anulada" (info w2) = VUndef ∧
  (markOrdersExpired P (midnight 2024 1 12) VUndef false w0).2 = w0.
Proof. by vm_compute. Qed.

(** A cancelled order keeps the reason and the detail, trimmed. *)
Example cancel_scenario :
  let P := demo_platform in
  let o := sample_order 7 0 "2024-01-01" 7 [sample_task 0] in
  let info w := oget "info" (VObj (default ∅ (orders (db w) !! 7))) in
  let w1 := (cancelOrder P (midnight 2024 1 3) (VStr "7") (VStr " sin repuestos ")
               (VStr "faltan rodamientos") (sample_world [o])).2 in
  oget "status" (info w1) = VInt 3 ∧
  oget "obs_anulada" (info w1) = VArr [VStr "sin repuestos"; VStr "faltan rodamientos"] ∧
  (cancelOrder P (midnight 2024 1 3) (VInt 7) (VStr "  ") (VStr "x") (sample_world [o])).1
  = Throw (Error "cancellation reason required").
Proof. by vm_compute. Qed.

(* ================================================================== *)
(** * Further properties of the operations *)
(* ================================================================== *)

(** ** Editing an order, and users that are not there *)
Section OrderEdits.
Context (P : Platform).

(** X1.  [updateUser] throws the error "El código debe ser un número
    entero válido." when the code does not read as an integer, and "El
    usuario especificado no existe." when no user is stored under it; in
    both cases the store is as [initAPIDB] left it. *)
Theorem updateUser_rejects_unknown_user now code patch w w0 :
  initAPIDB P now w = (Ok tt, w0) →
  (toInt code = None →
   updateUser P now code patch w
   = (Throw (Error "El código debe ser un número entero válido."), w0)) ∧
  (∀ c, toInt code = Some c → users (db w0) !! c = None →
        updateUser P now code patch w
        = (Throw (Error "El usuario especificado no existe."), w0)).
Proof.
  intros Hinit. split.
  - intros Hc. unfold updateUser. cbv zeta. by rewrite (init_then P _ _ _ _ Hinit), Hc.
  - intros c Hc Hk. unfold updateUser. cbv zeta.
    rewrite (init_then P _ _ _ _ Hinit), Hc. unfold bind, read. by rewrite Hk.
Qed.

Lemma cancelOrder_writes now orderCode reason detail w w0 v w1 :
  initAPIDB P now w = (Ok tt, w0) →
  table_wf (orders (db w0)) →
  cancelOrder P now orderCode reason detail w = (Ok v, w1) →
  ∃ c order r d updated,
    toInt orderCode = Some c ∧ orders (db w0) !! c = Some order ∧
    reason = VStr r ∧ detail = VStr d ∧ trim r ≠ "" ∧ trim d ≠ "" ∧
    v = VObj updated ∧
    orders (db w1) = <[c := updated]> (orders (db w0)) ∧
    oget "status" (oget "info" v) = VInt 3 ∧
    oget "obs_anulada" (oget "info" v) = VArr [VStr (trim r); VStr (trim d)] ∧
    (∀ k, k ≠ "info" → updated !! k = order !! k) ∧
    (∀ k, k ≠ "status" → k ≠ "obs_anulada" →
          oget k (oget "info" v) = oget k (VObj (spread (js_or (oget "info" (VObj order)) (VObj ∅))))) ∧
    getOrdersMeta_version (db w1) = getOrdersMeta_version (db w0) + 1 ∧
    users (db w1) = users (db w0) ∧ usersMeta (db w1) = usersMeta (db w0).
Proof.
  intros Hinit Hwf. unfold cancelOrder. rewrite (init_then P _ _ _ _ Hinit).
  destruct (toInt orderCode) as [c|] eqn:Hc; [|done].
  unfold bind at 1. unfold read at 1.
  destruct (orders (db w0) !! c) as [order|] eqn:Hk; [|done].
  destruct reason as [| | | | |r| |]; try done.
  destruct (String.eqb_spec (trim r) "") as [|Hr]; [done|].
  destruct detail as [| | | | |d| |]; try done.
  destruct (String.eqb_spec (trim d) "") as [|Hd]; [done|].
  intros H. apply bind_ok in H as (ver & wt & Htx & Hret).
  unfold ret in Hret. injection Hret as <- <-.
  apply orders_transaction_ok in Htx as (t & Hput & Ho & Hu & Hum & Hv & _).
  apply table_put_ok in Hput as (k & Hkey & ->).
  destruct (Hwf _ _ Hk) as [Hrk _].
  assert (k = c) as ->.
  { unfold record_key in *. rewrite oget_code_insert_info in Hkey. congruence. }
  eexists c, order, r, d, _. split_and!; try done.
  - by rewrite oget_info_insert, lookup_insert_ne, lookup_insert_eq by keys.
  - by rewrite oget_info_insert, lookup_insert_eq.
  - intros k Hne. by rewrite lookup_insert_ne.
  - intros k Hs Ho'. rewrite oget_info_insert. simpl oget.
    by rewrite !lookup_insert_ne.
Qed.


(** X3.  For an order that exists, [cancelOrder] throws "cancellation
    reason required" when the reason is not a string or is blank once
    trimmed, and otherwise "cancellation detail required" when the detail
    is; the store is as [initAPIDB] left it. *)
Theorem cancelOrder_requires_reason_and_detail now orderCode reason detail w w0 c order :
  initAPIDB P now w = (Ok tt, w0) →
  toInt orderCode = Some c → orders (db w0) !! c = Some order →
  let blank v := match v with VStr s => String.eqb (trim s) "" | _ => true end in
  (blank reason = true →
   cancelOrder P now orderCode reason detail w
   = (Throw (Error "cancellation reason required"), w0)) ∧
  (blank reason = false → blank detail = true →
   cancelOrder P now orderCode reason detail w
   = (Throw (Error "cancellation detail required"), w0)).
Proof.
  intros Hinit Hc Hk blank. unfold blank. clear blank.
  unfold cancelOrder.
  rewrite (init_then P _ _ _ _ Hinit), Hc. unfold bind, read. rewrite Hk. cbv zeta.
  split.
  - intros Hb. destruct reason; try done. by rewrite Hb.
  - intros Hr Hd. destruct reason as [| | | | |r| |]; try done. rewrite Hr.
    destruct detail as [| | | | |d| |]; try done. by rewrite Hd.
Qed.


End OrderEdits.

(** ** Starting and completing a task *)
Section TaskEdits.
Context (P : Platform).

(** The keys of a spread array or string are decimal indices: a property
    whose name is not a run of digits is read from the copy as from the
    original. *)
Lemma indexed_lookup_name (l : list jsval) (k : string) :
  forallb is_digit (list_ascii_of_string k) = false → indexed l !! k = None.
Proof.
  intros Hk. unfold indexed. apply not_elem_of_list_to_map_1.
  intros Hin. apply list_elem_of_fmap in Hin as ([k' x] & -> & Hin).
  apply elem_of_lookup_imap in Hin as (i & y & Heq & _). injection Heq as Hk' _.
  simpl in Hk. rewrite Hk' in Hk. unfold string_of_Z in Hk.
  rewrite list_ascii_of_string_of_list_ascii in Hk. unfold chars_of_Z in Hk.
  destruct (Z.ltb_spec (Z.of_nat i) 0) as [|_]; [lia|].
  destruct (nat_digits_spec (Z.of_nat i)) as (_ & Hd & _); [lia|]. congruence.
Qed.

Lemma oget_spread (k : string) (v : jsval) :
  forallb is_digit (list_ascii_of_string k) = false →
  oget k (VObj (spread v)) = oget k v.
Proof.
  intros Hk. destruct v; simpl; try done; by rewrite indexed_lookup_name.
Qed.











End TaskEdits.

(** ** Runs of the expiration sweep *)
Section SweepRuns.
Context (P : Platform).

(** [computeExpirationInfo] reads four fields of the [info] it is
    given, and whether there is one. *)
Lemma computeExpirationInfo_reads (a b : jsval) :
  truthy a = truthy b →
  (∀ k, k ∈ ["F inicial"; "F_inicial"; "Frec. Dias"; "FrecDias"] → oget k a = oget k b) →
  computeExpirationInfo P a = computeExpirationInfo P b.
Proof.
  intros Ht Hk. unfold computeExpirationInfo. rewrite Ht.
  rewrite !(Hk "F inicial"), !(Hk "F_inicial"), !(Hk "Frec. Dias"), !(Hk "FrecDias");
    [done | repeat first [by left | right]..].
Qed.

(** The [info] the sweep writes keeps the expiration window of the
    [info] it comes from. *)
Lemma computeExpirationInfo_updated (info : jsval) (m : obj) :
  truthy info = true →
  (∀ k, k ≠ "status" → k ≠ "obs_anulada" → m !! k = spread info !! k) →
  computeExpirationInfo P (js_or (VObj m) VNull) = computeExpirationInfo P (js_or info VNull).
Proof.
  intros Ht Hm. unfold js_or. rewrite Ht. simpl truthy. cbv iota.
  apply computeExpirationInfo_reads; [done|].
  intros k Hk.
  repeat (apply elem_of_cons in Hk as [-> | Hk];
          [rewrite <- (oget_spread _ info) by (by vm_compute);
           simpl; by rewrite Hm by keys|]).
  by apply not_elem_of_nil in Hk.
Qed.

Lemma expired_info_other info k :
  k ≠ "status" → k ≠ "obs_anulada" →
  expired_info info !! k = spread (js_or info (VObj ∅)) !! k.
Proof.
  intros H1 H2. unfold expired_info. cbv zeta.
  destruct (negb _); by rewrite !lookup_insert_ne.
Qed.

Lemma restored_info_other s info k :
  k ≠ "status" → k ≠ "obs_anulada" →
  restored_info s info !! k = spread (js_or info (VObj ∅)) !! k.
Proof.
  intros H1 H2. unfold restored_info. cbv zeta.
  destruct (oget "obs_anulada" _) as [| | | | |n| |];
    try by rewrite !lookup_insert_ne.
  destruct (String.eqb n AUTO_EXPIRED_NOTE).
  - by rewrite lookup_delete_ne, lookup_insert_ne.
  - by rewrite lookup_insert_ne.
Qed.

(** An order the sweep has updated is left alone by the same sweep. *)
Lemma sweep_order_settles today ea cs (o : obj) d :
  sweep_order P today ea cs o = Ok d →
  match d with
  | Untouched => True
  | MarkExpired o' | Restored o' => sweep_order P today ea cs o' = Ok Untouched
  end.
Proof.
  assert (∀ m : obj, oget "info" (VObj (<["info" := VObj m]> o)) = VObj m) as Hnew.
  { intros m. simpl. by rewrite lookup_insert_eq. }
  unfold sweep_order at 1.
  destruct (toInt (oget "code" (VObj o))) as [c|] eqn:Hc; [|by intros [= <-]].
  cbv zeta.
  pose proof (order_status_info P o 4) as Hobj. unfold order_status in Hobj.
  set (info := oget "info" (VObj o)) in *.
  destruct (num_is (Number_ P (oget "status" info)) 2) eqn:H2; [by intros [= <-]|].
  destruct (negb _) eqn:Hsel; [by intros [= <-]|].
  assert (∀ s, (s = 0 ∨ s = 1 ∨ s = 2) →
            (∃ m, info = VObj m) →
            match computeExpirationInfo P (js_or info VNull) with
            | Some ei => expirationDate ei <? today
            | None => false
            end = false →
            sweep_order P today ea cs (<["info" := VObj (restored_info s info)]> o)
            = Ok Untouched) as Hrestored.
  { intros s Hs [m Hm] Hexp. unfold sweep_order.
    rewrite oget_code_insert_info, Hc. cbv zeta.
    rewrite Hnew. cbn [oget]. rewrite restored_info_status. cbn [default id].
    rewrite !num_is_VInt.
    rewrite (computeExpirationInfo_updated info), Hexp.
    - rewrite (bool_decide_eq_false_2 (s = 4)) by lia.
      destruct (bool_decide (s = 2)); [done|].
      by destruct (negb (ea || bool_decide (c ∈ cs) || false)).
    - by rewrite Hm.
    - intros k H1 H3. rewrite restored_info_other by done. by rewrite Hm. }
  destruct (match computeExpirationInfo P (js_or info VNull) with
            | Some ei => expirationDate ei <? today
            | None => false
            end) eqn:Hexp.
  - destruct (negb (num_is _ 4)) eqn:H4; [|by intros [= <-]].
    intros [= <-]. unfold sweep_order.
    rewrite oget_code_insert_info, Hc. cbv zeta.
    rewrite Hnew. cbn [oget]. rewrite expired_info_status. cbn [default id].
    rewrite !num_is_VInt. rewrite (bool_decide_eq_false_2 (4 = 2)) by done.
    rewrite (bool_decide_eq_true_2 (4 = 4)) by done. rewrite !orb_true_r.
    cbn [negb]. cbv iota.
    assert (truthy info = true) as Ht.
    { destruct (truthy info) eqn:Ht; [done|].
      unfold js_or in Hexp. rewrite Ht in Hexp. done. }
    rewrite (computeExpirationInfo_updated info), Hexp; [done..|].
    intros k H1 H3. rewrite expired_info_other by done.
    unfold js_or. by rewrite Ht.
  - destruct (num_is _ 4) eqn:H4; [|by intros [= <-]].
    destruct (calculateOrderStatus P _) as [s|] eqn:Hs; [|done].
    intros [= <-]. apply Hrestored; [|by apply Hobj|done].
    by apply calculateOrderStatus_range in Hs.
Qed.

Lemma sweep_loop_untouched today ea cs (l : list obj) upd e r :
  Forall (λ o, sweep_order P today ea cs o = Ok Untouched) l →
  sweep_loop P today ea cs l upd e r = Ok (upd, e, r).
Proof.
  induction 1 as [|o l Ho _ IH]; [done|]. simpl. rewrite Ho. simpl. apply IH.
Qed.


(** X7.  The expiration sweep is idempotent on a table whose records sit
    under their codes: run again on the store it left, at the same time
    and for the same codes, it marks nothing, restores nothing and writes
    nothing. *)
Theorem expiration_sweep_is_idempotent now codes w v w1 :
  table_wf (orders (db w)) →
  markOrdersExpired_skipInit P now codes w = (Ok v, w1) →
  markOrdersExpired_skipInit P now codes w1 = (Ok (sweep_counts 0 0), w1).
Proof.
  intros Hwf Hrun.
  destruct (startOfChileDay P now) as [today|] eqn:Htoday.
  - destruct (sweep_effect P _ _ _ _ _ _ Hwf Htoday Hrun) as [Hlook Hok].
    cbv zeta in Hlook, Hok.
    unfold markOrdersExpired_skipInit. unfold bind at 1. unfold read at 1. cbv zeta.
    destruct (bool_decide_reflect (toArray (orders (db w1)) = [])) as [|Hnil]; [done|].
    rewrite Htoday. unfold bind at 1. unfold lift at 1.
    rewrite sweep_loop_untouched; [done|].
    apply Forall_forall. intros o' [k Hk]%toArray_elem.
    rewrite Hlook in Hk.
    destruct (orders (db w) !! k) as [o|] eqn:Ho; [|done].
    simpl in Hk. injection Hk as <-.
    destruct (Hok _ _ Ho) as [d Hd].
    pose proof (sweep_order_settles _ _ _ _ _ Hd) as Hs.
    unfold swept, sweep_update. rewrite Hd. by destruct d.
  - revert Hrun. unfold markOrdersExpired_skipInit.
    unfold bind at 1. unfold read at 1. cbv zeta.
    destruct (bool_decide_reflect (toArray (orders (db w)) = [])) as [Hnil|Hnil].
    + intros [= _ <-]. unfold bind, read.
      by rewrite (bool_decide_eq_true_2 (toArray (orders (db w)) = [])).
    + rewrite Htoday. intros [= _ <-]. unfold bind, read.
      by rewrite (bool_decide_eq_false_2 (toArray (orders (db w)) = [])).
Qed.


Lemma init_returns now w :
  usersMeta (db w) ≠ ∅ → ordersMeta (db w) ≠ ∅ →
  ∃ w0, initAPIDB P now w = (Ok tt, w0) ∧
        users (db w0) = users (db w) ∧ usersMeta (db w0) = usersMeta (db w) ∧
        (db w0 = db w ∨
         getOrdersMeta_version (db w0) = getOrdersMeta_version (db w) + 1).
Proof.
  intros Hu Ho. unfold initAPIDB.
  unfold bind at 1. unfold read at 1.
  rewrite bool_decide_eq_false_2 by (by rewrite map_size_empty_iff).
  unfold bind at 1. unfold ret at 1.
  unfold bind at 1. unfold read at 1.
  rewrite bool_decide_eq_false_2 by (by rewrite map_size_empty_iff).
  unfold bind at 1. unfold ret at 1.
  unfold try_.
  destruct (markOrdersExpired_skipInit P now VUndef w) as [r w0] eqn:Hsweep.
  exists w0. apply sweep_frame in Hsweep.
  destruct r; (split; [done|]);
    (destruct Hsweep as [Hdb | (Hus & Hum & Hv & _)];
     [rewrite Hdb; split_and!; [done | done | by left]
     | split_and!; [done | done | by right]]).
Qed.

(** X10.  Cancelling does not put an order out of reach of the expiration
    sweep: once the window of a cancelled order (status 3) has closed, a
    sweep that evaluates it marks it expired (status 4), its cancellation
    note staying in place. *)
Theorem cancelled_order_still_expires now orderCode reason detail w w0 v w1 today ei :
  initAPIDB P now w = (Ok tt, w0) →
  table_wf (orders (db w0)) →
  cancelOrder P now orderCode reason detail w = (Ok v, w1) →
  computeExpirationInfo P (oget "info" v) = Some ei →
  expirationDate ei < today →
  ∃ c (cancelled marked : obj),
    toInt orderCode = Some c ∧ v = VObj cancelled ∧
    orders (db w1) !! c = Some cancelled ∧
    oget "status" (oget "info" v) = VInt 3 ∧
    sweep_order P today true ∅ cancelled = Ok (MarkExpired marked) ∧
    oget "status" (oget "info" (VObj marked)) = VInt 4 ∧
    oget "obs_anulada" (oget "info" (VObj marked)) = oget "obs_anulada" (oget "info" v) ∧
    ∃ r d, oget "obs_anulada" (oget "info" v) = VArr [VStr r; VStr d].
Proof.
  intros Hinit Hwf Hrun Hei Hexp.
  destruct (cancelOrder_writes P _ _ _ _ _ _ _ _ Hinit Hwf Hrun)
    as (c & order & r & d & updated & Hc & Hk & -> & -> & Hr & Hd & -> & Ho & Hst & Hobs
        & Hkeys & Hinfo & Hv & _).
  destruct (Hwf _ _ Hk) as [_ Hcode].
  assert (∃ m : obj, updated !! "info" = Some (VObj m)) as [m Hm].
  { destruct (updated !! "info") as [[| | | | | | |m]|] eqn:E; simpl in Hst;
      rewrite ?E in Hst; try done. by exists m. }
  assert (oget "info" (VObj updated) = VObj m) as Hinfo' by (simpl; by rewrite Hm).
  rewrite Hinfo' in *.
  exists c, updated, (<["info" := VObj (expired_info (VObj m))]> updated).
  split_and!; try done.
  - by rewrite Ho, lookup_insert_eq.
  - unfold sweep_order.
    assert (oget "code" (VObj updated) = oget "code" (VObj order)) as ->.
    { simpl. by rewrite Hkeys by keys. }
    rewrite Hcode. cbv zeta. rewrite Hinfo', Hst, !num_is_VInt.
    rewrite (bool_decide_eq_false_2 (3 = 2)), (bool_decide_eq_false_2 (3 = 4)) by done.
    cbn [orb negb]. cbv iota.
    assert (js_or (VObj m) VNull = VObj m) as -> by done.
    rewrite Hei. by apply Z.ltb_lt in Hexp as ->.
  - by rewrite oget_info_insert, expired_info_status.
  - rewrite oget_info_insert. unfold expired_info. cbv zeta.
    assert (oget "obs_anulada" (VObj (<["status" := VInt 4]> (spread (js_or (VObj m) (VObj ∅)))))
            = VArr [VStr (trim r); VStr (trim d)]) as Hkeep.
    { simpl. rewrite lookup_insert_ne by keys. simpl in Hobs. exact Hobs. }
    rewrite Hkeep. simpl negb. cbv iota.
    by rewrite lookup_insert_ne by keys.
  - by eexists _, _.
Qed.

End SweepRuns.

(** ** Bulk upsert *)
Section Ingest.
Context (P : Platform).


Lemma map_filter_length {A} (f : jsval → result (option A)) l : ∀ rs,
  map_filter f l = Ok rs → (length rs <= length l)%nat.
Proof.
  induction l as [|x l IH]; intros rs H.
  - simpl in H. by injection H as <-.
  - simpl in H. destruct (f x) as [y|]; [|done]. simpl in H.
    destruct (map_filter f l) as [ys|]; [|done]. simpl in H. injection H as <-.
    specialize (IH ys eq_refl). destruct y; simpl; lia.
Qed.



End Ingest.

(** ** Reading integers; the password hash *)
Section Reading.

(** Skipping white space stops at a character of one byte that is not
    white space, from either end. *)
Lemma skip_spaces_stop back (v : list ascii) x : ∀ n (u : list ascii),
  (length u <= n)%nat →
  is_space x = false → is_plain x = true →
  ∃ u', skip_spaces back (u ++ x :: v) = (u' ++ x :: v)%list ∧
        ∃ sp, u = (sp ++ u')%list.
Proof.
  induction n as [|n IH]; intros u Hlen Hx Hp.
  { destruct u; [|simpl in Hlen; lia]. exists []. split; [|by exists []].
    by apply skip_spaces_head. }
  destruct u as [|c1 t].
  { exists []. split; [|by exists []]. by apply skip_spaces_head. }
  simpl in Hlen.
  assert (∀ t' pre, (length t' <= n)%nat → (c1 :: t = pre ++ t')%list →
            ∃ u', skip_spaces back (t' ++ x :: v) = (u' ++ x :: v)%list ∧
                  ∃ sp, (c1 :: t = sp ++ u')%list) as Hrec.
  { intros t' pre Ht' Hpre. destruct (IH t' Ht' Hx Hp) as (u' & Hu' & sp & Hsp).
    exists u'. split; [done|]. exists (pre ++ sp)%list.
    by rewrite Hpre, Hsp, app_assoc. }
  assert (∃ u', (c1 :: t ++ x :: v = u' ++ x :: v)%list ∧
                ∃ sp, (c1 :: t = sp ++ u')%list) as Hstay.
  { exists (c1 :: t). split; [done|]. by exists []. }
  rewrite <- app_comm_cons. cbn [skip_spaces].
  destruct (is_space c1).
  { apply (Hrec t [c1]); [lia | done]. }
  destruct t as [|c2 t2].
  { cbn [app].
    assert ((if back then is_space2 x c1 else is_space2 c1 x) = false) as ->.
    { destruct back.
      - destruct (is_space2 x c1) eqn:E; [|done].
        apply is_space2_plain in E as [E _]. congruence.
      - destruct (is_space2 c1 x) eqn:E; [|done].
        apply is_space2_plain in E as [_ E]. congruence. }
    destruct v as [|c3 v]; [exact Hstay|].
    assert ((if back then is_space3 c3 x c1 else is_space3 c1 x c3) = false) as ->.
    { destruct back.
      - destruct (is_space3 c3 x c1) eqn:E; [|done].
        apply is_space3_plain in E as (_ & E & _). congruence.
      - destruct (is_space3 c1 x c3) eqn:E; [|done].
        apply is_space3_plain in E as (_ & E & _). congruence. }
    exact Hstay. }
  cbn [app]. simpl in Hlen.
  destruct (if back then is_space2 c2 c1 else is_space2 c1 c2).
  { apply (Hrec t2 [c1; c2]); [lia | done]. }
  destruct t2 as [|c3 t3].
  { cbn [app].
    assert ((if back then is_space3 x c2 c1 else is_space3 c1 c2 x) = false) as ->.
    { destruct back.
      - destruct (is_space3 x c2 c1) eqn:E; [|done].
        apply is_space3_plain in E as (E & _ & _). congruence.
      - destruct (is_space3 c1 c2 x) eqn:E; [|done].
        apply is_space3_plain in E as (_ & _ & E). congruence. }
    exact Hstay. }
  cbn [app]. simpl in Hlen.
  destruct (if back then is_space3 c3 c2 c1 else is_space3 c1 c2 c3).
  { apply (Hrec t3 [c1; c2; c3]); [lia | done]. }
  exact Hstay.
Qed.

(** What trimming on the right leaves of a string is a prefix of it that
    goes at least to its last character of one byte that is not white
    space. *)
Lemma trim_right_app (a b : list ascii) x :
  is_space x = false → is_plain x = true →
  ∃ b', rev (skip_spaces true (rev ((a ++ [x]) ++ b))) = ((a ++ [x]) ++ b')%list ∧
        ∃ sp, b = (b' ++ sp)%list.
Proof.
  intros Hx Hp.
  assert (rev ((a ++ [x]) ++ b) = (rev b ++ x :: rev a)%list) as ->.
  { rewrite !rev_app_distr. done. }
  destruct (skip_spaces_stop true (rev a) x _ (rev b) (le_n _) Hx Hp)
    as (u' & -> & sp & Hsp).
  exists (rev u'). split.
  - rewrite rev_app_distr. simpl. rewrite rev_involutive. by rewrite <- !app_assoc.
  - exists (rev sp). apply (f_equal (@rev _)) in Hsp.
    by rewrite rev_involutive, rev_app_distr in Hsp.
Qed.

Lemma trim_left_spaces (ws l : list ascii) :
  forallb is_space ws = true → trim_left (ws ++ l) = trim_left l.
Proof.
  unfold trim_left. induction ws as [|c ws IH]; [done|].
  intros [Hc Hws]%andb_true_iff. rewrite <- app_comm_cons. cbn [skip_spaces].
  rewrite Hc. by apply IH.
Qed.

Lemma span_digits_prefix (ds rest : list ascii) :
  forallb is_digit ds = true →
  match rest with [] => True | c :: _ => is_digit c = false end →
  span_digits (ds ++ rest) = (ds, rest).
Proof.
  intros Hds Hrest. induction ds as [|d ds IH]; simpl.
  - destruct rest as [|c rest]; [done|]. simpl. by rewrite Hrest.
  - simpl in Hds. apply andb_true_iff in Hds as [Hd Hds]. by rewrite Hd, (IH Hds).
Qed.

(** X12.  [toInt] reads the integer a string starts with: white space
    before it is skipped, a minus sign is taken, and whatever follows the
    digits (letters, a fraction, an exponent) is dropped.  This is for
    a run of digits whose value is at most 2^53: [parseInt] returns a
    double, which is that value up to there and a rounding of it
    beyond. *)
Theorem toInt_reads_leading_integer (ws ds rest : list ascii) (neg : bool) :
  forallb is_space ws = true →
  ds ≠ [] → forallb is_digit ds = true →
  digits_value ds <= 2 ^ 53 →
  match rest with [] => True | c :: _ => is_digit c = false end →
  toInt (VStr (string_of_list_ascii
                 (ws ++ (if neg then ["-"%char] else []) ++ ds ++ rest)))
  = Some (if neg then - digits_value ds else digits_value ds).
Proof.
  intros Hws Hne Hds _ Hrest. unfold toInt, trim. simpl String_.
  rewrite list_ascii_of_string_of_list_ascii. unfold trim_chars.
  rewrite trim_left_spaces by done.
  destruct (exists_last Hne) as (ds0 & x & Hx).
  assert (is_digit x = true) as Hxd.
  { rewrite Hx, forallb_app in Hds. apply andb_true_iff in Hds as [_ H]. simpl in H.
    by apply andb_true_iff in H as [H _]. }
  assert (is_space x = false) as Hxs by by apply is_digit_not_space.
  assert (is_plain x = true) as Hxp by by apply is_digit_plain.
  set (sign := if neg then ["-"%char] else []).
  assert (trim_left (sign ++ ds ++ rest) = (sign ++ ds ++ rest)%list) as ->.
  { unfold sign. destruct neg; simpl app.
    - by apply trim_left_head.
    - destruct ds as [|d ds']; [done|]. simpl app.
      simpl in Hds. apply andb_true_iff in Hds as [Hd _].
      apply trim_left_head; [by apply is_digit_not_space | by apply is_digit_plain]. }
  assert ((sign ++ ds ++ rest)%list = (((sign ++ ds0) ++ [x]) ++ rest)%list) as ->.
  { rewrite Hx. by rewrite <- !app_assoc. }
  destruct (trim_right_app (sign ++ ds0) rest x Hxs Hxp) as (rest' & -> & sp & Hsp).
  assert (match rest' with [] => True | c :: _ => is_digit c = false end) as Hrest'.
  { destruct rest' as [|c rest']; [done|]. rewrite Hsp in Hrest. exact Hrest. }
  unfold parseInt10. rewrite list_ascii_of_string_of_list_ascii.
  assert ((((sign ++ ds0) ++ [x]) ++ rest')%list = (sign ++ ds ++ rest')%list) as ->.
  { rewrite Hx. by rewrite <- !app_assoc. }
  clear Hx. unfold sign. destruct neg; simpl app.
  - rewrite trim_left_head by done. rewrite span_digits_prefix by done. simpl fst.
    destruct ds; done.
  - destruct ds as [|d ds']; [done|].
    assert (is_digit d = true) as Hd by (simpl in Hds; by apply andb_true_iff in Hds as [? _]).
    simpl app.
    rewrite trim_left_head by (by apply is_digit_not_space || by apply is_digit_plain).
    assert (match (d :: ds' ++ rest')%list with
            | "-"%char :: tl => (true, tl)
            | "+"%char :: tl => (false, tl)
            | _ => (false, (d :: ds' ++ rest')%list)
            end = (false, ((d :: ds') ++ rest')%list)) as ->.
    { destruct d as [[] [] [] [] [] [] [] []]; done. }
    by rewrite span_digits_prefix.
Qed.


Lemma hex_char_is_hex d : 0 <= d < 16 → is_hex (hex_char d) = true.
Proof.
  intros Hd.
  assert (d = 0 ∨ d = 1 ∨ d = 2 ∨ d = 3 ∨ d = 4 ∨ d = 5 ∨ d = 6 ∨ d = 7 ∨ d = 8 ∨
          d = 9 ∨ d = 10 ∨ d = 11 ∨ d = 12 ∨ d = 13 ∨ d = 14 ∨ d = 15) as H by lia.
  repeat (destruct H as [-> | H]; [by vm_compute|]). subst d. by vm_compute.
Qed.

Lemma hex_digits_spec fuel : ∀ n acc k,
  0 <= n < 16 ^ Z.of_nat k → (1 <= k <= S fuel)%nat →
  ∃ ds, hex_digits fuel n acc = (ds ++ acc)%list ∧
        (1 <= length ds <= k)%nat ∧ forallb is_hex ds = true.
Proof.
  induction fuel as [|fuel IH]; intros n acc k Hn Hk.
  - assert (k = 1%nat) as -> by lia. exists [hex_char (n mod 16)]. simpl.
    split; [done|]. split; [lia|]. rewrite hex_char_is_hex; [done|].
    apply Z.mod_pos_bound. lia.
  - simpl. destruct (Z.ltb_spec n 16) as [Hlt|Hge].
    + exists [hex_char (n mod 16)]. simpl. split; [done|]. split; [lia|].
      rewrite hex_char_is_hex; [done|]. apply Z.mod_pos_bound. lia.
    + destruct k as [|[|k]]; [lia | simpl in Hn; lia |].
      destruct (IH (n / 16) (hex_char (n mod 16) :: acc) (S k)) as (ds & Hds & Hlen & Hhex).
      * split; [apply Z.div_pos; lia|].
        apply Z.div_lt_upper_bound; [lia|].
        replace (16 * 16 ^ Z.of_nat (S k)) with (16 ^ Z.of_nat (S (S k))); [lia|].
        rewrite (Nat2Z.inj_succ (S k)), Z.pow_succ_r by lia. done.
      * lia.
      * exists (ds ++ [hex_char (n mod 16)])%list. split; [by rewrite Hds, <- app_assoc|].
        split; [rewrite length_app; simpl; lia|].
        rewrite forallb_app, Hhex. simpl. rewrite hex_char_is_hex; [done|].
        apply Z.mod_pos_bound. lia.
Qed.

Lemma simpleHash_hex (s : string) :
  let h := list_ascii_of_string (simpleHash s) in
  (1 <= length h <= 8)%nat ∧ forallb is_hex h = true ∧ simpleHash s ≠ "".
Proof.
  cbv zeta. unfold simpleHash. rewrite list_ascii_of_string_of_list_ascii.
  set (h := fold_left _ _ _).
  assert (0 <= h < 2 ^ 32) as Hh.
  { unfold h. generalize (code_units (list_ascii_of_string s)). intros l.
    assert (∀ a, 0 <= a < 2 ^ 32 →
              0 <= fold_left (λ h c, (h * 31 + c) mod 2 ^ 32) l a
              < 2 ^ 32) as H.
    { induction l as [|c l IH]; intros a Ha; [done|]. simpl. apply IH.
      apply Z.mod_pos_bound. lia. }
    apply H. lia. }
  destruct (hex_digits_spec 8 h [] 8) as (ds & Hds & Hlen & Hhex); [simpl; lia | lia |].
  rewrite Hds, app_nil_r. split; [done|]. split; [done|].
  intros Heq. apply (f_equal String.length) in Heq. simpl in Heq.
  destruct ds; [simpl in Hlen; lia | done].
Qed.

(** X13.  [simpleHash] gives between one and eight lowercase hexadecimal
    digits, whatever the string: a password hash is never empty. *)
Theorem simpleHash_is_short_hex (s : string) :
  let h := list_ascii_of_string (simpleHash s) in
  (1 <= length h <= 8)%nat ∧ forallb is_hex h = true ∧ simpleHash s ≠ "".
Proof. intros. by eapply simpleHash_hex. Qed.

End Reading.

(** ** Snapshots of the users *)
Section UserSnapshots.
Context (P : Platform).




(** X15.  A users or orders snapshot that is not [null] and fails, in the
    normalisation of its records or in its transaction, leaves the four
    tables as the initialisation left them. *)
Theorem failed_snapshot_leaves_store now incoming context w w0 :
  snapshot_init P now w = (Ok tt, w0) →
  nullish incoming = false →
  (∀ e w1, applyUsersSnapshot P now incoming w = (Throw e, w1) → db w1 = db w0) ∧
  (∀ e w1, applyOrdersSnapshot P now incoming context w = (Throw e, w1) → db w1 = db w0).
Proof.
  intros Hinit Hn. split.
  - intros e w1. unfold applyUsersSnapshot.
    rewrite Hn, (snapshot_init_users P _ _ _ _ Hinit), users_version_or_0.
    destruct (js_le P _ _); [done|].
    intros H. apply bind_throw in H as [H | ([] & wt & _ & Hret)]; [|done].
    by apply transaction_throw in H.
  - intros e w1. unfold applyOrdersSnapshot.
    rewrite Hn, (snapshot_init_orders P _ _ _ _ Hinit), orders_version_or_0.
    destruct (js_le P _ _); [done|].
    intros H. apply bind_throw in H as [H | (normalized & wn & Hl & H)].
    + unfold lift in H. by injection H as _ <-.
    + unfold lift in Hl. injection Hl as _ <-.
      apply bind_throw in H as [H | ([] & wt & _ & Hret)]; [|done].
      by apply transaction_throw in H.
Qed.

End UserSnapshots.

(** ** Adding and updating a user *)
Section UserEdits.
Context (P : Platform).



Lemma addUser_stores now fields w w0 v w1 :
  initAPIDB P now w = (Ok tt, w0) →
  addUser P now fields w = (Ok v, w1) →
  ∃ c (record : obj),
    toInt (oget "code" fields) = Some c ∧ users (db w0) !! c = None ∧
    users (db w1) = <[c := record]> (users (db w0)) ∧
    record !! "code" = Some (VInt c) ∧
    record !! "name" = Some (VStr (user_name fields)) ∧
    record !! "role" = Some (VStr (user_role fields)) ∧
    user_valid record ∧
    record !! "passwordHash" =
      match oget "password" fields with
      | VStr p => if String.eqb p "" then None else Some (VStr (simpleHash p))
      | _ => None
      end ∧
    record !! "active" = Some (VBool (truthy (with_default (VBool true) (oget "active" fields)))) ∧
    orders (db w1) = orders (db w0) ∧ ordersMeta (db w1) = ordersMeta (db w0).
Proof.
  intros Hinit. unfold addUser.
  destruct (nullish fields); [done|]. cbv zeta.
  rewrite (init_then P _ _ _ _ Hinit).
  destruct (toInt (oget "code" fields)) as [c|] eqn:Hc; [|done].
  fold (user_name fields). fold (user_role fields).
  destruct (String.eqb_spec (user_name fields) "") as [|Hname]; [done|].
  destruct (String.eqb_spec (user_role fields) "") as [|Hrole]; [done|].
  fold (role_requires_speciality (user_role fields)). fold (user_speciality fields).
  destruct (role_requires_speciality (user_role fields) &&
            negb (bool_decide (is_Some (user_speciality fields)))) eqn:Hspec; [done|].
  intros H. apply bind_ok in H as ([] & wt & Htx & Hret).
  unfold ret in Hret. injection Hret as _ <-.
  apply -> @transaction_ok in Htx.
  unfold bind at 1 in Htx. unfold read at 1 in Htx.
  destruct (users (db w0) !! c) as [u|] eqn:Hk; [done|].
  apply bind_ok in Htx as ([] & wa & Hadd & Htx).
  apply bind_ok in Htx as (ver & wb & Hbump & Hret).
  unfold ret in Hret. injection Hret as <-.
  apply write_ok, set_users_ok in Hadd as (t & Hadd & Ht & Hoa & Huma & Homa).
  apply bumpUsersVersion_ok in Hbump as (_ & cl & _ & Hmeta).
  unfold put_usersMeta in Hmeta. injection Hmeta as Hdb.
  unfold table_add in Hadd. cbn [oget] in Hadd. rewrite lookup_insert_eq in Hadd.
  cbn [default id] in Hadd. rewrite key_of_VInt, Hk in Hadd. injection Hadd as <-.
  eexists c, _. rewrite <- Hdb. simpl. rewrite Ht.
  split; [done|]. split; [done|]. split; [done|].
  split; [by rewrite lookup_insert_eq|].
  split; [by rewrite lookup_insert_ne, lookup_insert_eq by keys|].
  split; [by rewrite !lookup_insert_ne, lookup_insert_eq by keys|].
  split.
  { exists (user_name fields), (user_role fields).
    repeat first [rewrite lookup_insert_eq | rewrite lookup_insert_ne by keys].
    split_and!; try done.
    - destruct (user_speciality fields) as [s|]; [|by left].
      destruct (role_requires_speciality _); [right; by exists s | by left].
    - intros Hreq. rewrite Hreq in *. simpl in Hspec.
      destruct (user_speciality fields) as [s|]; [by exists s|].
      rewrite bool_decide_eq_false_2 in Hspec; [done|]. by intros [? ?]. }
  split.
  { rewrite !lookup_insert_ne by keys.
    destruct (oget "password" fields) as [| | | | |p| |]; try done.
    destruct (String.eqb p ""); [done|]. by rewrite lookup_singleton_eq. }
  split; [by rewrite !lookup_insert_ne, lookup_insert_eq by keys|].
  split; [by rewrite Hoa | by rewrite Homa].
Qed.


End UserEdits.

(** ** Queries on the orders *)
Section Queries.
Context (P : Platform) (H : Host).


(** The records listed in key order are the records of the table. *)
Lemma by_key_elem (t : gmap Z obj) (o : obj) : o ∈ by_key t ↔ ∃ k, t !! k = Some o.
Proof.
  unfold by_key, entries_by_key. rewrite list_elem_of_fmap. split.
  - intros ([k o'] & -> & Hin). rewrite merge_sort_Permutation in Hin.
    apply elem_of_map_to_list in Hin. by exists k.
  - intros [k Hk]. exists (k, o). split; [done|].
    rewrite merge_sort_Permutation. by apply elem_of_map_to_list.
Qed.


Lemma list_filter_elem {A} (f : A → bool) (l : list A) x :
  x ∈ List.filter f l ↔ x ∈ l ∧ f x = true.
Proof. rewrite !list_elem_of_In. apply filter_In. Qed.



(** X20.  [getOrdersSnapshotForUser] returns the stored orders whose
    [info.asignado_a_code] is strictly equal to the code given, with the
    latest orders meta record, which it reads after one more
    initialisation than the orders.  It compares without conversion: for a
    code that is not a number, the snapshot holds no order whose assigned
    code is a number. *)
Theorem getOrdersSnapshotForUser_spec now userCode w w0 w1 v wf :
  initAPIDB P now w = (Ok tt, w0) →
  initAPIDB P now w0 = (Ok tt, w1) →
  getOrdersSnapshotForUser P now userCode w = (Ok v, wf) →
  wf = w1 ∧
  ∃ res,
    v = snapshot (latest_record (meta_last (ordersMeta (db w1)))) (VArr (VObj <$> res)) ∧
    (∀ o, o ∈ res ↔
          (∃ k, orders (db w0) !! k = Some o) ∧
          strict_eq (oget "asignado_a_code" (oget "info" (VObj o))) userCode = true) ∧
    (∀ o, o ∈ res → is_finite_number userCode = false →
          is_finite_number (oget "asignado_a_code" (oget "info" (VObj o))) = false).
Proof.
  intros Hinit Hinit2. unfold getOrdersSnapshotForUser.
  rewrite (init_then P _ _ _ _ Hinit).
  unfold bind at 1. unfold read at 1. cbv zeta.
  unfold getOrdersMeta. unfold bind at 1. rewrite (init_then P _ _ _ _ Hinit2).
  unfold read, ret. intros [= <- <-]. split; [done|].
  eexists. split; [done|]. split.
  - intros o. rewrite list_filter_elem, by_key_elem. done.
  - intros o [_ Heq]%list_filter_elem Hcode.
    destruct (oget "asignado_a_code" _), userCode; done.
Qed.

End Queries.

(** ** Credentials *)
Section Credentials.
Context (P : Platform) (H : Host).

(** [initAPIDB] returns only once both meta tables have a record. *)
Lemma init_seeds now w w0 :
  initAPIDB P now w = (Ok tt, w0) →
  usersMeta (db w0) ≠ ∅ ∧ ordersMeta (db w0) ≠ ∅.
Proof.
  unfold initAPIDB. intros Hrun.
  apply bind_ok in Hrun as (n & wl & Hl & Hrun). unfold read in Hl. injection Hl as <- <-.
  apply bind_ok in Hrun as ([] & w1 & H1 & Hrun).
  apply bind_ok in Hrun as (n & wl & Hl & Hrun). unfold read in Hl. injection Hl as <- <-.
  apply bind_ok in Hrun as ([] & w2 & H2 & Hrun).
  assert (usersMeta (db w1) ≠ ∅ ∧ ordersMeta (db w1) = ordersMeta (db w)) as [Hu1 Ho1].
  { destruct (bool_decide_reflect (size (usersMeta (db w)) = 0%nat)) as [Hz|Hnz].
    - apply write_ok in H1. unfold put_usersMeta in H1. injection H1 as <-. simpl.
      split; [apply insert_non_empty | done].
    - unfold ret in H1. injection H1 as <-. split; [|done].
      by rewrite <- map_size_empty_iff. }
  assert (usersMeta (db w2) = usersMeta (db w1) ∧ ordersMeta (db w2) ≠ ∅) as [Hu2 Ho2].
  { destruct (bool_decide_reflect (size (ordersMeta (db w1)) = 0%nat)) as [Hz|Hnz].
    - apply write_ok in H2. unfold put_ordersMeta in H2. injection H2 as <-. simpl.
      split; [done | apply insert_non_empty].
    - unfold ret in H2. injection H2 as <-. split; [done|].
      by rewrite <- map_size_empty_iff. }
  unfold try_ in Hrun.
  destruct (markOrdersExpired_skipInit P now VUndef w2) as [r w3] eqn:Hsweep.
  assert (w0 = w3) as -> by (destruct r; by injection Hrun as <-).
  apply sweep_frame in Hsweep as [-> | (_ & Hum & _ & cl & ->)].
  - by rewrite Hu2.
  - rewrite Hum, Hu2. split; [done | apply insert_non_empty].
Qed.

(** X21.  A user created with a password can sign in: for an active user
    that is not an administrator, [verifyUser] returns the stored record
    when the trimmed password hashes as the password given to [addUser],
    and [null] otherwise.  [addUser] hashes the password as given while
    [verifyUser] trims first, so the creation password itself is accepted
    when it has no white space around it. *)
Theorem addUser_then_verifyUser now fields w w0 v w1 now2 p (q : string) :
  initAPIDB P now w = (Ok tt, w0) →
  addUser P now fields w = (Ok v, w1) →
  oget "password" fields = VStr p → p ≠ "" →
  truthy (with_default (VBool true) (oget "active" fields)) = true →
  user_role fields ≠ "admin" →
  q ≠ "" →
  ∃ c (record : obj) w2,
    toInt (oget "code" fields) = Some c ∧
    users (db w1) !! c = Some record ∧
    verifyUser P H now2 (oget "code" fields) (VStr q) w1 =
      (Ok (if String.eqb (simpleHash (trim q)) (simpleHash p) then VObj record else VNull),
       w2) ∧
    (trim p = p → verifyUser P H now2 (oget "code" fields) (VStr p) w1 = (Ok (VObj record), w2)).
Proof.
  intros Hinit Hadd Hp Hpne Hactive Hrole Hq.
  destruct (addUser_stores P _ _ _ _ _ _ Hinit Hadd)
    as (c & record & Hc & Hfree & Husers & Hcode & Hname & Hrl & Hvalid & Hhash & Hact
        & Ho & Hom).
  destruct (init_seeds _ _ _ Hinit) as [_ Hom0].
  destruct (addUser_ok P _ _ _ _ _ _ _ Hinit Hc Hadd) as (_ & Hum1 & _).
  destruct (init_returns P now2 w1) as (w2 & Hinit2 & Hu2 & _);
    [done | by rewrite Hom |].
  exists c, record, w2. split; [done|].
  split; [by rewrite Husers, lookup_insert_eq|].
  assert (users (db w2) !! c = Some record) as Hk.
  { by rewrite Hu2, Husers, lookup_insert_eq. }
  rewrite Hp in Hhash. apply String.eqb_neq in Hpne. rewrite Hpne in Hhash.
  assert (∀ q', q' ≠ "" →
            verifyUser P H now2 (oget "code" fields) (VStr q') w1 =
            (Ok (if String.eqb (simpleHash (trim q')) (simpleHash p)
                 then VObj record else VNull), w2)) as Hverify.
  { intros q' Hq'. unfold verifyUser. rewrite (init_then P _ _ _ _ Hinit2), Hc.
    unfold bind, read. rewrite Hk. cbn [oget]. rewrite Hact, Hactive, Hrl, Hhash.
    cbn [default id strict_eq Bool.eqb negb truthy String_].
    apply String.eqb_neq in Hq'. rewrite Hq'. cbn [negb].
    apply String.eqb_neq in Hrole. rewrite Hrole. cbn [andb].
    destruct (String.eqb_spec (simpleHash p) (simpleHash (trim q'))) as [E|E].
    - by rewrite E, String.eqb_refl.
    - assert (String.eqb (simpleHash (trim q')) (simpleHash p) = false) as ->; [|done].
      apply String.eqb_neq. congruence. }
  split; [by apply Hverify|].
  intros Htrim. rewrite Hverify by (by apply String.eqb_neq). 
  by rewrite Htrim, String.eqb_refl.
Qed.


(** X23.  [verifyUser] does not check the password of the administrator of
    the environment: once [seedRootAdminFromEnv] has created it,
    [verifyUser] returns its record for its code and any password that is
    not empty, the expected hash being computed from the environment and
    not from the password given. *)
Theorem root_admin_signs_in_with_any_password now w w0 w1 now2 password :
  initAPIDB P now w = (Ok tt, w0) →
  seedRootAdminFromEnv P H now w = (Ok (VBool true), w1) →
  truthy password = true →
  ∃ c (admin : obj) w2,
    toInt (VITE_ADMIN_CODE H) = Some c ∧
    users (db w1) !! c = Some admin ∧
    admin !! "role" = Some (VStr "admin") ∧
    verifyUser P H now2 (VITE_ADMIN_CODE H) password w1 = (Ok (VObj admin), w2).
Proof.
  intros Hinit. unfold seedRootAdminFromEnv at 1. rewrite (init_then P _ _ _ _ Hinit).
  cbv zeta.
  destruct (toInt (js_or (VITE_ADMIN_CODE H) (VStr ""))) as [c|] eqn:Hc; [|done].
  destruct (_ || _) eqn:Hblank; [done|].
  unfold bind at 1. unfold read at 1.
  destruct (users (db w0) !! c) as [u|] eqn:Hk; [done|].
  intros Hrun Hpw. apply bind_ok in Hrun as (ver & wt & Htx & Hret).
  unfold ret in Hret. injection Hret as <-.
  apply users_transaction_ok in Htx as (t & Hput & Ht & Ho & Hom & Hv & cl & Hum & _).
  apply table_put_ok in Hput as (k & Hkey & ->).
  assert (k = c) as ->.
  { unfold record_key in Hkey. cbn [oget] in Hkey. rewrite lookup_insert_eq in Hkey.
    cbn [default id] in Hkey. rewrite key_of_VInt in Hkey. congruence. }
  destruct (init_seeds _ _ _ Hinit) as [_ Hom0].
  destruct (init_returns P now2 wt) as (w2 & Hinit2 & Hu2 & Hum2 & _).
  { rewrite Hum. apply insert_non_empty. }
  { by rewrite Hom. }
  assert (truthy (VITE_ADMIN_CODE H) = true) as Htc.
  { destruct (truthy (VITE_ADMIN_CODE H)) eqn:E; [done|].
    unfold js_or in Hc. rewrite E in Hc. by vm_compute in Hc. }
  assert (toInt (VITE_ADMIN_CODE H) = Some c) as Hc'.
  { unfold js_or in Hc. by rewrite Htc in Hc. }
  eexists c, _, w2. split; [done|]. split; [by rewrite Ht, lookup_insert_eq|].
  split.
  { by repeat first [rewrite lookup_insert_eq | rewrite lookup_insert_ne by keys]. }
  unfold verifyUser. rewrite (init_then P _ _ _ _ Hinit2), Hc'.
  unfold bind, read. rewrite Hu2, Ht, lookup_insert_eq. cbn [oget].
  repeat first [rewrite lookup_insert_eq | rewrite lookup_insert_ne by keys].
  cbn [default id strict_eq Bool.eqb negb orb andb]. rewrite Hpw. cbn [negb].
  by rewrite !String.eqb_refl.
Qed.

End Credentials.

(** ** Backups: records and meta entries *)
Section BackupRecords.
Context (P : Platform) (H : Host).















End BackupRecords.

(** ** Backups: frames and checks *)
Section Frames.
Context (R : Store → Store → Prop) `{!Reflexive R} `{!Transitive R}.

Lemma keeps_ret {A} (a : A) : keeps R (ret a).
Proof using Type*. intros w r w' [= _ <-]. reflexivity. Qed.

Lemma keeps_throw {A} e : keeps R (throw (A := A) e).
Proof using Type*. intros w r w' [= _ <-]. reflexivity. Qed.

Lemma keeps_lift {A} (x : result A) : keeps R (lift x).
Proof using Type*. intros w r w' [= _ <-]. reflexivity. Qed.

Lemma keeps_bind {A B} (m : M A) (k : A → M B) :
  keeps R m → (∀ a, keeps R (k a)) → keeps R (bind m k).
Proof using Type*.
  intros Hm Hk w r w'. unfold bind. destruct (m w) as [[a|e] w1] eqn:Hmw.
  - intros Hka. etrans; [by eapply Hm | by eapply Hk].
  - intros [= _ <-]. by eapply Hm.
Qed.

Lemma keeps_write f : (∀ s s', f s = Ok s' → R s s') → keeps R (write f).
Proof using Type*.
  intros Hf w r w'. unfold write.
  destruct (fault w) as [[|n]|]; [intros [= _ <-]; reflexivity|..];
    destruct (f (db w)) as [s'|e] eqn:Hfs; intros [= _ <-]; simpl;
    first [by apply Hf | reflexivity].
Qed.

Lemma keeps_transaction {A} (m : M A) : keeps R m → keeps R (transaction m).
Proof using Type*.
  intros Hm w r w'. unfold transaction. destruct (m w) as [[a|e] w1] eqn:Hmw.
  - intros [= _ <-]. by eapply Hm.
  - intros [= _ <-]. reflexivity.
Qed.

Lemma keeps_try {A} (m : M A) : keeps R m → keeps R (try_ m).
Proof using Type*.
  intros Hm w r w'. unfold try_. destruct (m w) as [[a|e] w1] eqn:Hmw;
    intros [= _ <-]; by eapply Hm.
Qed.

End Frames.

#[global] Instance same_users_refl : Reflexive same_users.
Proof. by intros s. Qed.

#[global] Instance same_users_trans : Transitive same_users.
Proof. intros s1 s2 s3 [? ?] [? ?]. split; congruence. Qed.

#[global] Instance same_orders_refl : Reflexive same_orders.
Proof. by intros s. Qed.

#[global] Instance same_orders_trans : Transitive same_orders.
Proof. intros s1 s2 s3 [? ?] [? ?]. split; congruence. Qed.

Section BackupImport.
Context (P : Platform) (H : Host).

Lemma set_usersMeta_ok f s s' :
  set_usersMeta f s = Ok s' →
  usersMeta s' = f (usersMeta s) ∧ users s' = users s ∧
  orders s' = orders s ∧ ordersMeta s' = ordersMeta s.
Proof. by intros [= <-]. Qed.

Lemma set_ordersMeta_ok f s s' :
  set_ordersMeta f s = Ok s' →
  ordersMeta s' = f (ordersMeta s) ∧ users s' = users s ∧
  orders s' = orders s ∧ usersMeta s' = usersMeta s.
Proof. by intros [= <-]. Qed.

Lemma sweep_keeps_users now codes :
  keeps same_users (markOrdersExpired_skipInit P now codes).
Proof.
  intros w r w' Hrun. apply sweep_frame in Hrun as [-> | (? & ? & _)]; by split.
Qed.

Lemma normalizeBackupScope_range scope :
  normalizeBackupScope scope ∈ ["all"; "users"; "orders"].
Proof.
  unfold normalizeBackupScope.
  set (n := toLowerCase _).
  destruct (existsb (String.eqb n) ["all"; "users"; "orders"]) eqn:Hex.
  - apply existsb_exists in Hex as (x & Hin & Heq).
    apply String.eqb_eq in Heq as ->. by apply list_elem_of_In.
  - by left.
Qed.

Ltac frame :=
  repeat first
    [ apply keeps_ret | apply keeps_throw | apply keeps_lift
    | apply keeps_transaction | apply keeps_try
    | apply sweep_keeps_users
    | apply keeps_bind
    | match goal with |- ∀ _, keeps _ _ => intros ? end
    | apply keeps_write; [typeclasses eauto..|]; intros s s' Hs;
      first [ apply set_users_ok in Hs as (? & ? & ? & ? & ? & ?)
            | apply set_orders_ok in Hs as (? & ? & ? & ? & ? & ?)
            | apply set_usersMeta_ok in Hs as (? & ? & ? & ?)
            | apply set_ordersMeta_ok in Hs as (? & ? & ? & ?)
            | (unfold put_usersMeta, put_ordersMeta in Hs; injection Hs as <-) ];
      by split
    | match goal with |- keeps _ (match ?l with [] => _ | _ :: _ => _ end) =>
        destruct l end
    | match goal with |- keeps _ (if ?c then _ else _) => destruct c end
    | typeclasses eauto ].

(** X24.  An [importDatabaseBackup] that fails, on a check of the file or
    in its transaction, leaves the four tables as [initAPIDB] left them. *)
Theorem failed_import_leaves_store now rawBackup w w0 e w1 :
  initAPIDB P now w = (Ok tt, w0) →
  importDatabaseBackup P H now rawBackup w = (Throw e, w1) →
  db w1 = db w0.
Proof.
  intros Hinit. unfold importDatabaseBackup. rewrite (init_then _ _ _ _ _ Hinit).
  intros Hrun. apply bind_throw in Hrun as [Hl | (backup & wl & Hl & Hrun)].
  { by injection Hl as _ <-. }
  injection Hl as _ <-.
  destruct (negb (truthy backup) || negb (is_object backup)); [by injection Hrun as _ <-|].
  destruct (negb (strict_eq (oget "type" backup) _)); [by injection Hrun as _ <-|].
  destruct (negb (strict_eq (oget "version" backup) _)); [by injection Hrun as _ <-|].
  cbv zeta in Hrun.
  destruct (negb (truthy (oget "data" backup)) || _); [by injection Hrun as _ <-|].
  destruct (negb _ && negb _); [by injection Hrun as _ <-|].
  apply bind_throw in Hrun as [Ht | ([] & wt & Ht & Hrun)].
  { by apply transaction_throw in Ht. }
  exfalso. apply bind_throw in Hrun as [Hs | ([] & ws & Hs & Hrun)].
  - match type of Hs with (if ?c then _ else _) _ = _ => destruct c end; [|done].
    unfold try_ in Hs.
    by destruct (markOrdersExpired_skipInit _ _ _ _) as [[?|?] ?].
  - done.
Qed.

(** X25.  [importDatabaseBackup] returns only for a backup whose [type] is
    the signature "SIGEMBackup", whose [version] is the number 1 and whose
    [data] is an object or an array; the scope it reports is one of "all",
    "users" and "orders". *)
Theorem import_accepts_only_signed_backups now rawBackup w v w1 :
  importDatabaseBackup P H now rawBackup w = (Ok v, w1) →
  ∃ backup scope (nUsers nOrders : nat),
    parseBackupPayload H rawBackup = Ok backup ∧
    oget "type" backup = VStr "SIGEMBackup" ∧
    strict_eq (oget "version" backup) (VInt 1) = true ∧
    truthy (oget "data" backup) = true ∧ is_object (oget "data" backup) = true ∧
    scope = normalizeBackupScope (oget "scope" backup) ∧
    scope ∈ ["all"; "users"; "orders"] ∧
    v = import_result scope nUsers nOrders.
Proof.
  unfold importDatabaseBackup. intros Hrun.
  apply bind_ok in Hrun as ([] & w0 & _ & Hrun).
  apply bind_ok in Hrun as (backup & wl & Hl & Hrun). injection Hl as Hparse <-.
  destruct (negb (truthy backup) || negb (is_object backup)); [done|].
  destruct (strict_eq (oget "type" backup) _) eqn:Htype; [|done].
  destruct (strict_eq (oget "version" backup) _) eqn:Hver; [|done].
  cbv zeta in Hrun. cbn [negb] in Hrun.
  destruct (truthy (oget "data" backup)) eqn:Hdt; [|done].
  destruct (is_object (oget "data" backup)) eqn:Hdo; [|done].
  cbn [negb orb] in Hrun.
  destruct (negb _ && negb _); [done|].
  apply bind_ok in Hrun as ([] & wt & _ & Hrun).
  apply bind_ok in Hrun as ([] & ws & _ & Hrun).
  injection Hrun as <- <-.
  eexists backup, _, _, _. split_and!; try done.
  - destruct (oget "type" backup); try done. simpl in Htype.
    by apply String.eqb_eq in Htype as ->.
  - apply normalizeBackupScope_range.
Qed.

(** X26.  Importing a backup whose scope is "users" leaves the orders and
    their meta table as the [initAPIDB] the import starts with left them
    (its sweep may have rewritten orders that were due), and one whose
    scope is "orders" leaves the users and theirs as that [initAPIDB]
    left them, whatever the file holds and however the import ends.  The
    users are then those of before the call, and so is a users meta
    table that held a record. *)
Theorem scoped_import_leaves_other_tables now rawBackup backup w w0 r w1 :
  initAPIDB P now w = (Ok tt, w0) →
  parseBackupPayload H rawBackup = Ok backup →
  importDatabaseBackup P H now rawBackup w = (r, w1) →
  (normalizeBackupScope (oget "scope" backup) = "users" →
     orders (db w1) = orders (db w0) ∧ ordersMeta (db w1) = ordersMeta (db w0)) ∧
  (normalizeBackupScope (oget "scope" backup) = "orders" →
     users (db w1) = users (db w0) ∧ usersMeta (db w1) = usersMeta (db w0) ∧
     users (db w1) = users (db w) ∧
     (usersMeta (db w) ≠ ∅ → usersMeta (db w1) = usersMeta (db w))).
Proof.
  intros Hinit Hparse. unfold importDatabaseBackup.
  rewrite (init_then _ _ _ _ _ Hinit). rewrite Hparse.
  unfold bind at 1, lift at 1. cbv beta iota zeta.
  intros Hrun. split; intros Hscope; rewrite Hscope in Hrun.
  - change (String.eqb "users" "users") with true in Hrun.
    change (String.eqb "users" "orders") with false in Hrun.
    cbn [negb andb] in Hrun. revert Hrun.
    match goal with |- ?m w0 = _ → _ => assert (keeps same_orders m) as HK end.
    { frame. }
    intros Hrun. by apply HK in Hrun.
  - change (String.eqb "orders" "users") with false in Hrun.
    change (String.eqb "orders" "orders") with true in Hrun.
    cbn [negb andb] in Hrun. revert Hrun.
    match goal with |- ?m w0 = _ → _ => assert (keeps same_users m) as HK end.
    { frame. }
    intros Hrun. apply HK in Hrun. destruct Hrun as [Hu1 Hum1].
    destruct (init_frame P _ _ _ _ Hinit) as (Hu & Hum & _).
    split_and!; [done | done | congruence |].
    intros Hne. rewrite Hum1. by apply Hum.
Qed.

End BackupImport.

(** ** Backups: the round trip *)
Section BackupRoundTrip.
Context (P : Platform) (H : Host).




End BackupRoundTrip.

(** ** The further properties at sample inputs *)

Ltac ok_run Hrun v :=
  match type of Hrun with
  | _ = (?r, ?w1) =>
      assert (∃ v, r = Ok v) as [v ->]
        by (change r with (r, w1).1; rewrite <- Hrun; eexists; by vm_compute)
  end.

Ltac wf_table := unfold table_wf; apply (bool_decide_unpack _); by vm_compute.

Lemma toInt_reads_leading_integer_witness : toInt (VStr " -42px") = Some (-42).
Proof.
  exact (toInt_reads_leading_integer [" "%char] ["4"%char; "2"%char] ["p"%char; "x"%char]
           true eq_refl ltac:(done) eq_refl ltac:(by vm_compute) eq_refl).
Defined.

Lemma updateUser_rejects_unknown_user_witness :
  updateUser demo_platform 1000 (VInt 5) (VObj ∅) (sample_world [])
  = (Throw (Error "El usuario especificado no existe."), sample_world []).
Proof.
  assert (initAPIDB demo_platform 1000 (sample_world []) = (Ok tt, sample_world []))
    as Hinit by by vm_compute.
  destruct (updateUser_rejects_unknown_user demo_platform 1000 (VInt 5) (VObj ∅) _ _ Hinit)
    as [_ Hmissing].
  apply (Hmissing 5); by vm_compute.
Defined.


Lemma cancelOrder_requires_reason_and_detail_witness :
  let o := sample_order 7 0 "2024-01-01" 7 [sample_task 0] in
  let w := sample_world [o] in
  cancelOrder demo_platform (midnight 2024 1 3) (VInt 7) (VStr "  ") (VStr "x") w
  = (Throw (Error "cancellation reason required"), w) ∧
  cancelOrder demo_platform (midnight 2024 1 3) (VInt 7) (VStr "x") VUndef w
  = (Throw (Error "cancellation detail required"), w).
Proof.
  cbv zeta. set (o := sample_order 7 0 _ _ _). set (w := sample_world [o]).
  assert (initAPIDB demo_platform (midnight 2024 1 3) w = (Ok tt, w)) as Hinit
    by by vm_compute.
  assert (orders (db w) !! 7 = Some o) as Hlook by by vm_compute.
  split.
  - pose proof (cancelOrder_requires_reason_and_detail demo_platform _ (VInt 7)
                  (VStr "  ") (VStr "x") _ _ 7 o Hinit eq_refl Hlook) as HT.
    cbv zeta in HT. destruct HT as [Hreason _]. by apply Hreason.
  - pose proof (cancelOrder_requires_reason_and_detail demo_platform _ (VInt 7)
                  (VStr "x") VUndef _ _ 7 o Hinit eq_refl Hlook) as HT.
    cbv zeta in HT. destruct HT as [_ Hdetail]. by apply Hdetail.
Defined.




Lemma expiration_sweep_is_idempotent_witness :
  let o := sample_order 1 0 "2024-01-01" 7 [sample_task 0] in
  let w := sample_world [o] in
  let now := midnight 2024 1 13 in
  ∃ w1,
    markOrdersExpired_skipInit demo_platform now VUndef w = (Ok (sweep_counts 1 0), w1) ∧
    markOrdersExpired_skipInit demo_platform now VUndef w1 = (Ok (sweep_counts 0 0), w1).
Proof.
  cbv zeta. set (o := sample_order 1 0 _ _ _). set (w := sample_world [o]).
  destruct (markOrdersExpired_skipInit demo_platform (midnight 2024 1 13) VUndef w)
    as [r w1] eqn:Hrun.
  assert (r = Ok (sweep_counts 1 0)) as ->.
  { change r with (r, w1).1. rewrite <- Hrun. by vm_compute. }
  exists w1. split; [done|].
  exact (expiration_sweep_is_idempotent demo_platform _ _ _ _ _ sample_world_wf Hrun).
Defined.


Lemma cancelled_order_still_expires_witness :
  let o := sample_order 7 0 "2024-01-01" 7 [sample_task 0] in
  let w := sample_world [o] in
  ∃ v w1 cancelled marked,
    cancelOrder demo_platform (midnight 2024 1 3) (VInt 7) (VStr "sin repuestos")
      (VStr "faltan rodamientos") w = (Ok v, w1) ∧
    orders (db w1) !! 7 = Some cancelled ∧
    sweep_order demo_platform (midnight 2024 1 13) true ∅ cancelled
      = Ok (MarkExpired marked) ∧
    oget "status" (oget "info" (VObj marked)) = VInt 4.
Proof.
  cbv zeta. set (o := sample_order 7 0 _ _ _). set (w := sample_world [o]).
  destruct (cancelOrder demo_platform (midnight 2024 1 3) (VInt 7) (VStr "sin repuestos")
              (VStr "faltan rodamientos") w) as [r w1] eqn:Hrun.
  ok_run Hrun v.
  assert (initAPIDB demo_platform (midnight 2024 1 3) w = (Ok tt, w)) as Hinit
    by by vm_compute.
  destruct (cancelled_order_still_expires demo_platform _ _ _ _ _ _ _ _
              (midnight 2024 1 13)
              {| startDate := midnight 2024 1 1; frequencyDays := 7;
                 dueDate := midnight 2024 1 8; expirationDate := midnight 2024 1 12 |}
              Hinit ltac:(wf_table) Hrun)
    as (c & cancelled & marked & Hc & _ & Hlook & _ & Hsweep & Hst & _).
  - assert (v = match (cancelOrder demo_platform (midnight 2024 1 3) (VInt 7)
                         (VStr "sin repuestos") (VStr "faltan rodamientos") w).1
                with Ok x => x | Throw _ => VUndef end) as -> by by rewrite Hrun.
    by vm_compute.
  - by vm_compute.
  - injection Hc as <-. by exists v, w1, cancelled, marked.
Defined.



(** The storage engine rejects the first write of the snapshot. *)
Lemma failed_snapshot_leaves_store_witness :
  let incoming :=
    VObj (<["meta" := VObj (<["version" := VInt 5]> ∅)]>
         (<["users" := VArr [sample_user 100 "Ana" "mantenedor" "pw"]]> ∅)) in
  let w := {| db := db (sample_world []); fault := Some 0%nat |} in
  ∃ w1,
    applyUsersSnapshot demo_platform (midnight 2024 1 3) incoming w
      = (Throw StorageFault, w1) ∧
    db w1 = db w.
Proof.
  cbv zeta. set (incoming := VObj _).
  set (w := {| db := db (sample_world []); fault := Some 0%nat |}).
  destruct (applyUsersSnapshot demo_platform (midnight 2024 1 3) incoming w)
    as [r w1] eqn:Hrun.
  assert (r = Throw StorageFault) as ->.
  { change r with (r, w1).1. rewrite <- Hrun. by vm_compute. }
  assert (snapshot_init demo_platform (midnight 2024 1 3) w = (Ok tt, w)) as Hinit
    by by vm_compute.
  destruct (failed_snapshot_leaves_store demo_platform _ incoming VUndef _ _ Hinit eq_refl)
    as [Husers _].
  exists w1. split; [done|]. by eapply Husers.
Defined.





Lemma addUser_then_verifyUser_witness :
  let fields := sample_user 100 "Ana" "mantenedor" "pw" in
  ∃ v w1 record w2,
    addUser demo_platform (midnight 2024 1 3) fields (sample_world []) = (Ok v, w1) ∧
    verifyUser demo_platform sample_host (midnight 2024 1 4) (VInt 100) (VStr "pw") w1
      = (Ok (VObj record), w2) ∧
    verifyUser demo_platform sample_host (midnight 2024 1 4) (VInt 100) (VStr "other") w1
      = (Ok VNull, w2).
Proof.
  cbv zeta. set (fields := sample_user 100 "Ana" "mantenedor" "pw").
  destruct (addUser demo_platform (midnight 2024 1 3) fields (sample_world []))
    as [r w1] eqn:Hrun.
  ok_run Hrun v.
  assert (initAPIDB demo_platform (midnight 2024 1 3) (sample_world [])
          = (Ok tt, sample_world [])) as Hinit by by vm_compute.
  destruct (addUser_then_verifyUser demo_platform sample_host _ _ _ _ _ _
              (midnight 2024 1 4) "pw" "other" Hinit Hrun)
    as (c & record & w2 & _ & _ & Hother & Hsame); try done.
  exists v, w1, record, w2. split; [done|]. split; [by apply Hsame | exact Hother].
Defined.


Lemma root_admin_signs_in_with_any_password_witness :
  ∃ w1 admin w2,
    seedRootAdminFromEnv demo_platform sample_host (midnight 2024 1 3) (sample_world [])
      = (Ok (VBool true), w1) ∧
    verifyUser demo_platform sample_host (midnight 2024 1 4) (VStr "1") (VStr "wrong") w1
      = (Ok (VObj admin), w2).
Proof.
  destruct (seedRootAdminFromEnv demo_platform sample_host (midnight 2024 1 3)
              (sample_world [])) as [r w1] eqn:Hrun.
  assert (r = Ok (VBool true)) as ->.
  { change r with (r, w1).1. rewrite <- Hrun. by vm_compute. }
  assert (initAPIDB demo_platform (midnight 2024 1 3) (sample_world [])
          = (Ok tt, sample_world [])) as Hinit by by vm_compute.
  destruct (root_admin_signs_in_with_any_password demo_platform sample_host _ _ _ _
              (midnight 2024 1 4) (VStr "wrong") Hinit Hrun eq_refl)
    as (c & admin & w2 & _ & _ & _ & Hverify).
  by exists w1, admin, w2.
Defined.

Lemma getOrdersSnapshotForUser_spec_witness :
  let o := sample_order 7 0 "2024-01-01" 7 [sample_task 0] in
  let mine : obj :=
    <["info" := VObj (<["asignado_a_code" := VInt 100]> (<["status" := VInt 1]> ∅))]>
      (sample_order 8 1 "2024-01-01" 7 [sample_task 1]) in
  let w := sample_world [o; mine] in
  ∃ res wf,
    getOrdersSnapshotForUser demo_platform (midnight 2024 1 3) (VInt 100) w
      = (Ok (snapshot (latest_record (meta_last (ordersMeta (db w))))
               (VArr (VObj <$> res))), wf) ∧
    mine ∈ res ∧ o ∉ res.
Proof.
  cbv zeta. set (o := sample_order 7 0 _ _ _). set (mine := <["info" := _]> _).
  set (w := sample_world [o; mine]).
  destruct (getOrdersSnapshotForUser demo_platform (midnight 2024 1 3) (VInt 100) w)
    as [r wf] eqn:Hrun.
  ok_run Hrun v.
  assert (initAPIDB demo_platform (midnight 2024 1 3) w = (Ok tt, w)) as Hinit
    by by vm_compute.
  destruct (getOrdersSnapshotForUser_spec demo_platform _ _ _ _ _ _ _ Hinit Hinit Hrun)
    as (-> & res & -> & Hres & _).
  exists res, w. split; [done|]. split.
  - apply Hres. split; [exists 8|]; by vm_compute.
  - intros [_ Heq]%Hres. by vm_compute in Heq.
Defined.


(** A file without the signature is refused, and nothing is written. *)
Lemma failed_import_leaves_store_witness :
  let o := sample_order 7 0 "2024-01-01" 7 [sample_task 0] in
  let w := sample_world [o] in
  ∃ w1,
    importDatabaseBackup demo_platform sample_host (midnight 2024 1 3)
      (VObj (<["type" := VStr "other"]> ∅)) w
    = (Throw (Error "El archivo seleccionado no corresponde a un backup del sistema."), w1) ∧
    db w1 = db w.
Proof.
  cbv zeta. set (o := sample_order 7 0 _ _ _). set (w := sample_world [o]).
  destruct (importDatabaseBackup demo_platform sample_host (midnight 2024 1 3)
              (VObj (<["type" := VStr "other"]> ∅)) w) as [r w1] eqn:Hrun.
  assert (r = Throw (Error "El archivo seleccionado no corresponde a un backup del sistema."))
    as ->.
  { change r with (r, w1).1. rewrite <- Hrun. by vm_compute. }
  assert (initAPIDB demo_platform (midnight 2024 1 3) w = (Ok tt, w)) as Hinit
    by by vm_compute.
  exists w1. split; [done|].
  exact (failed_import_leaves_store demo_platform sample_host _ _ _ _ _ _ Hinit Hrun).
Defined.

Lemma import_accepts_only_signed_backups_witness :
  ∃ v w1,
    importDatabaseBackup demo_platform sample_host (midnight 2024 1 3)
      sample_users_backup (sample_world []) = (Ok v, w1) ∧
    v = import_result "users" 0 0.
Proof.
  destruct (importDatabaseBackup demo_platform sample_host (midnight 2024 1 3)
              sample_users_backup (sample_world [])) as [r w1] eqn:Hrun.
  ok_run Hrun v.
  destruct (import_accepts_only_signed_backups demo_platform sample_host _ _ _ _ _ Hrun)
    as (backup & scope & nUsers & nOrders & Hparse & _ & _ & _ & _ & Hscope & _ & Hv).
  exists v, w1. split; [done|].
  assert (v = match (importDatabaseBackup demo_platform sample_host (midnight 2024 1 3)
                       sample_users_backup (sample_world [])).1
              with Ok x => x | Throw _ => VUndef end) as -> by by rewrite Hrun.
  by vm_compute.
Defined.

Lemma scoped_import_leaves_other_tables_witness :
  let o := sample_order 7 0 "2024-01-01" 7 [sample_task 0] in
  let w := sample_world [o] in
  ∃ v w1,
    importDatabaseBackup demo_platform sample_host (midnight 2024 1 3)
      sample_users_backup w = (Ok v, w1) ∧
    orders (db w1) = orders (db w) ∧ ordersMeta (db w1) = ordersMeta (db w).
Proof.
  cbv zeta. set (o := sample_order 7 0 _ _ _). set (w := sample_world [o]).
  destruct (importDatabaseBackup demo_platform sample_host (midnight 2024 1 3)
              sample_users_backup w) as [r w1] eqn:Hrun.
  ok_run Hrun v.
  assert (initAPIDB demo_platform (midnight 2024 1 3) w = (Ok tt, w)) as Hinit
    by by vm_compute.
  destruct (scoped_import_leaves_other_tables demo_platform sample_host _
              sample_users_backup sample_users_backup _ _ _ _ Hinit eq_refl Hrun)
    as [Husers _].
  exists v, w1. split; [done|]. apply Husers. by vm_compute.
Defined.

